(** * backendServer: room coordination, signaling rooms and event polls

    A shallow embedding of the Socket.IO handlers of [server.js], the
    [WebRTCHandler] class and the event controller ([createEvent],
    [createPoll], [votePoll]), followed by the properties of the
    specification that concern them.

    Conventions.
    - Every in-memory store of the program is a field of [World].  A JavaScript
      [Map] whose iteration order is observed ([teachingSessions.forEach],
      [this.rooms.entries()]) is an insertion-ordered association list
      ([jm_get], [jm_set], [jm_delete]); a [Map] that is only read and
      written by key is a [gmap].
    - Poll objects live in [pollHeap]; [eventPolls] and [event.polls] hold
      references to them, as the JavaScript stores hold the same object.
    - [new Date()], [Date.now()] and [Math.random()] are arguments of the
      handlers ([now], [rnd]).
    - Numbers are [Z]: counters stay far below 2^53, where JavaScript
      numbers are exact.
    - Client blobs that are forwarded verbatim (chat messages, host
      profiles, documents) are strings. *)

From Stdlib Require Import ZArith String Ascii List Bool Lia.
From stdpp Require Import base option list gmap strings pretty.

Import ListNotations.
Open Scope string_scope.
Open Scope list_scope.
Open Scope Z_scope.

(** ** JavaScript helpers *)

(** [d || dflt] on an optional number: [undefined] and [0] are falsy. *)
Definition js_or_num (d : option Z) (dflt : Z) : Z :=
  match d with
  | Some v => if v =? 0 then dflt else v
  | None => dflt
  end.

(** [s || dflt] on an optional string: [undefined] and [''] are falsy. *)
Definition js_or_str (s : option string) (dflt : string) : string :=
  match s with
  | Some EmptyString => dflt
  | Some v => v
  | None => dflt
  end.

(** [roomId.startsWith(p)] *)
Definition startsWith (p s : string) : bool := String.prefix p s.

Definition upper_ascii (c : ascii) : ascii :=
  let n := nat_of_ascii c in
  if ((97 <=? n)%nat && (n <=? 122)%nat)%bool then ascii_of_nat (n - 32) else c.

(** [name.charAt(0).toUpperCase()], on ASCII letters. *)
Definition charAt0_upper (s : string) : string :=
  match s with
  | EmptyString => EmptyString
  | String c _ => String (upper_ascii c) EmptyString
  end.

(** [arr.findIndex(pred)]: the first index whose element satisfies [pred];
    [None] stands for [-1]. *)
Fixpoint findIndex {A : Type} (pred : A -> bool) (l : list A) : option nat :=
  match l with
  | [] => None
  | x :: l' => if pred x then Some 0%nat else option_map S (findIndex pred l')
  end.

(** [arr.find(pred)] *)
Fixpoint js_find {A : Type} (pred : A -> bool) (l : list A) : option A :=
  match l with
  | [] => None
  | x :: l' => if pred x then Some x else js_find pred l'
  end.

(** ** Insertion-ordered [Map] with string keys *)

Section JsMap.
Context {V : Type}.

Fixpoint jm_get (k : string) (m : list (string * V)) : option V :=
  match m with
  | [] => None
  | (k', v) :: m' => if decide (k = k') then Some v else jm_get k m'
  end.

(** [m.set(k, v)]: an existing key keeps its position. *)
Fixpoint jm_set (k : string) (v : V) (m : list (string * V)) : list (string * V) :=
  match m with
  | [] => [(k, v)]
  | (k', v') :: m' =>
      if decide (k = k') then (k, v) :: m' else (k', v') :: jm_set k v m'
  end.

Fixpoint jm_delete (k : string) (m : list (string * V)) : list (string * V) :=
  match m with
  | [] => []
  | (k', v') :: m' =>
      if decide (k = k') then m' else (k', v') :: jm_delete k m'
  end.

Definition jm_has (k : string) (m : list (string * V)) : bool :=
  match jm_get k m with Some _ => true | None => false end.

Definition jm_keys (m : list (string * V)) : list string := map fst m.
Definition jm_values (m : list (string * V)) : list V := map snd m.

(** A [Map] never holds a key twice. *)
Definition jm_wf (m : list (string * V)) : Prop := NoDup (jm_keys m).
End JsMap.

(** ** Data model *)

(** The [student] object a client sends with a join. *)
Record Profile := {
  pf_id : option string;
  pf_name : string;
  pf_email : option string;
  pf_avatar : option string
}.

(** An element of [session.students]: [{ ...student, socketId }]. *)
Record Student := {
  st_profile : Profile;
  st_socketId : string
}.

Definition st_id (s : Student) : option string := pf_id (st_profile s).

(** A value of [teachingSessions]. [hostActive] is absent until the host
    disconnects. *)
Record Session := {
  ts_host : string;
  ts_hostSocketId : string;
  ts_students : list Student;
  ts_messages : list string;
  ts_notes : list string;
  ts_attendance : list string;
  ts_feedback : list string;
  ts_createdAt : Z;
  ts_type : string;
  ts_hostActive : option bool
}.

(** An element of [gamingRoom.participants]. *)
Record Participant := {
  pt_id : string;
  pt_name : string;
  pt_avatar : option string;
  pt_socketId : string;
  pt_audio : bool;
  pt_video : bool;
  pt_screenshare : bool;
  pt_joinTime : Z
}.

(** A value of [gamingRooms]. *)
Record GamingRoom := {
  gr_host : string;
  gr_hostSocketId : string;
  gr_participants : list Participant;
  gr_messages : list string;
  gr_createdAt : Z;
  gr_type : string
}.

(** An element of [event.attendees]. *)
Record Attendee := {
  at_id : string;
  at_name : string;
  at_email : string;
  at_avatar : string;
  at_socketId : string;
  at_handRaised : bool;
  at_status : string;
  at_joinTime : Z
}.

Record EventHost := {
  eh_name : string;
  eh_email : string;
  eh_socketId : option string
}.

Record Settings := {
  chatEnabled : bool;
  handsEnabled : bool;
  documentsEnabled : bool;
  pollsEnabled : bool
}.

Inductive EventStatus := EvCreated | EvActive | EvEnded.

(** A value of [events]. [ev_polls] holds references into the poll heap. *)
Record Event := {
  ev_id : string;
  ev_title : string;
  ev_description : string;
  ev_host : EventHost;
  ev_attendees : list Attendee;
  ev_messages : list string;
  ev_documents : list string;
  ev_polls : list nat;
  ev_settings : Settings;
  ev_status : EventStatus;
  ev_createdAt : Z;
  ev_startedAt : option Z;
  ev_endedAt : option Z
}.

Inductive PollStatus := PollActive | PollClosed.

(** An element of [poll.options], as [createPoll] builds it. *)
Record PollOption := {
  po_id : Z;
  po_text : string;
  po_votes : Z;
  po_voters : list string
}.

(** A poll made by [createPoll]. *)
Record Poll := {
  pl_id : string;
  pl_eventId : string;
  pl_question : string;
  pl_options : list PollOption;
  pl_duration : Z;
  pl_createdAt : Z;
  pl_expiresAt : option Z;
  pl_status : PollStatus;
  pl_totalVotes : Z
}.

(** The [poll] object a client sends with [event-start-poll]. *)
Record ClientPoll := {
  cp_question : string;
  cp_options : list string;
  cp_duration : option Z
}.

(** A poll made by the [event-start-poll] handler:
    [{ ...poll, id, eventId, status: 'active', votes: {} }]. *)
Record SocketPoll := {
  sp_client : ClientPoll;
  sp_id : string;
  sp_eventId : string;
  sp_status : PollStatus;
  sp_votes : gmap string Z
}.

(** What [eventPolls] can hold: both creators write to the same [Map]. *)
Inductive PollObj :=
| RestPoll (p : Poll)
| SockPoll (p : SocketPoll).

Definition obj_status (o : PollObj) : PollStatus :=
  match o with
  | RestPoll p => pl_status p
  | SockPoll p => sp_status p
  end.

(** A pending [setTimeout] callback of a poll creator: the delay the timer
    runs with, the time of the call, the poll id the closure captured and,
    for the socket handler, the socket and event it notifies. *)
Record Timer := {
  tm_armedAt : Z;
  tm_delay : Z;
  tm_pollId : string;
  tm_notify : option (string * string)
}.

(** A value of [WebRTCHandler.rooms]. *)
Record RtcRoom := {
  rr_hostId : string;
  rr_hostName : string;
  rr_students : list (string * (Profile * Z))
}.

(** ** Socket.IO: channels, emits and the outbox *)

(** Who an emit is addressed to: [io.to(room).emit], [socket.to(room).emit]
    (the room without the sending socket) and [socket.emit]. *)
Inductive Target :=
| IoTo (room : string)
| SocketTo (sid room : string)
| SocketEmit (sid : string).

#[global] Instance Target_eq_dec : EqDecision Target.
Proof. solve_decision. Defined.

(** The arguments of the emits of the modelled handlers. *)
Inductive Payload :=
| P_none
| P_string (s : string)
| P_opt_id (id : option string)
| P_room (roomId : string)
| P_room_created (roomId : string) (success : bool)
| P_rtc_room_created (roomId hostId : string)
| P_room_joined (roomId : string) (success : bool) (memberCount : nat)
| P_attendee (a : Attendee)
| P_event_joined (eventId title description host : string)
    (attendees : list Attendee) (documents : list string)
    (settings : Settings) (success : bool)
| P_gaming_joined (roomId hostId : string) (participants : list Participant)
    (success : bool)
| P_teaching_joined (roomId hostId : string) (students : list Student)
    (success : bool)
| P_join_request (id : string) (student : Student) (roomId : string)
    (timestamp : Z)
| P_join_pending (roomId message : string)
| P_join_approved (roomId hostId : string)
| P_join_rejected (roomId reason : string)
| P_student (s : Student)
| P_user_left (userId : string)
| P_message (m : string)
| P_chat_toggled (enabled : bool)
| P_poll_started (p : SocketPoll)
| P_poll_vote (pollId : string) (optionId : Z) (userId : string).

(** One emit, with the sockets it reached: the channel is resolved when the
    emit is made. *)
Record Sent := {
  target : Target;
  ev : string;
  payload : Payload;
  rcpts : gset string
}.

(** All stores of the process, the connected sockets with the rooms each
    has joined ([socket.rooms], in joining order, its own id first), the
    pending timers and everything emitted so far. *)
Record World := {
  teachingSessions : list (string * Session);
  gamingRooms : gmap string GamingRoom;
  events : gmap string Event;
  eventPolls : gmap string nat;
  pollHeap : list PollObj;
  timers : list Timer;
  rtcRooms : list (string * RtcRoom);
  sockets : gmap string (list string);
  outbox : list Sent
}.

Definition init : World :=
  {| teachingSessions := []; gamingRooms := ∅; events := ∅; eventPolls := ∅;
     pollHeap := []; timers := []; rtcRooms := []; sockets := ∅;
     outbox := [] |}.

Definition set_teachingSessions (x : list (string * Session)) (w : World) : World :=
  {| teachingSessions := x; gamingRooms := gamingRooms w; events := events w;
     eventPolls := eventPolls w; pollHeap := pollHeap w; timers := timers w;
     rtcRooms := rtcRooms w; sockets := sockets w; outbox := outbox w |}.

Definition set_gamingRooms (x : gmap string GamingRoom) (w : World) : World :=
  {| teachingSessions := teachingSessions w; gamingRooms := x; events := events w;
     eventPolls := eventPolls w; pollHeap := pollHeap w; timers := timers w;
     rtcRooms := rtcRooms w; sockets := sockets w; outbox := outbox w |}.

Definition set_events (x : gmap string Event) (w : World) : World :=
  {| teachingSessions := teachingSessions w; gamingRooms := gamingRooms w; events := x;
     eventPolls := eventPolls w; pollHeap := pollHeap w; timers := timers w;
     rtcRooms := rtcRooms w; sockets := sockets w; outbox := outbox w |}.

Definition set_eventPolls (x : gmap string nat) (w : World) : World :=
  {| teachingSessions := teachingSessions w; gamingRooms := gamingRooms w;
     events := events w; eventPolls := x; pollHeap := pollHeap w; timers := timers w;
     rtcRooms := rtcRooms w; sockets := sockets w; outbox := outbox w |}.

Definition set_pollHeap (x : list PollObj) (w : World) : World :=
  {| teachingSessions := teachingSessions w; gamingRooms := gamingRooms w;
     events := events w; eventPolls := eventPolls w; pollHeap := x; timers := timers w;
     rtcRooms := rtcRooms w; sockets := sockets w; outbox := outbox w |}.

Definition set_timers (x : list Timer) (w : World) : World :=
  {| teachingSessions := teachingSessions w; gamingRooms := gamingRooms w;
     events := events w; eventPolls := eventPolls w; pollHeap := pollHeap w; timers := x;
     rtcRooms := rtcRooms w; sockets := sockets w; outbox := outbox w |}.

Definition set_rtcRooms (x : list (string * RtcRoom)) (w : World) : World :=
  {| teachingSessions := teachingSessions w; gamingRooms := gamingRooms w;
     events := events w; eventPolls := eventPolls w; pollHeap := pollHeap w;
     timers := timers w; rtcRooms := x; sockets := sockets w; outbox := outbox w |}.

Definition set_sockets (x : gmap string (list string)) (w : World) : World :=
  {| teachingSessions := teachingSessions w; gamingRooms := gamingRooms w;
     events := events w; eventPolls := eventPolls w; pollHeap := pollHeap w;
     timers := timers w; rtcRooms := rtcRooms w; sockets := x; outbox := outbox w |}.

Definition set_outbox (x : list Sent) (w : World) : World :=
  {| teachingSessions := teachingSessions w; gamingRooms := gamingRooms w;
     events := events w; eventPolls := eventPolls w; pollHeap := pollHeap w;
     timers := timers w; rtcRooms := rtcRooms w; sockets := sockets w; outbox := x |}.

(** The sockets currently in a channel. *)
Definition in_room (socks : gmap string (list string)) (room : string) : gset string :=
  dom (filter (λ kv : string * list string, room ∈ kv.2) socks).

Definition resolve (socks : gmap string (list string)) (t : Target) : gset string :=
  match t with
  | IoTo room => in_room socks room
  | SocketTo sid room => in_room socks room ∖ {[sid]}
  | SocketEmit sid => {[sid]}
  end.

Definition emit (t : Target) (name : string) (p : Payload) (w : World) : World :=
  set_outbox
    (outbox w ++
       [{| target := t; ev := name; payload := p; rcpts := resolve (sockets w) t |}])
    w.

(** [socket.join(room)]: [socket.rooms] is a [Set], a second join of the same
    room changes nothing. *)
Definition socket_join (sid room : string) (w : World) : World :=
  match sockets w !! sid with
  | Some rs =>
      if decide (room ∈ rs) then w
      else set_sockets (<[sid := rs ++ [room]]> (sockets w)) w
  | None => w
  end.

(** A new connection: the socket is in the room named by its own id. *)
Definition connect (sid : string) (w : World) : World :=
  set_sockets (<[sid := [sid]]> (sockets w)) w.

(** Between [disconnecting] and [disconnect] the socket leaves all its
    rooms. *)
Definition leave_all (sid : string) (w : World) : World :=
  set_sockets (delete sid (sockets w)) w.

(** Several emits in a row. *)
Definition emit_all (l : list (Target * string * Payload)) (w : World) : World :=
  fold_left (λ w e, emit e.1.1 e.1.2 e.2 w) l w.

(** ** [server.js]: creating rooms *)

Definition new_session (host sid : string) (now : Z) : Session :=
  {| ts_host := host; ts_hostSocketId := sid; ts_students := [];
     ts_messages := []; ts_notes := []; ts_attendance := []; ts_feedback := [];
     ts_createdAt := now; ts_type := "teaching"; ts_hostActive := None |}.

Definition new_gamingRoom (host sid : string) (now : Z) : GamingRoom :=
  {| gr_host := host; gr_hostSocketId := sid; gr_participants := [];
     gr_messages := []; gr_createdAt := now; gr_type := "gaming" |}.

Definition gr_with_hostSocketId (sid : string) (r : GamingRoom) : GamingRoom :=
  {| gr_host := gr_host r; gr_hostSocketId := sid;
     gr_participants := gr_participants r; gr_messages := gr_messages r;
     gr_createdAt := gr_createdAt r; gr_type := gr_type r |}.

Definition gr_with_participants (ps : list Participant) (r : GamingRoom) : GamingRoom :=
  {| gr_host := gr_host r; gr_hostSocketId := gr_hostSocketId r;
     gr_participants := ps; gr_messages := gr_messages r;
     gr_createdAt := gr_createdAt r; gr_type := gr_type r |}.

Definition ts_with_students (ss : list Student) (s : Session) : Session :=
  {| ts_host := ts_host s; ts_hostSocketId := ts_hostSocketId s; ts_students := ss;
     ts_messages := ts_messages s; ts_notes := ts_notes s;
     ts_attendance := ts_attendance s; ts_feedback := ts_feedback s;
     ts_createdAt := ts_createdAt s; ts_type := ts_type s;
     ts_hostActive := ts_hostActive s |}.

Definition ts_with_hostActive (b : option bool) (s : Session) : Session :=
  {| ts_host := ts_host s; ts_hostSocketId := ts_hostSocketId s;
     ts_students := ts_students s; ts_messages := ts_messages s;
     ts_notes := ts_notes s; ts_attendance := ts_attendance s;
     ts_feedback := ts_feedback s; ts_createdAt := ts_createdAt s;
     ts_type := ts_type s; ts_hostActive := b |}.

Definition st_with_socketId (sid : string) (s : Student) : Student :=
  {| st_profile := st_profile s; st_socketId := sid |}.

(** [event.host.socketId = socket.id; event.status = 'active';
    event.startedAt = new Date()] *)
Definition ev_activate (sid : string) (now : Z) (e : Event) : Event :=
  {| ev_id := ev_id e; ev_title := ev_title e; ev_description := ev_description e;
     ev_host := {| eh_name := eh_name (ev_host e); eh_email := eh_email (ev_host e);
                   eh_socketId := Some sid |};
     ev_attendees := ev_attendees e; ev_messages := ev_messages e;
     ev_documents := ev_documents e; ev_polls := ev_polls e;
     ev_settings := ev_settings e; ev_status := EvActive;
     ev_createdAt := ev_createdAt e; ev_startedAt := Some now;
     ev_endedAt := ev_endedAt e |}.

Definition ev_with_attendees (l : list Attendee) (e : Event) : Event :=
  {| ev_id := ev_id e; ev_title := ev_title e; ev_description := ev_description e;
     ev_host := ev_host e; ev_attendees := l; ev_messages := ev_messages e;
     ev_documents := ev_documents e; ev_polls := ev_polls e;
     ev_settings := ev_settings e; ev_status := ev_status e;
     ev_createdAt := ev_createdAt e; ev_startedAt := ev_startedAt e;
     ev_endedAt := ev_endedAt e |}.

Definition ev_with_messages (l : list string) (e : Event) : Event :=
  {| ev_id := ev_id e; ev_title := ev_title e; ev_description := ev_description e;
     ev_host := ev_host e; ev_attendees := ev_attendees e; ev_messages := l;
     ev_documents := ev_documents e; ev_polls := ev_polls e;
     ev_settings := ev_settings e; ev_status := ev_status e;
     ev_createdAt := ev_createdAt e; ev_startedAt := ev_startedAt e;
     ev_endedAt := ev_endedAt e |}.

Definition ev_with_polls (l : list nat) (e : Event) : Event :=
  {| ev_id := ev_id e; ev_title := ev_title e; ev_description := ev_description e;
     ev_host := ev_host e; ev_attendees := ev_attendees e;
     ev_messages := ev_messages e; ev_documents := ev_documents e; ev_polls := l;
     ev_settings := ev_settings e; ev_status := ev_status e;
     ev_createdAt := ev_createdAt e; ev_startedAt := ev_startedAt e;
     ev_endedAt := ev_endedAt e |}.

Definition ev_with_chatEnabled (b : bool) (e : Event) : Event :=
  {| ev_id := ev_id e; ev_title := ev_title e; ev_description := ev_description e;
     ev_host := ev_host e; ev_attendees := ev_attendees e;
     ev_messages := ev_messages e; ev_documents := ev_documents e;
     ev_polls := ev_polls e;
     ev_settings := {| chatEnabled := b;
                       handsEnabled := handsEnabled (ev_settings e);
                       documentsEnabled := documentsEnabled (ev_settings e);
                       pollsEnabled := pollsEnabled (ev_settings e) |};
     ev_status := ev_status e; ev_createdAt := ev_createdAt e;
     ev_startedAt := ev_startedAt e; ev_endedAt := ev_endedAt e |}.

(** [event.status = 'ended'; event.endedAt = new Date()] *)
Definition ev_end (now : Z) (e : Event) : Event :=
  {| ev_id := ev_id e; ev_title := ev_title e; ev_description := ev_description e;
     ev_host := ev_host e; ev_attendees := ev_attendees e;
     ev_messages := ev_messages e; ev_documents := ev_documents e;
     ev_polls := ev_polls e; ev_settings := ev_settings e; ev_status := EvEnded;
     ev_createdAt := ev_createdAt e; ev_startedAt := ev_startedAt e;
     ev_endedAt := Some now |}.

(** [socket.on('create-room', ...)] of [server.js]. *)
Definition srv_create_room (sid roomId host : string) (now : Z) (w : World) : World :=
  let w := socket_join sid roomId w in
  let w :=
    if startsWith "GAME-" roomId then
      match gamingRooms w !! roomId with
      | Some existingRoom =>
          set_gamingRooms
            (<[roomId := gr_with_hostSocketId sid existingRoom]> (gamingRooms w)) w
      | None =>
          set_gamingRooms (<[roomId := new_gamingRoom host sid now]> (gamingRooms w)) w
      end
    else if startsWith "EVENT-" roomId then
      match events w !! roomId with
      | Some event => set_events (<[roomId := ev_activate sid now event]> (events w)) w
      | None => w
      end
    else
      set_teachingSessions
        (jm_set roomId (new_session host sid now) (teachingSessions w)) w in
  emit (SocketEmit sid) "room-created" (P_room_created roomId true) w.

(** [socket.on('join-room', (roomId, userData) => ...)] of [server.js], for a
    room id given as a string. *)
Definition srv_join_room (sid roomId : string) (w : World) : World :=
  let w := socket_join sid roomId w in
  let updatedMemberCount := size (in_room (sockets w) roomId) in
  let w := emit (SocketTo sid roomId) "user-connected" (P_string sid) w in
  emit (SocketEmit sid) "room-joined" (P_room_joined roomId true updatedMemberCount) w.

(** ** [server.js]: joining ([join-room-old]) *)

(** The argument of [join-room-old]: a bare room id, or [{ roomId, student }]. *)
Inductive JoinData :=
| JoinString (roomId : string)
| JoinObject (roomId : string) (student : Profile).

Definition jd_roomId (d : JoinData) : string :=
  match d with JoinString r => r | JoinObject r _ => r end.

Definition jd_student (d : JoinData) : Profile :=
  match d with
  | JoinString _ =>
      {| pf_id := None; pf_name := "User"; pf_email := None; pf_avatar := Some "U" |}
  | JoinObject _ s => s
  end.

Definition new_attendee (sid : string) (student : Profile) (now : Z) : Attendee :=
  {| at_id := sid; at_name := pf_name student;
     at_email := js_or_str (pf_email student) "";
     at_avatar := js_or_str (pf_avatar student) (charAt0_upper (pf_name student));
     at_socketId := sid; at_handRaised := false; at_status := "online";
     at_joinTime := now |}.

Definition new_participant (sid : string) (student : Profile) (now : Z) : Participant :=
  {| pt_id := sid; pt_name := pf_name student; pt_avatar := pf_avatar student;
     pt_socketId := sid; pt_audio := true; pt_video := true;
     pt_screenshare := false; pt_joinTime := now |}.

(** The event branch. *)
Definition join_event (sid roomId : string) (student : Profile) (now : Z)
    (w : World) : World :=
  match events w !! roomId with
  | Some event =>
      match ev_status event with
      | EvActive =>
          let w := socket_join sid roomId w in
          let attendee := new_attendee sid student now in
          let event' := ev_with_attendees (ev_attendees event ++ [attendee]) event in
          let w := set_events (<[roomId := event']> (events w)) w in
          let w := emit (IoTo roomId) "attendee-joined" (P_attendee attendee) w in
          emit (SocketEmit sid) "event-joined"
            (P_event_joined roomId (ev_title event') (ev_description event')
               (eh_name (ev_host event')) (ev_attendees event')
               (ev_documents event') (ev_settings event') true) w
      | _ => emit (SocketEmit sid) "event-not-found" (P_room roomId) w
      end
  | None => emit (SocketEmit sid) "event-not-found" (P_room roomId) w
  end.

(** [participants[existingIndex] = participant] or [participants.push]. *)
Definition put_participant (p : Participant) (ps : list Participant) : list Participant :=
  match findIndex (λ q, bool_decide (pt_name q = pt_name p)) ps with
  | Some existingIndex => <[existingIndex := p]> ps
  | None => ps ++ [p]
  end.

(** The gaming branch. *)
Definition join_gaming (sid roomId : string) (student : Profile) (now : Z)
    (w : World) : World :=
  match gamingRooms w !! roomId with
  | Some gamingRoom =>
      let w := socket_join sid roomId w in
      let participant := new_participant sid student now in
      let room' :=
        gr_with_participants
          (put_participant participant (gr_participants gamingRoom)) gamingRoom in
      let w := set_gamingRooms (<[roomId := room']> (gamingRooms w)) w in
      let w := emit (SocketTo sid roomId) "user-connected" (P_string sid) w in
      emit (SocketEmit sid) "room-joined"
        (P_gaming_joined roomId (gr_hostSocketId room')
           (List.filter (λ p, negb (bool_decide (pt_id p = sid))) (gr_participants room'))
           true) w
  | None => emit (SocketEmit sid) "room-not-found" (P_room roomId) w
  end.

(** The teaching branch: a join request goes to the host, nothing is
    stored. *)
Definition join_teaching (sid roomId : string) (student : Profile) (now : Z)
    (w : World) : World :=
  match jm_get roomId (teachingSessions w) with
  | Some session =>
      let w :=
        emit (IoTo (ts_hostSocketId session)) "join-request"
          (P_join_request sid {| st_profile := student; st_socketId := sid |}
             roomId now) w in
      emit (SocketEmit sid) "join-pending"
        (P_join_pending roomId "Waiting for teacher approval...") w
  | None => emit (SocketEmit sid) "room-not-found" (P_room roomId) w
  end.

Definition join_room_old (sid : string) (data : JoinData) (now : Z) (w : World) : World :=
  let roomId := jd_roomId data in
  let student := jd_student data in
  if startsWith "EVENT-" roomId then join_event sid roomId student now w
  else if startsWith "GAME-" roomId then join_gaming sid roomId student now w
  else join_teaching sid roomId student now w.

(** ** [server.js]: the approval workflow of teaching rooms *)

Definition approve_join (requestId roomId : string) (w : World) : World :=
  match jm_get roomId (teachingSessions w) with
  | Some session =>
      emit (IoTo requestId) "join-approved"
        (P_join_approved roomId (ts_hostSocketId session)) w
  | None => w
  end.

Definition reject_join (requestId roomId : string) (w : World) : World :=
  emit (IoTo requestId) "join-rejected"
    (P_join_rejected roomId "Teacher declined your request") w.

(** [s => s.id === student.id || s.socketId === socket.id] *)
Definition same_student (sid : string) (student : Profile) (s : Student) : bool :=
  bool_decide (st_id s = pf_id student) || bool_decide (st_socketId s = sid).

Definition confirm_students (sid : string) (student : Profile) (ss : list Student)
    : list Student :=
  match findIndex (same_student sid student) ss with
  | Some existingIndex =>
      match ss !! existingIndex with
      | Some s => <[existingIndex := st_with_socketId sid s]> ss
      | None => ss
      end
  | None => ss ++ [{| st_profile := student; st_socketId := sid |}]
  end.

Definition confirm_join (sid roomId : string) (student : Profile) (w : World) : World :=
  match jm_get roomId (teachingSessions w) with
  | Some session =>
      let students' := confirm_students sid student (ts_students session) in
      let session' := ts_with_students students' session in
      match findIndex (same_student sid student) (ts_students session) with
      | Some _ =>
          let w := set_teachingSessions
                     (jm_set roomId session' (teachingSessions w)) w in
          let w := socket_join sid roomId w in
          emit (SocketEmit sid) "room-joined"
            (P_teaching_joined roomId (ts_hostSocketId session') students' true) w
      | None =>
          let w := socket_join sid roomId w in
          let w := set_teachingSessions
                     (jm_set roomId session' (teachingSessions w)) w in
          let w := emit (SocketTo sid roomId) "student-joined"
                     (P_student {| st_profile := student; st_socketId := sid |}) w in
          emit (SocketEmit sid) "room-joined"
            (P_teaching_joined roomId (ts_hostSocketId session') students' true) w
      end
  | None => w
  end.

(** ** [server.js]: losing a connection *)

(** [socket.on('disconnecting', ...)]: [rooms[1]] is the first room the socket
    joined after its own. *)
Definition srv_disconnecting (sid : string) (w : World) : World :=
  match sockets w !! sid with
  | Some (_ :: room :: _) =>
      emit (SocketTo sid room) "user-disconnected" (P_string sid) w
  | _ => w
  end.

(** The first [forEach] of the [disconnect] handler: [hostRoomId] is
    overwritten by every session the socket hosts, so the last one in
    insertion order remains. *)
Definition find_hostRoomId (sid : string) (m : list (string * Session)) : option string :=
  fold_left
    (λ hostRoomId kv,
       if decide (ts_hostSocketId kv.2 = sid) then Some kv.1 else hostRoomId)
    m None.

(** One round of the second [forEach]: the student with this socket is
    spliced out of the session; the result carries the removed student. *)
Definition student_leaves (sid : string) (session : Session) : Session * option Student :=
  match findIndex (λ s, bool_decide (st_socketId s = sid)) (ts_students session) with
  | Some studentIndex =>
      match ts_students session !! studentIndex with
      | Some student =>
          (ts_with_students (delete studentIndex (ts_students session)) session,
           Some student)
      | None => (session, None)
      end
  | None => (session, None)
  end.

Definition student_left_emits (sid : string) (m : list (string * Session))
    : list (Target * string * Payload) :=
  flat_map
    (λ kv, match (student_leaves sid kv.2).2 with
           | Some student => [(SocketTo sid kv.1, "student-left", P_opt_id (st_id student))]
           | None => []
           end) m.

(** [socket.on('disconnect', ...)] of [server.js]. [if (hostRoomId)] is false
    for [null] and for the empty string. *)
Definition srv_disconnect (sid : string) (w : World) : World :=
  match find_hostRoomId sid (teachingSessions w) with
  | Some (String c r as hostRoomId) =>
      match jm_get hostRoomId (teachingSessions w) with
      | Some session =>
          set_teachingSessions
            (jm_set hostRoomId (ts_with_hostActive (Some false) session)
               (teachingSessions w)) w
      | None => w
      end
  | _ =>
      let m := teachingSessions w in
      let w := set_teachingSessions
                 (map (λ kv, (kv.1, (student_leaves sid kv.2).1)) m) w in
      emit_all (student_left_emits sid m) w
  end.

(** ** [WebRTCHandler] *)

(** Its [create-room] listener. *)
Definition rtc_create_room (sid roomId host : string) (w : World) : World :=
  let w := set_rtcRooms
             (jm_set roomId {| rr_hostId := sid; rr_hostName := host; rr_students := [] |}
                (rtcRooms w)) w in
  let w := socket_join sid roomId w in
  emit (SocketEmit sid) "room-created" (P_rtc_room_created roomId sid) w.

(** Its [join-room] listener expects [{ roomId, student }]; handed the string
    of the [server.js] form it finds no room and answers [room-not-found]. *)
Definition rtc_join_room_string (sid : string) (w : World) : World :=
  emit (SocketEmit sid) "room-not-found" P_none w.

Definition rr_with_students (ss : list (string * (Profile * Z))) (r : RtcRoom) : RtcRoom :=
  {| rr_hostId := rr_hostId r; rr_hostName := rr_hostName r; rr_students := ss |}.

(** One round of the loop of [handleUserDisconnect]: what becomes of the
    entry, and what is emitted. *)
Definition rtc_disconnect_entry (socketId : string) (kv : string * RtcRoom)
    : option (string * RtcRoom) * list (Target * string * Payload) :=
  let '(roomId, room) := kv in
  if decide (rr_hostId room = socketId) then
    (None, [(IoTo roomId, "host-disconnected", P_none)])
  else if jm_has socketId (rr_students room) then
    (Some (roomId, rr_with_students (jm_delete socketId (rr_students room)) room),
     [(IoTo roomId, "user-left-webrtc", P_user_left socketId);
      (IoTo (rr_hostId room), "student-left", P_string socketId)])
  else (Some kv, []).

Definition handleUserDisconnect (socketId : string) (w : World) : World :=
  let rounds := map (rtc_disconnect_entry socketId) (rtcRooms w) in
  let w := set_rtcRooms (omap fst rounds) w in
  emit_all (flat_map snd rounds) w.

Definition handleUserLeaveRoom (socketId roomId : string) (w : World) : World :=
  match jm_get roomId (rtcRooms w) with
  | None => w
  | Some room =>
      if decide (rr_hostId room = socketId) then
        let w := emit (IoTo roomId) "session-ended" P_none w in
        set_rtcRooms (jm_delete roomId (rtcRooms w)) w
      else if jm_has socketId (rr_students room) then
        let w := set_rtcRooms
                   (jm_set roomId
                      (rr_with_students (jm_delete socketId (rr_students room)) room)
                      (rtcRooms w)) w in
        let w := emit (IoTo roomId) "user-left-webrtc" (P_user_left socketId) w in
        emit (IoTo (rr_hostId room)) "student-left" (P_string socketId) w
      else w
  end.

(** ** The listeners of one event, in the order they were registered

    [new WebRTCHandler(io)] runs before [io.on('connection', ...)] of
    [server.js], so for every event the listener of the handler class runs
    first. *)

Definition on_create_room (sid roomId host : string) (now : Z) (w : World) : World :=
  srv_create_room sid roomId host now (rtc_create_room sid roomId host w).

Definition on_join_room (sid roomId : string) (w : World) : World :=
  srv_join_room sid roomId (rtc_join_room_string sid w).

(** A connection is lost: [disconnecting] is raised while the socket is still
    in its rooms, then the socket leaves them, then [disconnect] is raised. *)
Definition on_disconnect (sid : string) (w : World) : World :=
  srv_disconnect sid (handleUserDisconnect sid (leave_all sid (srv_disconnecting sid w))).

(** ** [server.js]: event chat *)

Definition event_toggle_chat (sid eventId : string) (enabled : bool) (w : World) : World :=
  match events w !! eventId with
  | Some event =>
      let w := set_events (<[eventId := ev_with_chatEnabled enabled event]> (events w)) w in
      emit (SocketTo sid eventId) "event-chat-toggled" (P_chat_toggled enabled) w
  | None => w
  end.

Definition event_send_message (eventId message : string) (w : World) : World :=
  match events w !! eventId with
  | Some event =>
      if chatEnabled (ev_settings event) then
        let w := set_events
                   (<[eventId := ev_with_messages (ev_messages event ++ [message]) event]>
                      (events w)) w in
        emit (IoTo eventId) "event-message" (P_message message) w
      else w
  | None => w
  end.

Definition event_end (sid eventId : string) (now : Z) (w : World) : World :=
  match events w !! eventId with
  | Some event =>
      let w := set_events (<[eventId := ev_end now event]> (events w)) w in
      emit (SocketTo sid eventId) "event-ended" P_none w
  | None => w
  end.

(** ** Polls: the shared store *)

(** [`POLL-${Date.now()}`] *)
Definition poll_id (now : Z) : string := "POLL-" +:+ pretty now.

(** [eventPolls.get(pollId)]: the reference and the object behind it. *)
Definition get_poll (w : World) (pollId : string) : option (nat * PollObj) :=
  match eventPolls w !! pollId with
  | Some r =>
      match pollHeap w !! r with
      | Some o => Some (r, o)
      | None => None
      end
  | None => None
  end.

Definition pl_with_status (s : PollStatus) (p : Poll) : Poll :=
  {| pl_id := pl_id p; pl_eventId := pl_eventId p; pl_question := pl_question p;
     pl_options := pl_options p; pl_duration := pl_duration p;
     pl_createdAt := pl_createdAt p; pl_expiresAt := pl_expiresAt p;
     pl_status := s; pl_totalVotes := pl_totalVotes p |}.

Definition sp_with_status (s : PollStatus) (p : SocketPoll) : SocketPoll :=
  {| sp_client := sp_client p; sp_id := sp_id p; sp_eventId := sp_eventId p;
     sp_status := s; sp_votes := sp_votes p |}.

Definition sp_with_votes (v : gmap string Z) (p : SocketPoll) : SocketPoll :=
  {| sp_client := sp_client p; sp_id := sp_id p; sp_eventId := sp_eventId p;
     sp_status := sp_status p; sp_votes := v |}.

(** [pollToClose.status = 'closed'] *)
Definition close_obj (o : PollObj) : PollObj :=
  match o with
  | RestPoll p => RestPoll (pl_with_status PollClosed p)
  | SockPoll p => SockPoll (sp_with_status PollClosed p)
  end.

(** A new poll object is stored under its id and pushed on [event.polls]. *)
Definition store_poll (pollId eventId : string) (event : Event) (o : PollObj)
    (w : World) : World :=
  let r := length (pollHeap w) in
  let w := set_pollHeap (pollHeap w ++ [o]) w in
  let w := set_eventPolls (<[pollId := r]> (eventPolls w)) w in
  set_events (<[eventId := ev_with_polls (ev_polls event ++ [r]) event]> (events w)) w.

(** The longest delay a timer of Node can have, in milliseconds. *)
Definition TIMEOUT_MAX : Z := 2147483647.

(** The delay a timer runs with: Node sets a delay below 1 or above
    [TIMEOUT_MAX] to 1. *)
Definition timer_delay (delay : Z) : Z :=
  if (1 <=? delay) && (delay <=? TIMEOUT_MAX) then delay else 1.

(** [setTimeout(callback, delay)], called at [now]. *)
Definition setTimeout (now delay : Z) (pollId : string)
    (notify : option (string * string)) (w : World) : World :=
  set_timers
    (timers w ++
       [{| tm_armedAt := now; tm_delay := timer_delay delay; tm_pollId := pollId;
           tm_notify := notify |}]) w.

(** The callback both creators hand to [setTimeout]; the socket handler's
    also emits [event-poll-ended]. *)
Definition timer_callback (tm : Timer) (w : World) : World :=
  match get_poll w (tm_pollId tm) with
  | Some (r, pollToClose) =>
      match obj_status pollToClose with
      | PollActive =>
          let w := set_pollHeap (<[r := close_obj pollToClose]> (pollHeap w)) w in
          match tm_notify tm with
          | Some (sid, eventId) =>
              emit (SocketTo sid eventId) "event-poll-ended" (P_string (tm_pollId tm)) w
          | None => w
          end
      | PollClosed => w
      end
  | None => w
  end.

(** The [n]-th pending timer fires, once. *)
Definition timer_fire (n : nat) (w : World) : World :=
  match timers w !! n with
  | Some tm => timer_callback tm (set_timers (delete n (timers w)) w)
  | None => w
  end.

(** ** [server.js]: polls over the socket *)

(** [event-start-poll]: the clock is read at [now] for the id, the timer is
    set at [armedAt]. *)
Definition event_start_poll (sid eventId : string) (poll : ClientPoll) (now armedAt : Z)
    (w : World) : World :=
  match events w !! eventId with
  | Some event =>
      let pollWithId :=
        {| sp_client := poll; sp_id := poll_id now; sp_eventId := eventId;
           sp_status := PollActive; sp_votes := ∅ |} in
      let w := store_poll (sp_id pollWithId) eventId event (SockPoll pollWithId) w in
      let w := emit (SocketTo sid eventId) "event-poll-started"
                 (P_poll_started pollWithId) w in
      setTimeout armedAt (js_or_num (cp_duration poll) 60 * 1000) (sp_id pollWithId)
        (Some (sid, eventId)) w
  | None => w
  end.

(** The names every plain object inherits from [Object.prototype]; what
    they hold is truthy. *)
Definition inherited_names : list string :=
  ["constructor"; "__defineGetter__"; "__defineSetter__"; "hasOwnProperty";
   "__lookupGetter__"; "__lookupSetter__"; "isPrototypeOf"; "propertyIsEnumerable";
   "toString"; "valueOf"; "__proto__"; "toLocaleString"].

(** [!poll.votes[userId]] on [votes: {}]: an entry holding option [0], or no
    entry under a name that is not inherited. *)
Definition no_vote_yet (userId : string) (votes : gmap string Z) : bool :=
  match votes !! userId with
  | Some optionId => optionId =? 0
  | None => negb (bool_decide (userId ∈ inherited_names))
  end.

(** [event-vote-poll]. On a poll of [createPoll] there is no [votes] object
    and reading [poll.votes[userId]] throws before anything is written. *)
Definition event_vote_poll (sid pollId : string) (optionId : Z) (userId : string)
    (w : World) : World :=
  match get_poll w pollId with
  | Some (r, SockPoll poll) =>
      match sp_status poll with
      | PollActive =>
          if no_vote_yet userId (sp_votes poll) then
            let poll' := sp_with_votes (<[userId := optionId]> (sp_votes poll)) poll in
            let w := set_pollHeap (<[r := SockPoll poll']> (pollHeap w)) w in
            match events w !! sp_eventId poll with
            | Some _ =>
                emit (SocketTo sid (sp_eventId poll)) "event-poll-vote"
                  (P_poll_vote pollId optionId userId) w
            | None => w
            end
          else w
      | PollClosed => w
      end
  | _ => w
  end.

(** ** The event controller *)

Inductive Response :=
| Ok_event (eventId : string)
| Ok_poll (poll : Poll)
| Err (status : Z) (message : string).

Definition createEvent (title description : option string) (hostName hostEmail : string)
    (rnd : string) (now : Z) (w : World) : World * Response :=
  let eventId := "EVENT-" +:+ rnd in
  let event :=
    {| ev_id := eventId; ev_title := js_or_str title "Untitled Event";
       ev_description := js_or_str description "";
       ev_host := {| eh_name := hostName; eh_email := hostEmail; eh_socketId := None |};
       ev_attendees := []; ev_messages := []; ev_documents := []; ev_polls := [];
       ev_settings := {| chatEnabled := true; handsEnabled := true;
                         documentsEnabled := true; pollsEnabled := true |};
       ev_status := EvCreated; ev_createdAt := now; ev_startedAt := None;
       ev_endedAt := None |} in
  (set_events (<[eventId := event]> (events w)) w, Ok_event eventId).

(** [options.map((option, index) => ({ id: index, text: option, votes: 0,
    voters: [] }))], from [index] on. *)
Fixpoint mk_options (index : nat) (options : list string) : list PollOption :=
  match options with
  | [] => []
  | option :: rest =>
      {| po_id := Z.of_nat index; po_text := option; po_votes := 0; po_voters := [] |}
        :: mk_options (S index) rest
  end.

(** The instants at which [createPoll] looks at the clock, in the order of
    the code: [Date.now()] for the id, [new Date()] for [createdAt],
    [Date.now()] for [expiresAt], and the call of [setTimeout]. *)
Record Instants := {
  ck_id : Z;
  ck_createdAt : Z;
  ck_expiresAt : Z;
  ck_timer : Z
}.

(** All four within one millisecond. *)
Definition at_once (t : Z) : Instants :=
  {| ck_id := t; ck_createdAt := t; ck_expiresAt := t; ck_timer := t |}.

(** [new Date(t)]: a time value beyond 8.64e15 ms either way gives an
    invalid date. *)
Definition new_Date (t : Z) : option Z :=
  if Z.abs t <=? 8640000000000000 then Some t else None.

(** [createPoll]. A body without [options] makes [options.map] throw, which
    the [catch] turns into status 500. *)
Definition createPoll (eventId question : string) (options : option (list string))
    (duration : option Z) (now : Instants) (w : World) : World * Response :=
  match events w !! eventId with
  | None => (w, Err 404 "Event not found")
  | Some event =>
      match options with
      | None => (w, Err 500 "Failed to create poll")
      | Some options =>
          let pollId := poll_id (ck_id now) in
          let poll :=
            {| pl_id := pollId; pl_eventId := eventId; pl_question := question;
               pl_options := mk_options 0 options;
               pl_duration := js_or_num duration 60;
               pl_createdAt := ck_createdAt now;
               pl_expiresAt := new_Date (ck_expiresAt now + js_or_num duration 60 * 1000);
               pl_status := PollActive; pl_totalVotes := 0 |} in
          let w := store_poll pollId eventId event (RestPoll poll) w in
          let w := setTimeout (ck_timer now) (js_or_num duration 60 * 1000) pollId None w in
          (w, Ok_poll poll)
      end
  end.

(** [poll.options.some(option => option.voters.includes(userId))] *)
Definition hasVoted (userId : string) (p : Poll) : bool :=
  existsb (λ option, bool_decide (userId ∈ po_voters option)) (pl_options p).

(** [option.votes++; option.voters.push(userId)] on the option that
    [find(opt => opt.id === optionId)] returns, the first with that id. *)
Fixpoint vote_option (optionId : Z) (userId : string) (opts : list PollOption)
    : list PollOption :=
  match opts with
  | [] => []
  | opt :: rest =>
      if po_id opt =? optionId then
        {| po_id := po_id opt; po_text := po_text opt; po_votes := po_votes opt + 1;
           po_voters := po_voters opt ++ [userId] |} :: rest
      else opt :: vote_option optionId userId rest
  end.

Definition add_vote (optionId : Z) (userId : string) (p : Poll) : Poll :=
  {| pl_id := pl_id p; pl_eventId := pl_eventId p; pl_question := pl_question p;
     pl_options := vote_option optionId userId (pl_options p);
     pl_duration := pl_duration p; pl_createdAt := pl_createdAt p;
     pl_expiresAt := pl_expiresAt p; pl_status := pl_status p;
     pl_totalVotes := pl_totalVotes p + 1 |}.

(** [votePoll]. On a poll of the socket handler [options] are the client's
    strings: with none of them [find] fails, otherwise [option.voters] is
    [undefined], [includes] throws and the [catch] answers 500. *)
Definition votePoll (pollId : string) (optionId : Z) (userId : string) (w : World)
    : World * Response :=
  match get_poll w pollId with
  | None => (w, Err 404 "Poll not found")
  | Some (r, o) =>
      match obj_status o with
      | PollClosed => (w, Err 400 "Poll is not active")
      | PollActive =>
          match o with
          | RestPoll poll =>
              if hasVoted userId poll then (w, Err 400 "User already voted")
              else
                match js_find (λ opt, po_id opt =? optionId) (pl_options poll) with
                | None => (w, Err 400 "Invalid option")
                | Some _ =>
                    let poll' := add_vote optionId userId poll in
                    (set_pollHeap (<[r := RestPoll poll']> (pollHeap w)) w,
                     Ok_poll poll')
                end
          | SockPoll poll =>
              match cp_options (sp_client poll) with
              | [] => (w, Err 400 "Invalid option")
              | _ :: _ => (w, Err 500 "Failed to vote")
              end
          end
      end
  end.

(** ** The process as a transition system

    One inbound event, HTTP request or timer runs to completion before the
    next. *)

Inductive Action :=
| Connect (sid : string)
| Disconnect (sid : string)
| CreateRoom (sid roomId host : string) (now : Z)
| JoinRoom (sid roomId : string)
| JoinRoomOld (sid : string) (data : JoinData) (now : Z)
| ApproveJoin (requestId roomId : string)
| RejectJoin (requestId roomId : string)
| ConfirmJoin (sid roomId : string) (student : Profile)
| LeaveRoom (sid roomId : string)
| EventToggleChat (sid eventId : string) (enabled : bool)
| EventSendMessage (eventId message : string)
| EventEnd (sid eventId : string) (now : Z)
| EventStartPoll (sid eventId : string) (poll : ClientPoll) (now armedAt : Z)
| EventVotePoll (sid pollId : string) (optionId : Z) (userId : string)
| HttpCreateEvent (title description : option string) (hostName hostEmail rnd : string)
    (now : Z)
| HttpCreatePoll (eventId question : string) (options : option (list string))
    (duration : option Z) (now : Instants)
| HttpVotePoll (pollId : string) (optionId : Z) (userId : string)
| TimerFire (n : nat).

Definition step (a : Action) (w : World) : World :=
  match a with
  | Connect sid => connect sid w
  | Disconnect sid => on_disconnect sid w
  | CreateRoom sid roomId host now => on_create_room sid roomId host now w
  | JoinRoom sid roomId => on_join_room sid roomId w
  | JoinRoomOld sid data now => join_room_old sid data now w
  | ApproveJoin requestId roomId => approve_join requestId roomId w
  | RejectJoin requestId roomId => reject_join requestId roomId w
  | ConfirmJoin sid roomId student => confirm_join sid roomId student w
  | LeaveRoom sid roomId => handleUserLeaveRoom sid roomId w
  | EventToggleChat sid eventId enabled => event_toggle_chat sid eventId enabled w
  | EventSendMessage eventId message => event_send_message eventId message w
  | EventEnd sid eventId now => event_end sid eventId now w
  | EventStartPoll sid eventId poll now armedAt =>
      event_start_poll sid eventId poll now armedAt w
  | EventVotePoll sid pollId optionId userId =>
      event_vote_poll sid pollId optionId userId w
  | HttpCreateEvent title description hostName hostEmail rnd now =>
      (createEvent title description hostName hostEmail rnd now w).1
  | HttpCreatePoll eventId question options duration now =>
      (createPoll eventId question options duration now w).1
  | HttpVotePoll pollId optionId userId => (votePoll pollId optionId userId w).1
  | TimerFire n => timer_fire n w
  end.

(** The actions of a trace, applied from left to right. *)
Definition run (tr : list Action) (w : World) : World :=
  fold_left (λ w a, step a w) tr w.

Definition reachable (w : World) : Prop := ∃ tr, w = run tr init.


(** ** Sample worlds *)

Definition ann : Profile :=
  {| pf_id := Some "u-ann"; pf_name := "Ann"; pf_email := Some "ann@example.org";
     pf_avatar := None |}.

Definition bob : Profile :=
  {| pf_id := Some "u-bob"; pf_name := "Bob"; pf_email := None; pf_avatar := Some "B" |}.

(** A teaching room [MATH1] hosted by socket [t], with student Ann on
    socket [s]. *)
Definition w_class : World :=
  run [Connect "t"; CreateRoom "t" "MATH1" "teacher" 1; Connect "s";
       JoinRoomOld "s" (JoinObject "MATH1" ann) 2; ApproveJoin "s" "MATH1";
       ConfirmJoin "s" "MATH1" ann] init.

(** A gaming room [GAME-1] hosted by socket [h], with participant Bob on
    socket [b]. *)
Definition w_game : World :=
  run [Connect "h"; CreateRoom "h" "GAME-1" "host" 1; Connect "b";
       JoinRoomOld "b" (JoinObject "GAME-1" bob) 2] init.

(** An event [EVENT-E1] that was created but not started, and the same event
    once its host has opened the room. *)
Definition w_event_created : World :=
  run [Connect "h"; Connect "a";
       HttpCreateEvent (Some "Launch") None "Hana" "hana@example.org" "E1" 1] init.

Definition w_event : World :=
  run [CreateRoom "h" "EVENT-E1" "Hana" 2] w_event_created.

(** Clock reads of a [createPoll] that crosses a millisecond on its way. *)
Definition reads1000 : Instants :=
  {| ck_id := 1000; ck_createdAt := 1000; ck_expiresAt := 1001; ck_timer := 1001 |}.

(** The event with a poll of [createPoll] on which [u1] voted for option 1. *)
Definition w_poll : World :=
  run [HttpCreatePoll "EVENT-E1" "Which day?" (Some ["Mon"; "Tue"]) (Some 30) reads1000;
       HttpVotePoll "POLL-1000" 1 "u1"] w_event.

(** ** Vocabulary of the properties *)

(** What a handler added to the outbox of [w]. *)
Definition emitted (w w' : World) : list Sent := drop (length (outbox w)) (outbox w').

(** The notifications named [name] and addressed to [t] that reached socket
    [m]. *)
Definition received (m : string) (t : Target) (name : string) (l : list Sent) : nat :=
  length
    (List.filter
       (λ s, bool_decide (target s = t) && bool_decide (ev s = name)
             && bool_decide (m ∈ rcpts s)) l).

(** An emit as it is recorded when the channels are [socks]. *)
Definition mk_sent (socks : gmap string (list string)) (e : Target * string * Payload)
    : Sent :=
  {| target := e.1.1; ev := e.1.2; payload := e.2; rcpts := resolve socks e.1.1 |}.

(** How many participants carry a display name. *)
Definition count_named (name : string) (ps : list Participant) : nat :=
  length (List.filter (λ q, bool_decide (pt_name q = name)) ps).

(** The room [GAME-1] of [w_game], with Bob as its only participant. *)
Definition game1 : GamingRoom :=
  {| gr_host := "host"; gr_hostSocketId := "h";
     gr_participants := [new_participant "b" bob 2];
     gr_messages := []; gr_createdAt := 1; gr_type := "gaming" |}.


(** The session [MATH1] of [w_class]. *)
Definition math1 : Session :=
  ts_with_students [{| st_profile := ann; st_socketId := "s" |}]
    (new_session "teacher" "t" 1).

(** ** Vocabulary of the poll properties *)

(** [sum(option.votes for option in poll.options)] *)
Definition sum_votes (opts : list PollOption) : Z :=
  fold_right (λ o acc, po_votes o + acc) 0 opts.

(** The voter lists of all options, one after the other. *)
Definition all_voters (opts : list PollOption) : list string :=
  flat_map po_voters opts.

(** The counts add up to [totalVotes], and no subject id occurs twice in the
    voter lists taken together. *)
Definition poll_ok (p : Poll) : Prop :=
  sum_votes (pl_options p) = pl_totalVotes p ∧ NoDup (all_voters (pl_options p)).

(** A subject id is in the voter list of at most one option. *)
Definition one_option_per_voter (p : Poll) : Prop :=
  ∀ i j oi oj u,
    pl_options p !! i = Some oi → pl_options p !! j = Some oj →
    u ∈ po_voters oi → u ∈ po_voters oj → i = j.

Definition obj_ok (o : PollObj) : Prop :=
  match o with
  | RestPoll p => poll_ok p
  | SockPoll _ => True
  end.

(** The ways a handler rewrites a poll object that is already stored. *)
Inductive obj_change (o : PollObj) : PollObj → Prop :=
| change_close : obj_change o (close_obj o)
| change_vote p optionId userId :
    o = RestPoll p → hasVoted userId p = false →
    is_Some (js_find (λ opt, po_id opt =? optionId) (pl_options p)) →
    obj_change o (RestPoll (add_vote optionId userId p))
| change_socket_vote p optionId userId :
    o = SockPoll p →
    obj_change o (SockPoll (sp_with_votes (<[userId := optionId]> (sp_votes p)) p)).

(** What one step does to the poll heap: nothing, one new active object at
    the end, or one rewrite of an object that was active. *)
Inductive heap_step (h : list PollObj) : list PollObj → Prop :=
| heap_same : heap_step h h
| heap_new o : obj_status o = PollActive →
    (∀ p, o = RestPoll p →
          pl_totalVotes p = 0
          ∧ Forall (λ opt, po_votes opt = 0 ∧ po_voters opt = []) (pl_options p)) →
    heap_step h (h ++ [o])
| heap_rewrite r o o' :
    h !! r = Some o → obj_status o = PollActive → obj_change o o' →
    heap_step h (<[r := o']> h).

(** The poll of [w_poll], after the vote of [u1]. *)
Definition poll1000 : Poll :=
  {| pl_id := "POLL-1000"; pl_eventId := "EVENT-E1"; pl_question := "Which day?";
     pl_options :=
       [{| po_id := 0; po_text := "Mon"; po_votes := 0; po_voters := [] |};
        {| po_id := 1; po_text := "Tue"; po_votes := 1; po_voters := ["u1"] |}];
     pl_duration := 30; pl_createdAt := 1000; pl_expiresAt := Some 31001;
     pl_status := PollActive; pl_totalVotes := 1 |}.

(** The signaling room the handler class keeps for [GAME-1] in [w_game]. *)
Definition game1_signaling : RtcRoom :=
  {| rr_hostId := "h"; rr_hostName := "host"; rr_students := [] |}.

(** ** Well-formed stores *)

(** No two students of a session share a persistent id. *)
Definition session_ok (s : Session) : Prop := NoDup (map st_id (ts_students s)).

(** No two participants of a gaming room share a display name. *)
Definition room_ok (r : GamingRoom) : Prop := NoDup (map pt_name (gr_participants r)).

Definition stores_ok (w : World) : Prop :=
  Forall (λ kv, session_ok kv.2) (teachingSessions w)
  ∧ map_Forall (λ _ r, room_ok r) (gamingRooms w)
  ∧ jm_wf (teachingSessions w)
  ∧ jm_wf (rtcRooms w).

(** * More of the program *)

(** ** [server.js]: chat, notes, feedback and documents *)

Definition gr_with_messages (l : list string) (r : GamingRoom) : GamingRoom :=
  {| gr_host := gr_host r; gr_hostSocketId := gr_hostSocketId r;
     gr_participants := gr_participants r; gr_messages := l;
     gr_createdAt := gr_createdAt r; gr_type := gr_type r |}.

Definition ts_with_messages (l : list string) (s : Session) : Session :=
  {| ts_host := ts_host s; ts_hostSocketId := ts_hostSocketId s;
     ts_students := ts_students s; ts_messages := l; ts_notes := ts_notes s;
     ts_attendance := ts_attendance s; ts_feedback := ts_feedback s;
     ts_createdAt := ts_createdAt s; ts_type := ts_type s;
     ts_hostActive := ts_hostActive s |}.

Definition ts_with_notes (l : list string) (s : Session) : Session :=
  {| ts_host := ts_host s; ts_hostSocketId := ts_hostSocketId s;
     ts_students := ts_students s; ts_messages := ts_messages s; ts_notes := l;
     ts_attendance := ts_attendance s; ts_feedback := ts_feedback s;
     ts_createdAt := ts_createdAt s; ts_type := ts_type s;
     ts_hostActive := ts_hostActive s |}.

Definition ts_with_feedback (l : list string) (s : Session) : Session :=
  {| ts_host := ts_host s; ts_hostSocketId := ts_hostSocketId s;
     ts_students := ts_students s; ts_messages := ts_messages s;
     ts_notes := ts_notes s; ts_attendance := ts_attendance s; ts_feedback := l;
     ts_createdAt := ts_createdAt s; ts_type := ts_type s;
     ts_hostActive := ts_hostActive s |}.

Definition ev_with_documents (l : list string) (e : Event) : Event :=
  {| ev_id := ev_id e; ev_title := ev_title e; ev_description := ev_description e;
     ev_host := ev_host e; ev_attendees := ev_attendees e;
     ev_messages := ev_messages e; ev_documents := l; ev_polls := ev_polls e;
     ev_settings := ev_settings e; ev_status := ev_status e;
     ev_createdAt := ev_createdAt e; ev_startedAt := ev_startedAt e;
     ev_endedAt := ev_endedAt e |}.

(** [socket.on('send-message', ...)]: the message goes to the log of the
    gaming room, else of the teaching session, and to the channel in every
    case. *)
Definition send_message (roomId message : string) (w : World) : World :=
  let w :=
    match gamingRooms w !! roomId with
    | Some gamingRoom =>
        set_gamingRooms
          (<[roomId := gr_with_messages (gr_messages gamingRoom ++ [message]) gamingRoom]>
             (gamingRooms w)) w
    | None =>
        match jm_get roomId (teachingSessions w) with
        | Some session =>
            set_teachingSessions
              (jm_set roomId
                 (ts_with_messages (ts_messages session ++ [message]) session)
                 (teachingSessions w)) w
        | None => w
        end
    end in
  emit (IoTo roomId) "message" (P_message message) w.

(** [socket.on('upload-note', ...)] *)
Definition upload_note (sid roomId note : string) (w : World) : World :=
  match jm_get roomId (teachingSessions w) with
  | Some session =>
      let w := set_teachingSessions
                 (jm_set roomId (ts_with_notes (ts_notes session ++ [note]) session)
                    (teachingSessions w)) w in
      emit (SocketTo sid roomId) "notes-shared" (P_string note) w
  | None => w
  end.

(** [socket.on('submit-feedback', ...)] *)
Definition submit_feedback (roomId feedback : string) (w : World) : World :=
  match jm_get roomId (teachingSessions w) with
  | Some session =>
      set_teachingSessions
        (jm_set roomId (ts_with_feedback (ts_feedback session ++ [feedback]) session)
           (teachingSessions w)) w
  | None => w
  end.

(** [GET /api/session/:roomId/feedback] *)
Definition get_feedback (roomId : string) (w : World) : list string :=
  match jm_get roomId (teachingSessions w) with
  | Some session => ts_feedback session
  | None => []
  end.

(** [socket.on('end-session', ...)] and [socket.on('end-meeting', ...)]: both
    only tell the others. *)
Definition end_session (sid roomId : string) (w : World) : World :=
  emit (SocketTo sid roomId) "session-ended" P_none w.

Definition end_meeting (sid roomId : string) (w : World) : World :=
  emit (SocketTo sid roomId) "host-ended-meeting" P_none w.

(** [socket.on('event-share-document', ...)] *)
Definition event_share_document (sid eventId document : string) (w : World) : World :=
  match events w !! eventId with
  | Some event =>
      let w := set_events
                 (<[eventId := ev_with_documents (ev_documents event ++ [document]) event]>
                    (events w)) w in
      emit (SocketTo sid eventId) "event-document-shared" (P_string document) w
  | None => w
  end.

(** ** The event controller: statistics *)

#[global] Instance EventStatus_eq_dec : EqDecision EventStatus.
Proof. solve_decision. Defined.

Record Stats := {
  totalEvents : nat;
  activeEvents : nat;
  totalAttendees : nat;
  totalPolls : nat
}.

(** The [stats] object of [getEventStats]. *)
Definition getEventStats (w : World) : Stats :=
  {| totalEvents := size (events w);
     activeEvents :=
       size (filter (λ kv : string * Event, ev_status kv.2 = EvActive) (events w));
     totalAttendees :=
       map_fold (λ _ e sum, (sum + length (ev_attendees e))%nat) 0%nat (events w);
     totalPolls := size (eventPolls w) |}.

(** ** [GET /api/rooms]: the teaching rooms *)

Record TeachingRoomInfo := {
  ri_roomId : string;
  ri_host : string;
  ri_studentCount : nat;
  ri_createdAt : Z;
  ri_hostActive : bool;
  ri_type : string
}.

(** The [teachingRooms] array of the answer; [hostActive] is
    [session.hostActive !== false]. *)
Definition teachingRooms_view (w : World) : list TeachingRoomInfo :=
  map (λ kv : string * Session,
         {| ri_roomId := kv.1; ri_host := ts_host kv.2;
            ri_studentCount := length (ts_students kv.2);
            ri_createdAt := ts_createdAt kv.2;
            ri_hostActive := negb (bool_decide (ts_hostActive kv.2 = Some false));
            ri_type := "teaching" |})
      (teachingSessions w).

(** ** All modelled inputs of the process *)

Inductive Request :=
| Modelled (a : Action)
| SendMessage (roomId message : string)
| UploadNote (sid roomId note : string)
| SubmitFeedback (roomId feedback : string)
| EndSession (sid roomId : string)
| EndMeeting (sid roomId : string)
| EventShareDocument (sid eventId document : string).

Definition handle (req : Request) (w : World) : World :=
  match req with
  | Modelled a => step a w
  | SendMessage roomId message => send_message roomId message w
  | UploadNote sid roomId note => upload_note sid roomId note w
  | SubmitFeedback roomId feedback => submit_feedback roomId feedback w
  | EndSession sid roomId => end_session sid roomId w
  | EndMeeting sid roomId => end_meeting sid roomId w
  | EventShareDocument sid eventId document =>
      event_share_document sid eventId document w
  end.

(** The requests of a list, served from left to right. *)
Definition serve (reqs : list Request) (w : World) : World :=
  fold_left (λ w req, handle req w) reqs w.

(** ** Vocabulary of the further poll properties *)

(** The rewrites of a stored poll object, with the test each handler makes
    first. *)
Inductive obj_rewrite (o : PollObj) : PollObj → Prop :=
| rw_close : obj_rewrite o (close_obj o)
| rw_vote p optionId userId :
    o = RestPoll p → hasVoted userId p = false →
    is_Some (js_find (λ opt, po_id opt =? optionId) (pl_options p)) →
    obj_rewrite o (RestPoll (add_vote optionId userId p))
| rw_socket_vote p optionId userId :
    o = SockPoll p → no_vote_yet userId (sp_votes p) = true →
    obj_rewrite o (SockPoll (sp_with_votes (<[userId := optionId]> (sp_votes p)) p)).

(** What one request does to the poll store: nothing; one new active object
    put under an id; or one rewrite of an active object that some id
    refers to. *)
Inductive poll_step (w w' : World) : Prop :=
| ps_same :
    pollHeap w' = pollHeap w → eventPolls w' = eventPolls w → timers w' = timers w →
    poll_step w w'
| ps_fire n :
    pollHeap w' = pollHeap w → eventPolls w' = eventPolls w →
    timers w' = delete n (timers w) → poll_step w w'
| ps_new id o tm :
    pollHeap w' = pollHeap w ++ [o] →
    eventPolls w' = <[id := length (pollHeap w)]> (eventPolls w) →
    timers w' = timers w ++ [tm] → tm_pollId tm = id →
    obj_status o = PollActive →
    (∀ p, o = RestPoll p →
          pl_totalVotes p = 0
          ∧ ∃ options, pl_options p = mk_options 0 options) →
    (∀ p, o = SockPoll p → sp_votes p = ∅) →
    poll_step w w'
| ps_rewrite id r o o' :
    eventPolls w !! id = Some r → pollHeap w !! r = Some o →
    obj_status o = PollActive → obj_rewrite o o' →
    pollHeap w' = <[r := o']> (pollHeap w) → eventPolls w' = eventPolls w →
    (timers w' = timers w ∨ ∃ n, timers w' = delete n (timers w)) →
    poll_step w w'.

(** Every poll id refers to an object of the heap. *)
Definition refs_bounded (w : World) : Prop :=
  ∀ id r, eventPolls w !! id = Some r → (r < length (pollHeap w))%nat.

(** Some poll id refers to object [r]. *)
Definition referenced (w : World) (r : nat) : Prop :=
  ∃ id, eventPolls w !! id = Some r.

(** The option ids of a poll are the indices [0 .. n-1]. *)
Definition options_indexed (p : Poll) : Prop :=
  map po_id (pl_options p) = map Z.of_nat (seq 0 (length (pl_options p))).

(** Every pending timer carries a poll id that is stored. *)
Definition timers_known (w : World) : Prop :=
  ∀ n tm, timers w !! n = Some tm → is_Some (eventPolls w !! tm_pollId tm).

(** Two polls made in the same millisecond, and the worlds after the first
    and after the second. *)
Definition twin1 : Poll :=
  {| pl_id := "POLL-7000"; pl_eventId := "EVENT-E1"; pl_question := "First?";
     pl_options := mk_options 0 ["a"; "b"]; pl_duration := 10; pl_createdAt := 7000;
     pl_expiresAt := Some 17000; pl_status := PollActive; pl_totalVotes := 0 |}.

Definition twin2 : Poll :=
  {| pl_id := "POLL-7000"; pl_eventId := "EVENT-E1"; pl_question := "Second?";
     pl_options := mk_options 0 ["c"]; pl_duration := 20; pl_createdAt := 7000;
     pl_expiresAt := Some 27000; pl_status := PollActive; pl_totalVotes := 0 |}.

Definition w_twin1 : World :=
  (createPoll "EVENT-E1" "First?" (Some ["a"; "b"]) (Some 10) (at_once 7000) w_event).1.

Definition w_twins : World :=
  (createPoll "EVENT-E1" "Second?" (Some ["c"]) (Some 20) (at_once 7000) w_twin1).1.

(** The requests that lead to [w_poll]. *)
Definition reqs_poll : list Request :=
  map Modelled
    [Connect "h"; Connect "a";
     HttpCreateEvent (Some "Launch") None "Hana" "hana@example.org" "E1" 1;
     CreateRoom "h" "EVENT-E1" "Hana" 2;
     HttpCreatePoll "EVENT-E1" "Which day?" (Some ["Mon"; "Tue"]) (Some 30) reads1000;
     HttpVotePoll "POLL-1000" 1 "u1"].

(** The event with a poll started over the socket, on which [u1] chose option
    2 and [u2] option 0. *)
Definition reqs_socket_poll : list Request :=
  map Modelled
    [Connect "h"; Connect "a";
     HttpCreateEvent (Some "Launch") None "Hana" "hana@example.org" "E1" 1;
     CreateRoom "h" "EVENT-E1" "Hana" 2;
     EventStartPoll "h" "EVENT-E1"
       {| cp_question := "Which day?"; cp_options := ["Mon"; "Tue"; "Wed"];
          cp_duration := None |} 3000 3001;
     EventVotePoll "a" "POLL-3000" 2 "u1";
     EventVotePoll "a" "POLL-3000" 0 "u2"].

Definition socket_poll3000 : SocketPoll :=
  {| sp_client := {| cp_question := "Which day?"; cp_options := ["Mon"; "Tue"; "Wed"];
                     cp_duration := None |};
     sp_id := "POLL-3000"; sp_eventId := "EVENT-E1"; sp_status := PollActive;
     sp_votes := <["u2" := 0]> (<["u1" := 2]> ∅) |}.

(** [option.votes++; option.voters.push(userId)] *)
Definition bump_option (userId : string) (opt : PollOption) : PollOption :=
  {| po_id := po_id opt; po_text := po_text opt; po_votes := po_votes opt + 1;
     po_voters := po_voters opt ++ [userId] |}.

Definition obj_indexed (o : PollObj) : Prop :=
  match o with
  | RestPoll p => options_indexed p
  | SockPoll _ => True
  end.

(** What a request may do to a stored session short of replacing it: the
    host, its socket, its type and the creation time stay; the logs only
    grow; [hostActive] stays or becomes [false]. *)
Definition session_kept (s s' : Session) : Prop :=
  ts_host s' = ts_host s
  ∧ ts_hostSocketId s' = ts_hostSocketId s
  ∧ ts_createdAt s' = ts_createdAt s
  ∧ ts_type s' = ts_type s
  ∧ ts_messages s `prefix_of` ts_messages s'
  ∧ ts_notes s `prefix_of` ts_notes s'
  ∧ ts_feedback s `prefix_of` ts_feedback s'
  ∧ (ts_hostActive s' = ts_hostActive s ∨ ts_hostActive s' = Some false).

(** The request is a [create-room] for room [k]. *)
Definition creates_room (k : string) (req : Request) : Prop :=
  ∃ sid host now, req = Modelled (CreateRoom sid k host now).

(** Each room store holds ids of its own kind only: [GAME-] ids in
    [gamingRooms], [EVENT-] ids in [events], the others in
    [teachingSessions]. *)
Definition ids_sorted (w : World) : Prop :=
  (∀ k, is_Some (gamingRooms w !! k) → startsWith "GAME-" k = true)
  ∧ (∀ k, is_Some (events w !! k) → startsWith "EVENT-" k = true)
  ∧ (∀ k, is_Some (jm_get k (teachingSessions w)) →
          startsWith "GAME-" k = false ∧ startsWith "EVENT-" k = false).




(** What a request may do to a stored event short of replacing it: id,
    title, description, the host's name and address and the creation time
    stay; attendees, messages, documents and polls are only added, at the
    end; the status does not return to [created], and a host socket and a
    start time, once set, stay set. *)
Definition event_kept (e e' : Event) : Prop :=
  ev_id e' = ev_id e
  ∧ ev_title e' = ev_title e
  ∧ ev_description e' = ev_description e
  ∧ eh_name (ev_host e') = eh_name (ev_host e)
  ∧ eh_email (ev_host e') = eh_email (ev_host e)
  ∧ ev_createdAt e' = ev_createdAt e
  ∧ map at_id (ev_attendees e) `prefix_of` map at_id (ev_attendees e')
  ∧ ev_messages e `prefix_of` ev_messages e'
  ∧ ev_documents e `prefix_of` ev_documents e'
  ∧ ev_polls e `prefix_of` ev_polls e'
  ∧ (ev_status e ≠ EvCreated → ev_status e' ≠ EvCreated)
  ∧ (is_Some (eh_socketId (ev_host e)) → is_Some (eh_socketId (ev_host e')))
  ∧ (is_Some (ev_startedAt e) → is_Some (ev_startedAt e')).

(** The request is a [createEvent] that draws the id [k]. *)
Definition creates_event (k : string) (req : Request) : Prop :=
  ∃ title description hostName hostEmail rnd now,
    req = Modelled (HttpCreateEvent title description hostName hostEmail rnd now)
    ∧ k = "EVENT-" +:+ rnd.

(** ** Signaling rooms and connections *)




(** * The accounts: [controllers/authController.js] over [models/InMemoryUser.js] *)

(** What the module takes from outside: [bcrypt.hash] with the salt it
    draws, [bcrypt.compare], [String.prototype.toLowerCase], [jwt.sign] for
    an id at an instant, which answers with the token or throws, and
    [parseInt] of an integer id: the id itself as long as its decimal
    notation has no exponent, the digits before the exponent or the point
    otherwise. *)
Class AuthEnv := {
  bcrypt_hash : string → string → string;
  bcrypt_compare : string → string → bool;
  toLowerCase : string → string;
  jwt_sign : Z → Z → string + string;
  parseInt : Z → Z
}.

Record User := {
  us_id : Z;
  us_name : string;
  us_email : string;
  us_password : string;
  us_role : string;
  us_googleId : option string;
  us_createdAt : Z
}.

(** [let users = []; let userIdCounter = 1;] *)
Record UserStore := {
  users : list User;
  userIdCounter : Z
}.

Definition no_users : UserStore := {| users := []; userIdCounter := 1 |}.

(** The body of a request that passed validation. *)
Record UserData := {
  ud_name : string;
  ud_email : string;
  ud_password : string
}.

(** [User.create], from the moment [bcrypt.hash] has answered: the
    constructor takes the next id, and the user is pushed. *)
Definition User_create `{AuthEnv} (userData : UserData) (salt : string) (now : Z)
    (st : UserStore) : UserStore * User :=
  let hashedPassword := bcrypt_hash salt (ud_password userData) in
  let user :=
    {| us_id := userIdCounter st; us_name := ud_name userData;
       us_email := toLowerCase (ud_email userData); us_password := hashedPassword;
       us_role := "user"; us_googleId := None; us_createdAt := now |} in
  ({| users := users st ++ [user]; userIdCounter := userIdCounter st + 1 |}, user).

(** [User.findOne({ email })]: [if (query.email)] fails for the empty
    string, and then no user matches. *)
Definition User_findOne `{AuthEnv} (email : string) (st : UserStore) : option User :=
  match email with
  | "" => None
  | _ => js_find (λ user, bool_decide (us_email user = toLowerCase email)) (users st)
  end.

(** [User.findById(id)]: [user.id === parseInt(id)] *)
Definition User_findById `{AuthEnv} (id : Z) (st : UserStore) : option User :=
  js_find (λ user, us_id user =? parseInt id) (users st).

Inductive AuthResponse :=
| Account (status : Z) (id : Z) (name email token : string)
| Message (status : Z) (message : string).

(** [generateToken(id)], then the answer with the account. *)
Definition answer_account `{AuthEnv} (status : Z) (user : User) (iat : Z) : AuthResponse :=
  match jwt_sign (us_id user) iat with
  | inl token => Account status (us_id user) (us_name user) (us_email user) token
  | inr message => Message 500 ("Server error: " +:+ message)
  end.

(** [register] up to [await User.create(...)]: the validation errors and the
    test for an existing user. [None]: the handler goes on. *)
Definition register_check `{AuthEnv} (errors : list string) (body : UserData)
    (st : UserStore) : option AuthResponse :=
  match errors with
  | msg :: _ => Some (Message 400 msg)
  | [] =>
      match User_findOne (ud_email body) st with
      | Some _ => Some (Message 400 "User already exists")
      | None => None
      end
  end.

(** [register] from the moment the password is hashed, on the store as it
    is by then. *)
Definition register_create `{AuthEnv} (body : UserData) (salt : string) (now iat : Z)
    (st : UserStore) : UserStore * AuthResponse :=
  let '(st', user) := User_create body salt now st in
  (st', answer_account 201 user iat).

(** [register] when nothing else is served while the password is hashed. *)
Definition register `{AuthEnv} (errors : list string) (body : UserData) (salt : string)
    (now iat : Z) (st : UserStore) : UserStore * AuthResponse :=
  match register_check errors body st with
  | Some response => (st, response)
  | None => register_create body salt now iat st
  end.

(** [login]; the user it answers for is the one [findOne] returned. *)
Definition login `{AuthEnv} (errors : list string) (email password : string) (iat : Z)
    (st : UserStore) : AuthResponse :=
  match errors with
  | msg :: _ => Message 400 msg
  | [] =>
      match User_findOne email st with
      | Some user =>
          if bcrypt_compare password (us_password user)
          then answer_account 200 user iat
          else Message 401 "Invalid credentials"
      | None => Message 401 "Invalid credentials"
      end
  end.

(** The users that further registrations create, whatever their order. *)
Definition created `{AuthEnv} (l : list (UserData * string * Z)) (st : UserStore)
    : UserStore :=
  fold_left (λ st r, (User_create r.1.1 r.1.2 r.2 st).1) l st.

(** An environment to compute with: letters [A] to [Z] are lowered, the
    hash is the password in a wrapper, every token is signed, and
    [parseInt] gives an id below [10^21] back and takes the first digit of
    a larger one. *)
Definition lower_ascii (c : ascii) : ascii :=
  let n := nat_of_ascii c in
  if ((65 <=? n) && (n <=? 90))%nat then ascii_of_nat (n + 32) else c.

Fixpoint lower (s : string) : string :=
  match s with
  | EmptyString => EmptyString
  | String c s' => String (lower_ascii c) (lower s')
  end.

Fixpoint first_digit (fuel : nat) (n : Z) : Z :=
  match fuel with
  | O => n
  | S fuel' => if n <? 10 then n else first_digit fuel' (n / 10)
  end.

Definition plain_parseInt (n : Z) : Z :=
  if Z.abs n <? 10 ^ 21 then n
  else Z.sgn n * first_digit (Z.to_nat (Z.log2 (Z.abs n))) (Z.abs n).

Definition plain_env : AuthEnv :=
  {| bcrypt_hash := λ salt password, "h(" +:+ password +:+ ")";
     bcrypt_compare := λ password hashed, bool_decide (hashed = "h(" +:+ password +:+ ")");
     toLowerCase := lower;
     jwt_sign := λ id iat, inl ("jwt-" +:+ pretty id);
     parseInt := plain_parseInt |}.

(** ** The rooms of a socket *)

(** [socket.rooms] of every connected socket starts with the socket's own id
    and holds no room twice. *)
Definition rooms_own_first (socks : gmap string (list string)) : Prop :=
  ∀ sid rooms, socks !! sid = Some rooms →
               ∃ joined, rooms = sid :: joined ∧ NoDup rooms.

Definition own_room_first (w : World) : Prop := rooms_own_first (sockets w).

(** The event [EVENT-E1] with attendee Ann on socket [a], its chat switched
    off by the host. *)
Definition reqs_muted_event : list Request :=
  [Modelled (Connect "h"); Modelled (Connect "a");
   Modelled (HttpCreateEvent (Some "Launch") None "Hana" "hana@example.org" "E1" 1);
   Modelled (CreateRoom "h" "EVENT-E1" "Hana" 2);
   Modelled (JoinRoomOld "a" (JoinObject "EVENT-E1" ann) 3);
   Modelled (EventToggleChat "h" "EVENT-E1" false)].
(** * Properties *)

(** ** Association-list maps *)

Section JsMapFacts.

Context {V : Type}.

Implicit Types (m : list (string * V)) (k : string) (v : V).

Lemma jm_get_set_eq k v m : jm_get k (jm_set k v m) = Some v.
Proof.
  induction m as [|[k' v'] m IH]; simpl.
  - by rewrite decide_True.
  - destruct (decide (k = k')) as [->|Hne]; simpl.
    + by rewrite decide_True.
    + by rewrite decide_False.
Qed.

Lemma jm_get_set_ne k k' v m : k ≠ k' → jm_get k' (jm_set k v m) = jm_get k' m.
Proof.
  intros Hne. induction m as [|[k0 v0] m IH]; simpl.
  - by rewrite decide_False.
  - destruct (decide (k = k0)) as [->|Hne0]; simpl.
    + by rewrite !decide_False.
    + by rewrite IH.
Qed.

Lemma jm_keys_set_present k v m :
  is_Some (jm_get k m) → jm_keys (jm_set k v m) = jm_keys m.
Proof.
  unfold jm_keys. induction m as [|[k0 v0] m IH]; simpl; intros [x Hx]; [done|].
  destruct (decide (k = k0)) as [->|Hne]; simpl; [done|].
  f_equal. apply IH. eauto.
Qed.

Lemma jm_get_In k v m : jm_get k m = Some v → In (k, v) m.
Proof.
  induction m as [|[k0 v0] m IH]; simpl; [done|].
  destruct (decide (k = k0)) as [->|Hne]; intros H.
  - left. congruence.
  - right. auto.
Qed.

Lemma jm_get_None k m : jm_get k m = None ↔ ¬ In k (jm_keys m).
Proof.
  unfold jm_keys. induction m as [|[k0 v0] m IH]; simpl; [tauto|].
  destruct (decide (k = k0)) as [->|Hne].
  - split; [done|]. intros H. destruct H. by left.
  - rewrite IH. split; [intros H [?|?]; [congruence|tauto]|tauto].
Qed.

End JsMapFacts.

(** ** What the emits add to the outbox *)

Lemma outbox_emit t name p w :
  outbox (emit t name p w) =
  outbox w ++ [{| target := t; ev := name; payload := p; rcpts := resolve (sockets w) t |}].
Proof. reflexivity. Qed.

Lemma outbox_emit_all l w :
  outbox (emit_all l w) =
  outbox w ++
    map (λ e, {| target := e.1.1; ev := e.1.2; payload := e.2;
                 rcpts := resolve (sockets w) e.1.1 |}) l.
Proof.
  unfold emit_all. revert w. induction l as [|e l IH]; intros w; simpl.
  - by rewrite app_nil_r.
  - rewrite IH. rewrite outbox_emit. by rewrite <- app_assoc.
Qed.

Lemma sockets_emit_all l w : sockets (emit_all l w) = sockets w.
Proof. unfold emit_all. revert w. induction l as [|e l IH]; intros w; simpl; [done|]. by rewrite IH. Qed.

Lemma socket_join_frame sid room w :
  teachingSessions (socket_join sid room w) = teachingSessions w
  ∧ gamingRooms (socket_join sid room w) = gamingRooms w
  ∧ events (socket_join sid room w) = events w
  ∧ eventPolls (socket_join sid room w) = eventPolls w
  ∧ pollHeap (socket_join sid room w) = pollHeap w
  ∧ timers (socket_join sid room w) = timers w
  ∧ rtcRooms (socket_join sid room w) = rtcRooms w
  ∧ outbox (socket_join sid room w) = outbox w.
Proof.
  unfold socket_join. destruct (sockets w !! sid); [|done].
  by destruct (decide _).
Qed.

(** ** What a handler leaves alone *)

Lemma pollHeap_socket_join sid room w : pollHeap (socket_join sid room w) = pollHeap w.
Proof. by destruct (socket_join_frame sid room w) as (_ & _ & _ & _ & -> & _). Qed.

Lemma pollHeap_emit_all l w : pollHeap (emit_all l w) = pollHeap w.
Proof.
  unfold emit_all. revert w. induction l as [|e l IH]; intros w; simpl; [done|].
  by rewrite IH.
Qed.

Lemma emit_all_same l w : set_outbox (outbox w) (emit_all l w) = w.
Proof.
  unfold emit_all. revert w. induction l as [|e l IH]; intros w; simpl.
  - by destruct w.
  - specialize (IH (emit e.1.1 e.1.2 e.2 w)).
    apply (f_equal (set_outbox (outbox w))) in IH. by destruct w.
Qed.

Lemma eventPolls_emit_all l w : eventPolls (emit_all l w) = eventPolls w.
Proof. by rewrite <- (emit_all_same l w) at 2. Qed.

Lemma timers_emit_all l w : timers (emit_all l w) = timers w.
Proof. by rewrite <- (emit_all_same l w) at 2. Qed.

Lemma events_emit_all l w : events (emit_all l w) = events w.
Proof. by rewrite <- (emit_all_same l w) at 2. Qed.

Lemma gamingRooms_emit_all l w : gamingRooms (emit_all l w) = gamingRooms w.
Proof. by rewrite <- (emit_all_same l w) at 2. Qed.

Lemma teachingSessions_emit_all l w : teachingSessions (emit_all l w) = teachingSessions w.
Proof. by rewrite <- (emit_all_same l w) at 2. Qed.

Lemma rtcRooms_emit_all l w : rtcRooms (emit_all l w) = rtcRooms w.
Proof. by rewrite <- (emit_all_same l w) at 2. Qed.

Lemma eventPolls_socket_join sid room w : eventPolls (socket_join sid room w) = eventPolls w.
Proof. by destruct (socket_join_frame sid room w) as (_ & _ & _ & -> & _). Qed.

Lemma timers_socket_join sid room w : timers (socket_join sid room w) = timers w.
Proof. by destruct (socket_join_frame sid room w) as (_ & _ & _ & _ & _ & -> & _). Qed.

Lemma events_socket_join sid room w : events (socket_join sid room w) = events w.
Proof. by destruct (socket_join_frame sid room w) as (_ & _ & -> & _). Qed.

Lemma gamingRooms_socket_join sid room w : gamingRooms (socket_join sid room w) = gamingRooms w.
Proof. by destruct (socket_join_frame sid room w) as (_ & -> & _). Qed.

Lemma teachingSessions_socket_join sid room w :
  teachingSessions (socket_join sid room w) = teachingSessions w.
Proof. by destruct (socket_join_frame sid room w) as (-> & _). Qed.

Lemma rtcRooms_socket_join sid room w : rtcRooms (socket_join sid room w) = rtcRooms w.
Proof. by destruct (socket_join_frame sid room w) as (_ & _ & _ & _ & _ & _ & -> & _). Qed.

Ltac store_frame :=
  repeat (first
    [ rewrite pollHeap_emit_all | rewrite eventPolls_emit_all | rewrite timers_emit_all
    | rewrite events_emit_all | rewrite gamingRooms_emit_all
    | rewrite teachingSessions_emit_all | rewrite rtcRooms_emit_all
    | rewrite pollHeap_socket_join | rewrite eventPolls_socket_join
    | rewrite timers_socket_join | rewrite events_socket_join
    | rewrite gamingRooms_socket_join | rewrite teachingSessions_socket_join
    | rewrite rtcRooms_socket_join
    | progress cbn ]).

Ltac unfold_handlers :=
  unfold on_disconnect, srv_disconnect, handleUserDisconnect, srv_disconnecting,
    on_create_room, srv_create_room, rtc_create_room, on_join_room, srv_join_room,
    rtc_join_room_string, join_room_old, join_event, join_gaming, join_teaching,
    approve_join, reject_join, confirm_join, handleUserLeaveRoom, event_toggle_chat,
    event_send_message, event_end, event_start_poll, event_vote_poll, createEvent,
    createPoll, votePoll, timer_fire, timer_callback, get_poll, send_message,
    upload_note, submit_feedback, end_session, end_meeting, event_share_document,
    store_poll, setTimeout, connect, leave_all.

Ltac frame_hyps :=
  repeat match goal with
  | H : context [gamingRooms (emit_all _ _)] |- _ => rewrite gamingRooms_emit_all in H
  | H : context [gamingRooms (socket_join _ _ _)] |- _ => rewrite gamingRooms_socket_join in H
  | H : context [events (emit_all _ _)] |- _ => rewrite events_emit_all in H
  | H : context [events (socket_join _ _ _)] |- _ => rewrite events_socket_join in H
  | H : context [teachingSessions (emit_all _ _)] |- _ =>
      rewrite teachingSessions_emit_all in H
  | H : context [teachingSessions (socket_join _ _ _)] |- _ =>
      rewrite teachingSessions_socket_join in H
  | H : context [emit _ _ _ _] |- _ => progress cbn in H
  | H : context [set_rtcRooms _ _] |- _ => progress cbn in H
  end.

(** ** Lists, students and participants *)

Lemma app_singleton_neq {A : Type} (l : list A) (x : A) : l ++ [x] ≠ l.
Proof.
  intros H. apply (f_equal length) in H. rewrite length_app in H. simpl in H. lia.
Qed.

Lemma emitted_app w w' l : outbox w' = outbox w ++ l → emitted w w' = l.
Proof. unfold emitted. intros ->. by rewrite drop_app_length. Qed.

Lemma set_outbox_same w : set_outbox (outbox w) w = w.
Proof. by destruct w. Qed.

Lemma run_snoc tr a w : run (tr ++ [a]) w = step a (run tr w).
Proof. unfold run. by rewrite fold_left_app. Qed.

Lemma run_app tr1 tr2 w : run (tr1 ++ tr2) w = run tr2 (run tr1 w).
Proof. unfold run. by rewrite fold_left_app. Qed.

Lemma findIndex_Some {A : Type} (pred : A → bool) (l : list A) (i : nat) :
  findIndex pred l = Some i →
  ∃ x, l !! i = Some x ∧ pred x = true
       ∧ ∀ j y, (j < i)%nat → l !! j = Some y → pred y = false.
Proof.
  revert i. induction l as [|a l IH]; intros i; simpl; [done|].
  destruct (pred a) eqn:Ha.
  - intros [= <-]. exists a. repeat split; [done|]. intros j y Hj. lia.
  - destruct (findIndex pred l) as [i'|] eqn:Hf; simpl; [|done].
    intros [= <-]. destruct (IH i' eq_refl) as (x & Hx & Hp & Hlt).
    exists x. repeat split; [done..|].
    intros [|j] y Hj; simpl; [by intros [= <-]|].
    apply Hlt. lia.
Qed.

Lemma findIndex_None {A : Type} (pred : A → bool) (l : list A) :
  findIndex pred l = None ↔ ∀ x, In x l → pred x = false.
Proof.
  induction l as [|a l IH]; simpl; [by split|].
  destruct (pred a) eqn:Ha.
  - split; [done|]. intros H. specialize (H a (or_introl eq_refl)). congruence.
  - destruct (findIndex pred l) as [i'|]; simpl.
    + split; [done|]. intros H.
      assert (Hn : Some i' = None) by (apply IH; auto).
      discriminate.
    + split; [|done]. intros _ x [<-|Hin]; [done|].
      destruct IH as [IH _]. by apply IH.
Qed.




Lemma game_prefix_not_event s : startsWith "GAME-" s = true → startsWith "EVENT-" s = false.
Proof.
  unfold startsWith. destruct s as [|c s]; [done|].
  destruct c as [[] [] [] [] [] [] [] []]; vm_compute; congruence.
Qed.

Lemma count_named_put p ps :
  count_named (pt_name p) (put_participant p ps) =
  Nat.max 1 (count_named (pt_name p) ps).
Proof.
  unfold put_participant, count_named.
  induction ps as [|q ps IH]; simpl.
  - by rewrite bool_decide_eq_true_2.
  - destruct (bool_decide (pt_name q = pt_name p)) eqn:Hq.
    + simpl. rewrite bool_decide_eq_true_2 by done. simpl. lia.
    + destruct (findIndex _ ps) as [i|] eqn:Hf; simpl in *.
      * rewrite Hq. exact IH.
      * rewrite Hq. exact IH.
Qed.

Lemma count_named_put_other p ps name :
  name ≠ pt_name p →
  count_named name (put_participant p ps) = count_named name ps.
Proof.
  intros Hne. unfold put_participant, count_named.
  induction ps as [|q ps IH]; simpl.
  - by rewrite bool_decide_eq_false_2.
  - destruct (bool_decide (pt_name q = pt_name p)) eqn:Hq.
    + simpl. apply bool_decide_eq_true in Hq.
      rewrite (bool_decide_eq_false_2 (pt_name p = name)) by done.
      rewrite (bool_decide_eq_false_2 (pt_name q = name)) by congruence. done.
    + destruct (findIndex _ ps) as [i|] eqn:Hf; simpl in *.
      * destruct (bool_decide (pt_name q = name)); simpl; by rewrite IH.
      * destruct (bool_decide (pt_name q = name)); simpl; by rewrite IH.
Qed.


Lemma confirm_students_ids sid student ss :
  NoDup (map st_id ss) → NoDup (map st_id (confirm_students sid student ss)).
Proof.
  intros Hnd. unfold confirm_students.
  destruct (findIndex (same_student sid student) ss) as [i|] eqn:Hf.
  - destruct (findIndex_Some _ _ _ Hf) as (s & Hs & _). rewrite Hs.
    change (NoDup (st_id <$> <[i:=st_with_socketId sid s]> ss)).
    rewrite list_fmap_insert. rewrite list_insert_id; [done|].
    by rewrite list_lookup_fmap, Hs.
  - pose proof (proj1 (findIndex_None _ _) Hf) as Hnone.
    rewrite map_app. cbn. apply NoDup_app. split; [done|]. split.
    + intros x Hx Hx'. apply list_elem_of_singleton in Hx'. subst x.
      apply list_elem_of_In, in_map_iff in Hx. destruct Hx as (s & Hid & Hin).
      specialize (Hnone s Hin). unfold same_student in Hnone.
      apply orb_false_elim in Hnone as [Hnone _].
      apply bool_decide_eq_false in Hnone. done.
    + apply NoDup_singleton.
Qed.


(** ** The stores stay well formed *)

Lemma jm_set_Forall {V : Type} (P : string * V → Prop) k v m :
  Forall P m → P (k, v) → Forall P (jm_set k v m).
Proof.
  intros Hm Hv. induction Hm as [|[k0 v0] m H0 Hm IH]; simpl.
  - by constructor.
  - destruct (decide (k = k0)); constructor; done.
Qed.

Lemma jm_keys_set {V : Type} k (v : V) m :
  jm_keys (jm_set k v m) = if jm_has k m then jm_keys m else jm_keys m ++ [k].
Proof.
  unfold jm_has, jm_keys. induction m as [|[k0 v0] m IH]; simpl; [done|].
  destruct (decide (k = k0)) as [->|Hne]; simpl; [done|].
  rewrite IH. by destruct (jm_get k m).
Qed.

Lemma jm_wf_set {V : Type} k (v : V) m : jm_wf m → jm_wf (jm_set k v m).
Proof.
  unfold jm_wf. rewrite jm_keys_set. unfold jm_has.
  destruct (jm_get k m) eqn:Hget; [done|].
  intros Hnd. apply NoDup_app. split; [done|]. split; [|apply NoDup_singleton].
  intros x Hx Hx'. apply list_elem_of_singleton in Hx'. subst x.
  apply jm_get_None in Hget. apply Hget. by apply list_elem_of_In.
Qed.

Lemma jm_keys_delete_sublist {V : Type} k (m : list (string * V)) :
  jm_keys (jm_delete k m) `sublist_of` jm_keys m.
Proof.
  unfold jm_keys. induction m as [|[k0 v0] m IH]; simpl; [done|].
  destruct (decide (k = k0)); simpl.
  - by apply sublist_cons.
  - by apply sublist_skip.
Qed.

Lemma jm_wf_delete {V : Type} k (m : list (string * V)) : jm_wf m → jm_wf (jm_delete k m).
Proof. unfold jm_wf. intros H. eapply sublist_NoDup; [done|apply jm_keys_delete_sublist]. Qed.

Lemma rtc_disconnect_keys sid rooms :
  jm_keys (omap fst (map (rtc_disconnect_entry sid) rooms)) `sublist_of` jm_keys rooms.
Proof.
  unfold jm_keys. induction rooms as [|[k r] rooms IH]; simpl; [done|].
  destruct (decide (rr_hostId r = sid)); simpl.
  - by apply sublist_cons.
  - destruct (jm_has sid (rr_students r)); simpl; by apply sublist_skip.
Qed.

Lemma put_participant_names p ps :
  NoDup (map pt_name ps) → NoDup (map pt_name (put_participant p ps)).
Proof.
  intros Hnd. unfold put_participant.
  destruct (findIndex _ ps) as [i|] eqn:Hf.
  - destruct (findIndex_Some _ _ _ Hf) as (q & Hq & Hp & _).
    apply bool_decide_eq_true in Hp.
    change (NoDup (pt_name <$> <[i:=p]> ps)).
    rewrite list_fmap_insert, list_insert_id; [done|].
    by rewrite list_lookup_fmap, Hq, <- Hp.
  - pose proof (proj1 (findIndex_None _ _) Hf) as Hnone.
    rewrite map_app. apply NoDup_app. split; [done|]. split; [|apply NoDup_singleton].
    intros x Hx Hx'. apply list_elem_of_singleton in Hx'. subst x.
    apply list_elem_of_In, in_map_iff in Hx as (q & Hname & Hin).
    specialize (Hnone q Hin). by apply bool_decide_eq_false in Hnone.
Qed.

Lemma student_leaves_ok sid s : session_ok s → session_ok (student_leaves sid s).1.
Proof.
  unfold session_ok, student_leaves. intros Hnd.
  destruct (findIndex _ (ts_students s)) as [i|]; [|done].
  destruct (ts_students s !! i) as [x|]; [|done]. cbn.
  change (NoDup (st_id <$> delete i (ts_students s))).
  eapply sublist_NoDup; [exact Hnd|].
  apply fmap_sublist, sublist_delete.
Qed.

Lemma stores_ok_emit t name p w : stores_ok (emit t name p w) ↔ stores_ok w.
Proof. done. Qed.

Lemma stores_ok_emit_all l w : stores_ok (emit_all l w) ↔ stores_ok w.
Proof.
  unfold emit_all. revert w. induction l as [|e l IH]; intros w; simpl; [done|].
  by rewrite IH.
Qed.

Lemma stores_ok_socket_join sid room w : stores_ok (socket_join sid room w) ↔ stores_ok w.
Proof.
  unfold socket_join. destruct (sockets w !! sid); [|done]. by destruct (decide _).
Qed.

Lemma stores_ok_sessions m w :
  stores_ok w → Forall (λ kv, session_ok kv.2) m → jm_wf m →
  stores_ok (set_teachingSessions m w).
Proof. intros (? & ? & ? & ?) ? ?. by repeat split. Qed.

Lemma stores_ok_set_session k s w :
  stores_ok w → session_ok s → stores_ok (set_teachingSessions (jm_set k s (teachingSessions w)) w).
Proof.
  intros Hok Hs. apply stores_ok_sessions; [done| |].
  - apply jm_set_Forall; [apply Hok|done].
  - apply jm_wf_set, Hok.
Qed.

Lemma stores_ok_set_room k r w :
  stores_ok w → room_ok r → stores_ok (set_gamingRooms (<[k := r]> (gamingRooms w)) w).
Proof.
  intros (? & ? & ? & ?) ?. repeat split; try done. cbn.
  by apply map_Forall_insert_2.
Qed.

Lemma stores_ok_rtc m w : stores_ok w → jm_wf m → stores_ok (set_rtcRooms m w).
Proof. intros (? & ? & ? & ?) ?. by repeat split. Qed.

Lemma stores_ok_session w k s :
  stores_ok w → jm_get k (teachingSessions w) = Some s → session_ok s.
Proof.
  intros (Hs & _) Hget. apply jm_get_In in Hget.
  rewrite Forall_forall in Hs. apply (Hs (k, s)). by apply list_elem_of_In.
Qed.

Lemma srv_disconnect_ok sid w : stores_ok w → stores_ok (srv_disconnect sid w).
Proof.
  intros Hok. unfold srv_disconnect.
  assert (Helse : stores_ok
    (emit_all (student_left_emits sid (teachingSessions w))
       (set_teachingSessions
          (map (λ kv, (kv.1, (student_leaves sid kv.2).1)) (teachingSessions w)) w))).
  { apply stores_ok_emit_all. apply stores_ok_sessions; [done| |].
    - destruct Hok as (Hs & _). apply Forall_forall. intros kv Hin.
      apply list_elem_of_In, in_map_iff in Hin as (kv0 & <- & Hin0). cbn.
      apply student_leaves_ok. rewrite Forall_forall in Hs.
      apply Hs. by apply list_elem_of_In.
    - destruct Hok as (_ & _ & Hwf & _). unfold jm_wf, jm_keys in *.
      rewrite map_map. cbn. exact Hwf. }
  destruct (find_hostRoomId sid (teachingSessions w)) as [[|c r]|];
    [exact Helse| |exact Helse].
  destruct (jm_get _ (teachingSessions w)) as [s|] eqn:Hget; [|done].
  apply stores_ok_set_session; [done|].
  exact (stores_ok_session w _ s Hok Hget).
Qed.

Lemma step_stores_ok a w : stores_ok w → stores_ok (step a w).
Proof.
  intros Hok. destruct a; cbn [step].
  - done.
  - unfold on_disconnect. apply srv_disconnect_ok.
    unfold handleUserDisconnect. apply stores_ok_emit_all.
    apply stores_ok_rtc.
    + unfold srv_disconnecting. by repeat case_match.
    + unfold jm_wf. eapply sublist_NoDup; [|apply rtc_disconnect_keys].
      unfold srv_disconnecting. repeat case_match; apply Hok.
  - unfold on_create_room.
    assert (Hrtc : stores_ok (rtc_create_room sid roomId host w)).
    { unfold rtc_create_room. apply stores_ok_emit, stores_ok_socket_join.
      apply stores_ok_rtc; [done|]. apply jm_wf_set, Hok. }
    revert Hrtc. generalize (rtc_create_room sid roomId host w). clear w Hok.
    intros w Hok. unfold srv_create_room. apply stores_ok_emit.
    apply (proj2 (stores_ok_socket_join sid roomId w)) in Hok. revert Hok.
    generalize (socket_join sid roomId w). clear w. intros w Hok.
    destruct (startsWith "GAME-" roomId).
    + destruct (gamingRooms w !! roomId) as [r|] eqn:Hr.
      * apply stores_ok_set_room; [done|].
        destruct Hok as (_ & Hg & _). apply (Hg roomId r Hr).
      * apply stores_ok_set_room; [done|]. constructor.
    + destruct (startsWith "EVENT-" roomId).
      * by destruct (events w !! roomId).
      * apply stores_ok_set_session; [done|]. constructor.
  - unfold on_join_room, srv_join_room, rtc_join_room_string.
    apply stores_ok_emit, stores_ok_emit, stores_ok_socket_join. by apply stores_ok_emit.
  - unfold join_room_old, join_event, join_gaming, join_teaching.
    destruct (startsWith "EVENT-" (jd_roomId data)).
    { destruct (events w !! jd_roomId data) as [e|]; [|done].
      destruct (ev_status e); try done.
      apply stores_ok_emit, stores_ok_emit.
      by apply (proj2 (stores_ok_socket_join sid (jd_roomId data) w)) in Hok. }
    destruct (startsWith "GAME-" (jd_roomId data)).
    { destruct (gamingRooms w !! jd_roomId data) as [r|] eqn:Hr; [|done].
      apply stores_ok_emit, stores_ok_emit.
      assert (Hgr : gamingRooms (socket_join sid (jd_roomId data) w) = gamingRooms w)
        by by destruct (socket_join_frame sid (jd_roomId data) w) as (_ & -> & _).
      rewrite Hgr.
      pose proof (proj2 (stores_ok_socket_join sid (jd_roomId data) w) Hok) as Hok'.
      rewrite <- Hgr. apply stores_ok_set_room; [done|].
      apply put_participant_names. destruct Hok as (_ & Hg & _). apply (Hg _ _ Hr). }
    by destruct (jm_get _ (teachingSessions w)).
  - unfold approve_join. by destruct (jm_get _ (teachingSessions w)).
  - done.
  - unfold confirm_join.
    destruct (jm_get roomId (teachingSessions w)) as [session|] eqn:Hget; [|done].
    assert (Hs' : session_ok
      (ts_with_students (confirm_students sid student (ts_students session)) session)).
    { apply confirm_students_ids. exact (stores_ok_session w _ session Hok Hget). }
    destruct (findIndex _ (ts_students session)).
    + apply stores_ok_emit, stores_ok_socket_join. by apply stores_ok_set_session.
    + apply stores_ok_emit, stores_ok_emit.
      apply stores_ok_set_session; [|done].
      by apply stores_ok_socket_join.
  - unfold handleUserLeaveRoom.
    destruct (jm_get roomId (rtcRooms w)) as [room|]; [|done].
    destruct (decide _).
    + apply stores_ok_rtc; [done|]. apply jm_wf_delete, Hok.
    + destruct (jm_has sid (rr_students room)); [|done].
      apply stores_ok_emit, stores_ok_emit, stores_ok_rtc; [done|].
      apply jm_wf_set, Hok.
  - unfold event_toggle_chat. by destruct (events w !! eventId).
  - unfold event_send_message. destruct (events w !! eventId) as [e|]; [|done].
    by destruct (chatEnabled (ev_settings e)).
  - unfold event_end. by destruct (events w !! eventId).
  - unfold event_start_poll. by destruct (events w !! eventId).
  - unfold event_vote_poll. repeat case_match; done.
  - done.
  - unfold createPoll. destruct (events w !! eventId); [|done]. by destruct options.
  - unfold votePoll. repeat case_match; done.
  - unfold timer_fire. destruct (timers w !! n) as [tm|]; [|done].
    unfold timer_callback. repeat case_match; done.
Qed.

Lemma count_named_le_1 name ps : NoDup (map pt_name ps) → (count_named name ps ≤ 1)%nat.
Proof.
  unfold count_named. induction ps as [|q ps IH]; simpl; [lia|].
  intros Hnd. apply NoDup_cons in Hnd as [Hnotin Hnd].
  destruct (bool_decide (pt_name q = name)) eqn:Hq; simpl; [|by apply IH].
  apply bool_decide_eq_true in Hq.
  destruct (List.filter _ ps) as [|y l] eqn:Hfl; [simpl; lia|].
  assert (Hy : In y (List.filter (λ q, bool_decide (pt_name q = name)) ps))
    by (rewrite Hfl; by left).
  apply filter_In in Hy as [Hy1 Hy2]. apply bool_decide_eq_true in Hy2.
  exfalso. apply Hnotin. apply list_elem_of_In, in_map_iff. exists y.
  split; [congruence|done].
Qed.

Lemma reachable_stores_ok w : reachable w → stores_ok w.
Proof.
  intros [tr ->]. induction tr as [|a tr IH] using rev_ind.
  - repeat split; try constructor. apply map_Forall_empty.
  - rewrite run_snoc. by apply step_stores_ok.
Qed.

(** ** Teaching rooms: creation *)

(** C10. A [create-room] whose room id starts neither with [GAME-] nor with
    [EVENT-] stores a fresh session under that id whatever was there before:
    no students, messages, notes, attendance or feedback, the caller as
    host. Every other session, the gaming rooms and the events are left as
    they were. *)
Theorem create_room_replaces_teaching_session sid roomId host now w :
  startsWith "GAME-" roomId = false →
  startsWith "EVENT-" roomId = false →
  ∃ s,
    jm_get roomId (teachingSessions (on_create_room sid roomId host now w)) = Some s
    ∧ s = new_session host sid now
    ∧ ts_students s = [] ∧ ts_messages s = [] ∧ ts_notes s = []
    ∧ ts_attendance s = [] ∧ ts_feedback s = []
    ∧ ts_host s = host ∧ ts_hostSocketId s = sid ∧ ts_hostActive s = None
    ∧ teachingSessions (on_create_room sid roomId host now w) =
        jm_set roomId s (teachingSessions w)
    ∧ (∀ other, other ≠ roomId →
         jm_get other (teachingSessions (on_create_room sid roomId host now w)) =
         jm_get other (teachingSessions w))
    ∧ gamingRooms (on_create_room sid roomId host now w) = gamingRooms w
    ∧ events (on_create_room sid roomId host now w) = events w.
Proof.
  intros Hg He. exists (new_session host sid now).
  unfold on_create_room, srv_create_room. rewrite Hg, He.
  set (w1 := rtc_create_room sid roomId host w).
  assert (Hts : teachingSessions (socket_join sid roomId w1) = teachingSessions w).
  { destruct (socket_join_frame sid roomId w1) as (-> & _).
    unfold w1, rtc_create_room. cbn.
    by destruct (socket_join_frame sid roomId
      (set_rtcRooms (jm_set roomId {| rr_hostId := sid; rr_hostName := host; rr_students := [] |} (rtcRooms w)) w)) as (-> & _). }
  assert (Hgr : gamingRooms (socket_join sid roomId w1) = gamingRooms w).
  { destruct (socket_join_frame sid roomId w1) as (_ & -> & _).
    unfold w1, rtc_create_room. cbn.
    by destruct (socket_join_frame sid roomId
      (set_rtcRooms (jm_set roomId {| rr_hostId := sid; rr_hostName := host; rr_students := [] |} (rtcRooms w)) w)) as (_ & -> & _). }
  assert (Hev : events (socket_join sid roomId w1) = events w).
  { destruct (socket_join_frame sid roomId w1) as (_ & _ & -> & _).
    unfold w1, rtc_create_room. cbn.
    by destruct (socket_join_frame sid roomId
      (set_rtcRooms (jm_set roomId {| rr_hostId := sid; rr_hostName := host; rr_students := [] |} (rtcRooms w)) w)) as (_ & _ & -> & _). }
  cbn. rewrite Hts, Hgr, Hev.
  repeat split; try done.
  - apply jm_get_set_eq.
  - intros other Hne. by apply jm_get_set_ne.
Qed.

Lemma create_room_replaces_teaching_session_witness :
  startsWith "GAME-" "MATH1" = false
  ∧ startsWith "EVENT-" "MATH1" = false
  ∧ (length ∘ ts_students <$> jm_get "MATH1" (teachingSessions w_class)) = Some 1%nat
  ∧ ∃ s,
      jm_get "MATH1" (teachingSessions (on_create_room "t2" "MATH1" "sub" 9 w_class))
        = Some s
      ∧ ts_students s = [] ∧ ts_hostSocketId s = "t2".
Proof.
  split; [reflexivity|]. split; [reflexivity|]. split; [reflexivity|].
  destruct (create_room_replaces_teaching_session "t2" "MATH1" "sub" 9 w_class
              eq_refl eq_refl) as (s & Hs & _ & Hst & _ & _ & _ & _ & _ & Hh & _).
  exists s. auto.
Defined.

(** ** Event chat *)

(** C9, as amended. A chat message sent to an event room with
    [event-send-message] is appended to the room's message log and fanned
    out to the sockets in the room exactly when the room's [chatEnabled]
    setting is on. With the setting off that handler changes nothing at
    all: no log entry, no fan-out and nothing sent back to the sender. The
    setting gates this handler only: a message sent to the same room with
    [send-message] is fanned out as [message] to every socket of the room
    whatever the setting, and it is never put into the log of the event. *)
Theorem event_chat_gated_by_setting eventId message w event :
  events w !! eventId = Some event →
  (chatEnabled (ev_settings event) = true →
     events (event_send_message eventId message w) =
       <[eventId := ev_with_messages (ev_messages event ++ [message]) event]> (events w)
     ∧ outbox (event_send_message eventId message w) =
         outbox w ++
           [{| target := IoTo eventId; ev := "event-message";
               payload := P_message message;
               rcpts := in_room (sockets w) eventId |}])
  ∧ (chatEnabled (ev_settings event) = false →
       event_send_message eventId message w = w)
  ∧ (chatEnabled (ev_settings event) = true ↔
       (ev_messages <$> events (event_send_message eventId message w) !! eventId) =
         Some (ev_messages event ++ [message]))
  ∧ (chatEnabled (ev_settings event) = true ↔
       outbox (event_send_message eventId message w) ≠ outbox w)
  ∧ events (send_message eventId message w) = events w
  ∧ outbox (send_message eventId message w) =
      outbox w ++
        [{| target := IoTo eventId; ev := "message"; payload := P_message message;
            rcpts := in_room (sockets w) eventId |}].
Proof.
  intros Hev.
  assert (Hsend : events (send_message eventId message w) = events w
    ∧ outbox (send_message eventId message w) =
        outbox w ++
          [{| target := IoTo eventId; ev := "message"; payload := P_message message;
              rcpts := in_room (sockets w) eventId |}]).
  { unfold send_message. rewrite outbox_emit.
    destruct (gamingRooms w !! eventId); [done|].
    by destruct (jm_get eventId (teachingSessions w)). }
  cut ((chatEnabled (ev_settings event) = true →
          events (event_send_message eventId message w) =
            <[eventId := ev_with_messages (ev_messages event ++ [message]) event]> (events w)
          ∧ outbox (event_send_message eventId message w) =
              outbox w ++
                [{| target := IoTo eventId; ev := "event-message";
                    payload := P_message message;
                    rcpts := in_room (sockets w) eventId |}])
       ∧ (chatEnabled (ev_settings event) = false →
            event_send_message eventId message w = w)
       ∧ (chatEnabled (ev_settings event) = true ↔
            (ev_messages <$> events (event_send_message eventId message w) !! eventId) =
              Some (ev_messages event ++ [message]))
       ∧ (chatEnabled (ev_settings event) = true ↔
            outbox (event_send_message eventId message w) ≠ outbox w)).
  { intros (H1 & H2 & H3 & H4). destruct Hsend as [H5 H6]. repeat split; tauto. }
  unfold event_send_message. rewrite Hev.
  destruct (chatEnabled (ev_settings event)) eqn:Hchat.
  - split; [intros _; split; reflexivity|].
    split; [discriminate|]. split.
    + split; [intros _|done]. cbn. by rewrite lookup_insert_eq.
    + split; [intros _|done]. rewrite outbox_emit. cbn. apply app_singleton_neq.
  - split; [discriminate|]. split; [done|]. split.
    + split; [discriminate|]. rewrite Hev. cbn. intros [= H].
      symmetry in H. by apply app_singleton_neq in H.
    + split; [discriminate|]. intros H. by destruct H.
Qed.

Lemma event_chat_gated_by_setting_witness :
  (ev_status <$> events w_event !! "EVENT-E1") = Some EvActive
  ∧ (ev_messages <$> events (event_send_message "EVENT-E1" "hello" w_event) !! "EVENT-E1")
      = Some ["hello"]
  ∧ event_send_message "EVENT-E1" "hello"
      (event_toggle_chat "h" "EVENT-E1" false w_event)
    = event_toggle_chat "h" "EVENT-E1" false w_event.
Proof.
  split; [reflexivity|]. split.
  - destruct (events w_event !! "EVENT-E1") as [event|] eqn:Hev; [|discriminate].
    destruct (event_chat_gated_by_setting "EVENT-E1" "hello" w_event event Hev)
      as (_ & _ & Hiff & _).
    assert (Hchat : chatEnabled (ev_settings event) = true).
    { revert Hev. vm_compute. intros [= <-]. reflexivity. }
    apply Hiff in Hchat. rewrite Hchat.
    revert Hev. vm_compute. intros [= <-]. reflexivity.
  - destruct (events (event_toggle_chat "h" "EVENT-E1" false w_event) !! "EVENT-E1")
      as [event|] eqn:Hev; [|discriminate].
    destruct (event_chat_gated_by_setting "EVENT-E1" "hello" _ event Hev)
      as (_ & Hoff & _).
    apply Hoff. revert Hev. vm_compute. intros [= <-]. reflexivity.
Defined.

(** C9, the claim as stated fails. In the event room [EVENT-E1] the host
    [h] has switched the chat off and Ann is in the room on socket [a]. A
    chat message sent to the room with [event-send-message] is dropped; the
    same message sent to the room with [send-message] is fanned out to both
    sockets of the room. *)
Lemma send_message_is_fanned_out_with_chat_off :
  (chatEnabled <$> (ev_settings <$> events (serve reqs_muted_event init) !! "EVENT-E1"))
    = Some false
  ∧ event_send_message "EVENT-E1" "psst" (serve reqs_muted_event init)
    = serve reqs_muted_event init
  ∧ map (λ s, (target s, ev s, payload s, elements (rcpts s)))
      (emitted (serve reqs_muted_event init)
         (send_message "EVENT-E1" "psst" (serve reqs_muted_event init)))
    = [(IoTo "EVENT-E1", "message", P_message "psst", ["a"; "h"])].
Proof.
  repeat match goal with |- _ ∧ _ => split end; vm_compute; reflexivity.
Qed.

(** ** Joining an event room *)

(** C7, as amended. A [join-room-old] for an [EVENT-] room succeeds exactly
    when the event exists and its status is active. On success the attendee
    is appended to [event.attendees], [attendee-joined] is sent to the whole
    room (the joiner included, who has just been put in the channel) and the
    joiner receives [event-joined] with title, description, host name,
    attendees, documents and settings. Otherwise, whether the event is
    missing or merely not active, no store changes and the joiner alone
    receives [event-not-found]. *)
Theorem event_join_needs_active_event sid data now w :
  startsWith "EVENT-" (jd_roomId data) = true →
  (∀ event,
     events w !! jd_roomId data = Some event → ev_status event = EvActive →
     events (join_room_old sid data now w) =
       <[jd_roomId data :=
           ev_with_attendees
             (ev_attendees event ++ [new_attendee sid (jd_student data) now]) event]>
         (events w)
     ∧ emitted w (join_room_old sid data now w) =
         [{| target := IoTo (jd_roomId data); ev := "attendee-joined";
             payload := P_attendee (new_attendee sid (jd_student data) now);
             rcpts := in_room (sockets (socket_join sid (jd_roomId data) w))
                        (jd_roomId data) |};
          {| target := SocketEmit sid; ev := "event-joined";
             payload :=
               P_event_joined (jd_roomId data) (ev_title event)
                 (ev_description event) (eh_name (ev_host event))
                 (ev_attendees event ++ [new_attendee sid (jd_student data) now])
                 (ev_documents event) (ev_settings event) true;
             rcpts := {[sid]} |}])
  ∧ ((events w !! jd_roomId data = None
      ∨ ∃ event, events w !! jd_roomId data = Some event ∧ ev_status event ≠ EvActive) →
     join_room_old sid data now w =
       emit (SocketEmit sid) "event-not-found" (P_room (jd_roomId data)) w
     ∧ events (join_room_old sid data now w) = events w
     ∧ sockets (join_room_old sid data now w) = sockets w
     ∧ emitted w (join_room_old sid data now w) =
         [{| target := SocketEmit sid; ev := "event-not-found";
             payload := P_room (jd_roomId data); rcpts := {[sid]} |}])
  ∧ ((∃ event, events w !! jd_roomId data = Some event ∧ ev_status event = EvActive)
     ↔ ev <$> last (outbox (join_room_old sid data now w)) = Some "event-joined").
Proof.
  intros Hpre. unfold join_room_old. rewrite Hpre. unfold join_event.
  split; [|split].
  - intros event Hev Hact. rewrite Hev, Hact.
    destruct (socket_join_frame sid (jd_roomId data) w)
      as (_ & _ & Hevs & _ & _ & _ & _ & Hout).
    split.
    + cbn. by rewrite Hevs.
    + apply emitted_app. rewrite !outbox_emit. cbn.
      rewrite Hout. by rewrite <- app_assoc.
  - intros [Hnone | (event & Hev & Hst)].
    + rewrite Hnone. repeat split. by apply emitted_app.
    + rewrite Hev. destruct (ev_status event); try done;
        repeat split; by apply emitted_app.
  - destruct (events w !! jd_roomId data) as [event|] eqn:Hev.
    + destruct (ev_status event) eqn:Hst.
      * split; [intros (e & [= <-] & He); congruence|].
        rewrite outbox_emit, last_snoc. discriminate.
      * split; [intros _|eauto].
        by rewrite outbox_emit, last_snoc.
      * split; [intros (e & [= <-] & He); congruence|].
        rewrite outbox_emit, last_snoc. discriminate.
    + split; [intros (e & ? & _); discriminate|].
      rewrite outbox_emit, last_snoc. discriminate.
Qed.

Lemma event_join_needs_active_event_witness :
  startsWith "EVENT-" (jd_roomId (JoinObject "EVENT-E1" ann)) = true
  ∧ (ev_status <$> events w_event !! "EVENT-E1") = Some EvActive
  ∧ ev <$> last (outbox (join_room_old "a" (JoinObject "EVENT-E1" ann) 7 w_event))
    = Some "event-joined".
Proof.
  split; [reflexivity|]. split; [reflexivity|].
  apply (event_join_needs_active_event "a" (JoinObject "EVENT-E1" ann) 7 w_event eq_refl).
  destruct (events w_event !! "EVENT-E1") as [event|] eqn:Hev; [|discriminate].
  exists event. split; [assumption|].
  revert Hev. vm_compute. intros [= <-]. reflexivity.
Defined.

(** C7, the claim as stated fails. The event [EVENT-E1] exists with status
    [created]. The join is refused, but not as a room that is not active:
    what the joiner gets is [event-not-found], the very notification a join
    to an event that does not exist gets. *)
Lemma event_join_inactive_is_reported_as_not_found :
  (ev_status <$> events w_event_created !! "EVENT-E1") = Some EvCreated
  ∧ emitted w_event_created
      (join_room_old "a" (JoinObject "EVENT-E1" ann) 7 w_event_created)
    = [{| target := SocketEmit "a"; ev := "event-not-found";
          payload := P_room "EVENT-E1"; rcpts := {["a"]} |}]
  ∧ events (run [Connect "h"; Connect "a"] init) !! "EVENT-E1" = None
  ∧ emitted (run [Connect "h"; Connect "a"] init)
      (join_room_old "a" (JoinObject "EVENT-E1" ann) 7
         (run [Connect "h"; Connect "a"] init))
    = emitted w_event_created
        (join_room_old "a" (JoinObject "EVENT-E1" ann) 7 w_event_created).
Proof. repeat split; vm_compute; reflexivity. Qed.

(** ** Joining a gaming room *)

(** C6. A [join-room-old] for a [GAME-] room that exists. The handler
    builds the joiner's entry: id and socket id are the socket of the
    joiner, name and avatar are the ones sent, audio and video are on,
    screen sharing is off. If a participant with the joiner's display name
    is present, the first such entry is overwritten in place by the new
    entry and the list keeps its length; otherwise the new entry is
    appended. Either way the number of entries with that name is 1 if it
    was at most 1 before, which it is in every world the process can reach,
    and no other name gains or loses an entry. The other sockets of the
    room are sent [user-connected] with the joiner's socket id, and the
    joiner receives [room-joined] with the host's socket id and the
    participants whose id is not its own socket id: the new entry is left
    out, every entry of another socket is in. *)
Theorem gaming_join_replaces_same_name sid data now w gamingRoom :
  startsWith "GAME-" (jd_roomId data) = true →
  gamingRooms w !! jd_roomId data = Some gamingRoom →
  ∃ participant ps' sent,
    participant =
      {| pt_id := sid; pt_name := pf_name (jd_student data);
         pt_avatar := pf_avatar (jd_student data); pt_socketId := sid;
         pt_audio := true; pt_video := true; pt_screenshare := false;
         pt_joinTime := now |}
    ∧ gamingRooms (join_room_old sid data now w) =
        <[jd_roomId data := gr_with_participants ps' gamingRoom]> (gamingRooms w)
    ∧ (∀ i, findIndex (λ q, bool_decide (pt_name q = pf_name (jd_student data)))
              (gr_participants gamingRoom) = Some i →
            ps' = <[i := participant]> (gr_participants gamingRoom)
            ∧ length ps' = length (gr_participants gamingRoom))
    ∧ ((∃ q, In q (gr_participants gamingRoom)
             ∧ pt_name q = pf_name (jd_student data)) →
       ∃ i q, gr_participants gamingRoom !! i = Some q
              ∧ pt_name q = pf_name (jd_student data)
              ∧ ps' !! i = Some participant
              ∧ length ps' = length (gr_participants gamingRoom))
    ∧ ((∀ q, In q (gr_participants gamingRoom) →
             pt_name q ≠ pf_name (jd_student data)) →
       ps' = gr_participants gamingRoom ++ [participant])
    ∧ In participant ps'
    ∧ count_named (pf_name (jd_student data)) ps' =
        Nat.max 1 (count_named (pf_name (jd_student data)) (gr_participants gamingRoom))
    ∧ (∀ name, name ≠ pf_name (jd_student data) →
         count_named name ps' = count_named name (gr_participants gamingRoom))
    ∧ (reachable w →
       NoDup (map pt_name (gr_participants gamingRoom))
       ∧ NoDup (map pt_name ps')
       ∧ count_named (pf_name (jd_student data)) ps' = 1%nat)
    ∧ emitted w (join_room_old sid data now w) =
        [{| target := SocketTo sid (jd_roomId data); ev := "user-connected";
            payload := P_string sid;
            rcpts := in_room (sockets (socket_join sid (jd_roomId data) w))
                       (jd_roomId data) ∖ {[sid]} |};
         {| target := SocketEmit sid; ev := "room-joined";
            payload :=
              P_gaming_joined (jd_roomId data) (gr_hostSocketId gamingRoom) sent true;
            rcpts := {[sid]} |}]
    ∧ sent = List.filter (λ p, negb (bool_decide (pt_id p = sid))) ps'
    ∧ ¬ In participant sent
    ∧ (∀ p, In p sent ↔ In p ps' ∧ pt_id p ≠ sid)
    ∧ (∀ p, In p sent → In p (gr_participants gamingRoom)).
Proof.
  intros Hpre Hroom.
  set (participant := new_participant sid (jd_student data) now).
  set (ps' := put_participant participant (gr_participants gamingRoom)).
  exists participant, ps', (List.filter (λ p, negb (bool_decide (pt_id p = sid))) ps').
  split; [reflexivity|].
  unfold join_room_old. rewrite (game_prefix_not_event _ Hpre), Hpre.
  unfold join_gaming. rewrite Hroom.
  destruct (socket_join_frame sid (jd_roomId data) w)
    as (_ & Hgr & _ & _ & _ & _ & _ & Hout).
  assert (Hsent : ∀ p, In p (List.filter (λ p, negb (bool_decide (pt_id p = sid))) ps')
                       ↔ In p ps' ∧ pt_id p ≠ sid).
  { intros p. rewrite filter_In, negb_true_iff, bool_decide_eq_false. done. }
  assert (Hin : In participant ps').
  { unfold ps', put_participant.
    destruct (findIndex _ (gr_participants gamingRoom)) as [i|] eqn:Hf.
    - destruct (findIndex_Some _ _ _ Hf) as (x & Hx & _).
      apply list_elem_of_In. eapply list_elem_of_lookup_2.
      apply list_lookup_insert_eq. by eapply lookup_lt_Some.
    - apply in_or_app. right. by left. }
  assert (Hold : ∀ p, In p ps' → p = participant ∨ In p (gr_participants gamingRoom)).
  { intros p. unfold ps', put_participant.
    destruct (findIndex _ (gr_participants gamingRoom)) as [i|] eqn:Hf.
    - destruct (findIndex_Some _ _ _ Hf) as (x & Hx & _).
      intros Hp. apply list_elem_of_In, list_elem_of_lookup_1 in Hp as [k Hk].
      destruct (decide (k = i)) as [->|Hne].
      + rewrite list_lookup_insert_eq in Hk by (by eapply lookup_lt_Some).
        left. congruence.
      + rewrite list_lookup_insert_ne in Hk by done.
        right. apply list_elem_of_In. by eapply list_elem_of_lookup_2.
    - intros Hp. apply in_app_or in Hp as [Hp|[<-|[]]]; [by right|by left]. }
  split; [cbn; by rewrite Hgr|].
  split.
  { intros i Hi. unfold ps', put_participant. cbn [pt_name new_participant participant].
    rewrite Hi. split; [done|]. by rewrite length_insert. }
  split.
  { intros (q & Hq & Hname). unfold ps', put_participant.
    cbn [pt_name new_participant participant].
    destruct (findIndex _ (gr_participants gamingRoom)) as [i|] eqn:Hf.
    - destruct (findIndex_Some _ _ _ Hf) as (x & Hx & Hp & _).
      exists i, x. apply bool_decide_eq_true in Hp.
      repeat split; [done..| |by rewrite length_insert].
      apply list_lookup_insert_eq. by eapply lookup_lt_Some.
    - rewrite findIndex_None in Hf. specialize (Hf q Hq).
      apply bool_decide_eq_false in Hf. done. }
  split.
  { intros Hnone. unfold ps', put_participant. cbn [pt_name new_participant participant].
    destruct (findIndex _ (gr_participants gamingRoom)) as [i|] eqn:Hf; [|done].
    destruct (findIndex_Some _ _ _ Hf) as (x & Hx & Hp & _).
    apply bool_decide_eq_true in Hp. exfalso. apply (Hnone x); [|done].
    apply list_elem_of_In. by eapply list_elem_of_lookup_2. }
  split; [exact Hin|].
  split; [apply (count_named_put participant)|].
  split; [intros name Hne; by apply count_named_put_other|].
  split.
  { intros Hreach. apply reachable_stores_ok in Hreach as (_ & Hrooms & _).
    pose proof (Hrooms _ _ Hroom) as Hnd. split; [exact Hnd|].
    split; [by apply put_participant_names|].
    unfold ps'. rewrite (count_named_put participant).
    cbn [pt_name new_participant participant].
    pose proof (count_named_le_1 (pf_name (jd_student data)) _ Hnd). lia. }
  split.
  { apply emitted_app. rewrite !outbox_emit. cbn. rewrite Hout.
    by rewrite <- app_assoc. }
  split; [reflexivity|].
  split; [intros Hp; by apply Hsent in Hp as [_ Hp]|].
  split; [exact Hsent|].
  intros p Hp. apply Hsent in Hp as [Hp Hid].
  destruct (Hold p Hp) as [->|Hp']; [done|exact Hp'].
Qed.

Lemma gaming_join_replaces_same_name_witness :
  startsWith "GAME-" (jd_roomId (JoinObject "GAME-1" bob)) = true
  ∧ gamingRooms (connect "b2" w_game) !! "GAME-1" = Some game1
  ∧ ∃ ps',
      (gr_participants <$>
         gamingRooms (join_room_old "b2" (JoinObject "GAME-1" bob) 3
                        (connect "b2" w_game)) !! "GAME-1") = Some ps'
      ∧ count_named "Bob" ps' = 1%nat
      ∧ ps' = [{| pt_id := "b2"; pt_name := "Bob"; pt_avatar := Some "B";
                  pt_socketId := "b2"; pt_audio := true; pt_video := true;
                  pt_screenshare := false; pt_joinTime := 3 |}].
Proof.
  split; [reflexivity|]. split; [vm_compute; reflexivity|].
  destruct (gaming_join_replaces_same_name "b2" (JoinObject "GAME-1" bob) 3
              (connect "b2" w_game) game1 eq_refl eq_refl)
    as (participant & ps' & sent & Hp & Hrooms & Hrepl & _ & _ & _ & Hcount & _).
  exists ps'. rewrite Hrooms, lookup_insert_eq. split; [reflexivity|].
  split; [exact Hcount|].
  rewrite (proj1 (Hrepl 0%nat eq_refl)), Hp. reflexivity.
Defined.

(** ** Teaching rooms: approval and confirmation *)

Lemma jm_get_map_values {V : Type} (g : V → V) k (m : list (string * V)) :
  jm_get k (map (λ kv : string * V, (kv.1, g kv.2)) m) = g <$> jm_get k m.
Proof.
  induction m as [|[k0 v0] m IH]; simpl; [done|].
  by destruct (decide (k = k0)).
Qed.








(** ** The poll heap along a step *)

Lemma mk_options_fresh options index :
  Forall (λ opt, po_votes opt = 0 ∧ po_voters opt = []) (mk_options index options).
Proof.
  revert index. induction options as [|o options IH]; intros index; simpl; [done|].
  constructor; [done|apply IH].
Qed.

Lemma timer_callback_heap tm w : heap_step (pollHeap w) (pollHeap (timer_callback tm w)).
Proof.
  unfold timer_callback, get_poll.
  destruct (eventPolls w !! tm_pollId tm) as [r|]; [|constructor].
  destruct (pollHeap w !! r) as [o|] eqn:Ho; [|constructor].
  destruct (obj_status o) eqn:Hst; [|constructor].
  assert (heap_step (pollHeap w) (<[r := close_obj o]> (pollHeap w))).
  { eapply heap_rewrite; [done..|constructor]. }
  by destruct (tm_notify tm) as [[sid eventId]|].
Qed.

Lemma votePoll_heap pollId optionId userId w :
  heap_step (pollHeap w) (pollHeap (votePoll pollId optionId userId w).1).
Proof.
  unfold votePoll, get_poll.
  destruct (eventPolls w !! pollId) as [r|]; [|constructor].
  destruct (pollHeap w !! r) as [o|] eqn:Ho; [|constructor].
  destruct (obj_status o) eqn:Hst; [|constructor].
  destruct o as [poll|poll].
  - destruct (hasVoted userId poll) eqn:Hv; [constructor|].
    destruct (js_find _ (pl_options poll)) as [opt|] eqn:Hfind; [|constructor].
    cbn. eapply heap_rewrite; [done..|].
    eapply change_vote; [done..|]. by rewrite Hfind.
  - destruct (cp_options (sp_client poll)); constructor.
Qed.

Lemma event_vote_poll_heap sid pollId optionId userId w :
  heap_step (pollHeap w) (pollHeap (event_vote_poll sid pollId optionId userId w)).
Proof.
  unfold event_vote_poll, get_poll.
  destruct (eventPolls w !! pollId) as [r|]; [|constructor].
  destruct (pollHeap w !! r) as [o|] eqn:Ho; [|constructor].
  destruct o as [poll|poll]; [constructor|].
  destruct (sp_status poll) eqn:Hst; [|constructor].
  destruct (no_vote_yet userId (sp_votes poll)); [|constructor].
  cbn.
  assert (heap_step (pollHeap w)
            (<[r := SockPoll (sp_with_votes (<[userId:=optionId]> (sp_votes poll)) poll)]>
               (pollHeap w))).
  { eapply heap_rewrite; [done..|]. by eapply change_socket_vote. }
  by destruct (events w !! sp_eventId poll).
Qed.

Lemma step_heap a w : heap_step (pollHeap w) (pollHeap (step a w)).
Proof.
  destruct a; cbn [step].
  - constructor.
  - unfold on_disconnect, srv_disconnect, handleUserDisconnect, srv_disconnecting.
    repeat case_match; cbn; rewrite ?pollHeap_emit_all; cbn;
      rewrite ?pollHeap_emit_all; repeat case_match; cbn; constructor.
  - unfold on_create_room, srv_create_room, rtc_create_room.
    repeat case_match; cbn; rewrite ?pollHeap_socket_join; cbn;
      rewrite ?pollHeap_socket_join; constructor.
  - unfold on_join_room, srv_join_room, rtc_join_room_string. cbn.
    rewrite pollHeap_socket_join. constructor.
  - unfold join_room_old, join_event, join_gaming, join_teaching.
    repeat case_match; cbn; rewrite ?pollHeap_socket_join; constructor.
  - unfold approve_join. repeat case_match; constructor.
  - constructor.
  - unfold confirm_join. repeat case_match; cbn; rewrite ?pollHeap_socket_join;
      constructor.
  - unfold handleUserLeaveRoom. repeat case_match; constructor.
  - unfold event_toggle_chat. repeat case_match; constructor.
  - unfold event_send_message. repeat case_match; constructor.
  - unfold event_end. repeat case_match; constructor.
  - unfold event_start_poll. destruct (events w !! eventId); [|constructor].
    cbn. apply heap_new; [done|]. intros p [=].
  - apply event_vote_poll_heap.
  - constructor.
  - unfold createPoll. destruct (events w !! eventId); [|constructor].
    destruct options as [options|]; [|constructor].
    cbn. apply heap_new; [done|]. intros p [= <-]. cbn.
    split; [done|apply mk_options_fresh].
  - apply votePoll_heap.
  - unfold timer_fire. destruct (timers w !! n) as [tm|]; [|constructor].
    apply (timer_callback_heap tm (set_timers (delete n (timers w)) w)).
Qed.

(** ** Votes and voter lists *)

Lemma hasVoted_spec userId p :
  hasVoted userId p = true ↔ ∃ o, o ∈ pl_options p ∧ userId ∈ po_voters o.
Proof.
  unfold hasVoted. rewrite existsb_exists. split.
  - intros (o & Hin & Hb). exists o. apply bool_decide_eq_true in Hb.
    split; [by apply list_elem_of_In|done].
  - intros (o & Hin & Hu). exists o. split; [by apply list_elem_of_In|].
    by apply bool_decide_eq_true.
Qed.

Lemma elem_of_all_voters u opts :
  u ∈ all_voters opts ↔ ∃ o, o ∈ opts ∧ u ∈ po_voters o.
Proof.
  unfold all_voters. rewrite list_elem_of_In, in_flat_map. split.
  - intros (o & Hin & Hu). exists o. by rewrite !list_elem_of_In.
  - intros (o & Hin & Hu). exists o. by rewrite <- !list_elem_of_In.
Qed.

Lemma vote_option_sum optionId userId opts :
  is_Some (js_find (λ opt, po_id opt =? optionId) opts) →
  sum_votes (vote_option optionId userId opts) = sum_votes opts + 1.
Proof.
  induction opts as [|o opts IH]; simpl; [by intros [x Hx]|].
  destruct (po_id o =? optionId); simpl; [lia|].
  intros H. rewrite IH by done. lia.
Qed.

Lemma vote_option_voters optionId userId opts :
  is_Some (js_find (λ opt, po_id opt =? optionId) opts) →
  all_voters (vote_option optionId userId opts) ≡ₚ userId :: all_voters opts.
Proof.
  unfold all_voters.
  induction opts as [|o opts IH]; simpl; [by intros [x Hx]|].
  destruct (po_id o =? optionId); simpl.
  - intros _. rewrite <- app_assoc. simpl.
    by rewrite <- Permutation_middle.
  - intros H. rewrite IH by done. by rewrite <- Permutation_middle.
Qed.

Lemma add_vote_ok optionId userId p :
  hasVoted userId p = false →
  is_Some (js_find (λ opt, po_id opt =? optionId) (pl_options p)) →
  poll_ok p → poll_ok (add_vote optionId userId p).
Proof.
  intros Hv Hfind [Hsum Hnd]. split; cbn.
  - rewrite vote_option_sum by done. lia.
  - rewrite vote_option_voters by done. apply NoDup_cons. split; [|done].
    rewrite elem_of_all_voters. intros Hin.
    apply hasVoted_spec in Hin. congruence.
Qed.

Lemma add_vote_records optionId userId p :
  is_Some (js_find (λ opt, po_id opt =? optionId) (pl_options p)) →
  hasVoted userId (add_vote optionId userId p) = true.
Proof.
  intros Hfind. apply hasVoted_spec. apply elem_of_all_voters. cbn.
  rewrite vote_option_voters by done. by left.
Qed.

Lemma fresh_poll_ok p :
  pl_totalVotes p = 0 →
  Forall (λ opt, po_votes opt = 0 ∧ po_voters opt = []) (pl_options p) →
  poll_ok p.
Proof.
  intros Htot Hall. unfold poll_ok, sum_votes, all_voters. rewrite Htot.
  induction Hall as [|o opts [Hv Hl] Hall [IH1 IH2]]; simpl.
  - split; [done|constructor].
  - rewrite Hv, Hl, IH1. done.
Qed.

Lemma obj_change_ok o o' : obj_change o o' → obj_ok o → obj_ok o'.
Proof.
  intros [|p optionId userId -> Hv Hfind|p optionId userId ->]; cbn.
  - by destruct o.
  - by apply add_vote_ok.
  - done.
Qed.

Lemma heap_step_ok h h' : heap_step h h' → Forall obj_ok h → Forall obj_ok h'.
Proof.
  intros [|o Hst Hfresh|r o o' Hr Hst Hch] Hok; [done| |].
  - apply Forall_app. split; [done|]. constructor; [|done].
    destruct o as [p|p]; [|done]. cbn.
    destruct (Hfresh p eq_refl). by apply fresh_poll_ok.
  - apply Forall_insert; [done|]. eapply obj_change_ok; [done|].
    eapply Forall_lookup_1; eauto.
Qed.

Lemma run_heap_ok tr w : Forall obj_ok (pollHeap w) → Forall obj_ok (pollHeap (run tr w)).
Proof.
  intros Hok. induction tr as [|a tr IH] using rev_ind; [done|].
  rewrite run_snoc. eapply heap_step_ok; [apply step_heap|done].
Qed.

Lemma concat_NoDup_one_list (ls : list (list string)) i j a b u :
  NoDup (concat ls) → ls !! i = Some a → ls !! j = Some b →
  u ∈ a → u ∈ b → i = j.
Proof.
  revert i j. induction ls as [|l ls IH]; intros i j Hnd Hi Hj Ha Hb; [done|].
  simpl in Hnd. apply NoDup_app in Hnd as (Hl & Hdisj & Hrest).
  assert (Hin : ∀ k c, ls !! k = Some c → u ∈ c → u ∈ concat ls).
  { intros k c Hk Hc. apply list_elem_of_In, in_concat. exists c.
    split; apply list_elem_of_In; [by eapply list_elem_of_lookup_2|done]. }
  destruct i as [|i], j as [|j]; simpl in *.
  - done.
  - injection Hi as ->. exfalso. eapply Hdisj; eauto.
  - injection Hj as ->. exfalso. eapply Hdisj; eauto.
  - f_equal. eauto.
Qed.

Lemma poll_ok_one_option p : poll_ok p → one_option_per_voter p.
Proof.
  intros [_ Hnd] i j oi oj u Hi Hj Hui Huj.
  unfold all_voters in Hnd. rewrite flat_map_concat_map in Hnd.
  apply (concat_NoDup_one_list (map po_voters (pl_options p)) i j
           (po_voters oi) (po_voters oj) u); [done| | |done..].
  - change (map po_voters (pl_options p)) with (po_voters <$> pl_options p).
    by rewrite list_lookup_fmap, Hi.
  - change (map po_voters (pl_options p)) with (po_voters <$> pl_options p).
    by rewrite list_lookup_fmap, Hj.
Qed.

(** ** The poll invariant *)

Lemma createPoll_stores eventId question options duration now w w' poll :
  createPoll eventId question options duration now w = (w', Ok_poll poll) →
  pl_id poll = poll_id (ck_id now)
  ∧ get_poll w' (poll_id (ck_id now)) = Some (length (pollHeap w), RestPoll poll)
  ∧ pollHeap w' = pollHeap w ++ [RestPoll poll]
  ∧ pl_status poll = PollActive
  ∧ pl_totalVotes poll = 0
  ∧ Forall (λ opt, po_votes opt = 0 ∧ po_voters opt = []) (pl_options poll).
Proof.
  unfold createPoll. destruct (events w !! eventId) as [event|]; [|done].
  destruct options as [options|]; [|done].
  intros [= <- <-]. cbn. repeat split; try done.
  - unfold get_poll. cbn. rewrite lookup_insert_eq.
    rewrite lookup_app_r by lia. by rewrite Nat.sub_diag.
  - apply mk_options_fresh.
Qed.

Lemma votePoll_success pollId optionId userId w w' poll' :
  votePoll pollId optionId userId w = (w', Ok_poll poll') →
  ∃ r poll,
    get_poll w pollId = Some (r, RestPoll poll)
    ∧ pl_status poll = PollActive
    ∧ hasVoted userId poll = false
    ∧ is_Some (js_find (λ opt, po_id opt =? optionId) (pl_options poll))
    ∧ poll' = add_vote optionId userId poll
    ∧ w' = set_pollHeap (<[r := RestPoll poll']> (pollHeap w)) w.
Proof.
  unfold votePoll. destruct (get_poll w pollId) as [[r o]|] eqn:Hget; [|done].
  destruct (obj_status o) eqn:Hst; [|done].
  destruct o as [poll|poll].
  - destruct (hasVoted userId poll) eqn:Hv; [done|].
    destruct (js_find _ (pl_options poll)) as [opt|] eqn:Hfind; [|done].
    intros [= <- <-]. exists r, poll. rewrite Hfind. eauto 10.
  - by destruct (cp_options (sp_client poll)).
Qed.

(** C1. At every moment of every run, each poll made by [createPoll] has
    [totalVotes] equal to the sum of its options' vote counts, and no
    subject id is in the voter list of two options (nor twice in one).
    [createPoll] stores a poll with all counts 0, [totalVotes] 0 and empty
    voter lists, and a successful [votePoll] adds one to the chosen option's
    count and to [totalVotes], records the voter, and keeps the property. *)
Theorem poll_votes_add_up :
  (∀ tr r p,
     pollHeap (run tr init) !! r = Some (RestPoll p) →
     sum_votes (pl_options p) = pl_totalVotes p
     ∧ one_option_per_voter p
     ∧ NoDup (all_voters (pl_options p)))
  ∧ (∀ eventId question options duration now w w' poll,
       createPoll eventId question options duration now w = (w', Ok_poll poll) →
       get_poll w' (pl_id poll) = Some (length (pollHeap w), RestPoll poll)
       ∧ pl_totalVotes poll = 0
       ∧ Forall (λ opt, po_votes opt = 0 ∧ po_voters opt = []) (pl_options poll)
       ∧ poll_ok poll)
  ∧ (∀ pollId optionId userId w w' poll',
       votePoll pollId optionId userId w = (w', Ok_poll poll') →
       ∃ r poll,
         get_poll w pollId = Some (r, RestPoll poll)
         ∧ pollHeap w' = <[r := RestPoll poll']> (pollHeap w)
         ∧ pl_totalVotes poll' = pl_totalVotes poll + 1
         ∧ sum_votes (pl_options poll') = sum_votes (pl_options poll) + 1
         ∧ hasVoted userId poll' = true
         ∧ (poll_ok poll → poll_ok poll')).
Proof.
  split; [|split].
  - intros tr r p Hr.
    assert (Hok : poll_ok p).
    { pose proof (run_heap_ok tr init (Forall_nil_2 _)) as Hall.
      apply (Forall_lookup_1 _ _ _ _ Hall Hr). }
    split; [apply Hok|]. split; [by apply poll_ok_one_option|apply Hok].
  - intros eventId question options duration now w w' poll Hc.
    destruct (createPoll_stores _ _ _ _ _ _ _ _ Hc) as (Hid & Hget & _ & _ & Ht & Hall).
    rewrite Hid. repeat split; [done..|by apply fresh_poll_ok| ].
    by apply fresh_poll_ok.
  - intros pollId optionId userId w w' poll' Hv.
    destruct (votePoll_success _ _ _ _ _ _ Hv) as (r & poll & Hget & Hst & Hnv & Hf & -> & ->).
    exists r, poll. repeat split; try done.
    + cbn. by apply vote_option_sum.
    + by apply add_vote_records.
    + by apply add_vote_ok.
    + by apply add_vote_ok.
Qed.

Lemma poll_votes_add_up_witness :
  ∃ p,
    pollHeap w_poll !! 0%nat = Some (RestPoll p)
    ∧ pl_totalVotes p = 1
    ∧ sum_votes (pl_options p) = pl_totalVotes p
    ∧ one_option_per_voter p.
Proof.
  destruct (pollHeap w_poll !! 0%nat) as [[p|p]|] eqn:Hp;
    [|vm_compute in Hp; discriminate..].
  exists p. split; [reflexivity|].
  split; [vm_compute in Hp; by injection Hp as <-|].
  destruct poll_votes_add_up as (Hinv & _).
  assert (E : w_poll =
    run [Connect "h"; Connect "a";
         HttpCreateEvent (Some "Launch") None "Hana" "hana@example.org" "E1" 1;
         CreateRoom "h" "EVENT-E1" "Hana" 2;
         HttpCreatePoll "EVENT-E1" "Which day?" (Some ["Mon"; "Tue"]) (Some 30) reads1000;
         HttpVotePoll "POLL-1000" 1 "u1"] init).
  { unfold w_poll, w_event, w_event_created. by rewrite <- !run_app. }
  rewrite E in Hp.
  destruct (Hinv _ 0%nat p Hp) as (Hsum & Hone & _).
  split; assumption.
Defined.

(** ** Refused votes *)




(** ** Poll expiry *)

Lemma heap_step_closed_frozen h h' r o :
  heap_step h h' → h !! r = Some o → obj_status o = PollClosed → h' !! r = Some o.
Proof.
  intros [|o1 _ _|r1 o1 o1' Hr1 Hst1 _] Hr Hst; [done| |].
  - rewrite lookup_app_l; [done|]. by eapply lookup_lt_Some.
  - destruct (decide (r1 = r)) as [->|Hne].
    + rewrite Hr in Hr1. injection Hr1 as <-. congruence.
    + by rewrite list_lookup_insert_ne.
Qed.

Lemma run_closed_frozen tr w r o :
  pollHeap w !! r = Some o → obj_status o = PollClosed →
  pollHeap (run tr w) !! r = Some o.
Proof.
  intros Hr Hst. induction tr as [|a tr IH] using rev_ind; [done|].
  rewrite run_snoc. eapply heap_step_closed_frozen; [apply step_heap|done..].
Qed.

Lemma close_obj_closed o : obj_status (close_obj o) = PollClosed.
Proof. by destruct o. Qed.

Lemma js_or_num_nonzero D dflt : D ≠ 0 → js_or_num (Some D) dflt = D.
Proof. intros H. unfold js_or_num. by rewrite (proj2 (Z.eqb_neq D 0) H). Qed.

Lemma timer_delay_seconds D : 1 ≤ D ≤ 2147483 → timer_delay (D * 1000) = D * 1000.
Proof.
  intros HD. unfold timer_delay, TIMEOUT_MAX.
  destruct (Z.leb_spec 1 (D * 1000)); [|lia].
  destruct (Z.leb_spec (D * 1000) 2147483647); [done|lia].
Qed.

Lemma timer_delay_out_of_range D :
  D < 0 ∨ 2147483 < D → timer_delay (D * 1000) = 1.
Proof.
  intros HD. unfold timer_delay, TIMEOUT_MAX.
  destruct (Z.leb_spec 1 (D * 1000)); [|done].
  destruct (Z.leb_spec (D * 1000) 2147483647); [lia|done].
Qed.

(** C3, as amended. A poll gets its timer when it is created, set with
    [(duration || 60) * 1000]: an absent or zero duration counts as 60
    seconds; a duration [D] from 1 to 2147483 seconds gives a delay of [D]
    seconds; a negative one, or one above 2147483 seconds, is beyond what a
    timer of Node takes and gives a delay of one millisecond. A timer fires
    once. When it fires and the poll stored under its poll id is active,
    that poll becomes closed (and the timer of the socket handler sends
    [event-poll-ended]); with no such poll, or a closed one, nothing
    happens. A closed poll object never changes again through any run: it
    is not reopened and takes no further vote, and both vote handlers leave
    the world as it is. *)
Theorem poll_expiry :
  (∀ eventId question options duration now w w' poll,
     createPoll eventId question options duration now w = (w', Ok_poll poll) →
     timers w' =
       timers w ++ [{| tm_armedAt := ck_timer now;
                       tm_delay := timer_delay (pl_duration poll * 1000);
                       tm_pollId := pl_id poll; tm_notify := None |}]
     ∧ pl_createdAt poll = ck_createdAt now
     ∧ pl_expiresAt poll = new_Date (ck_expiresAt now + pl_duration poll * 1000)
     ∧ pl_status poll = PollActive
     ∧ (∀ D, duration = Some D → D ≠ 0 → pl_duration poll = D)
     ∧ (duration = None ∨ duration = Some 0 → pl_duration poll = 60))
  ∧ (∀ sid eventId poll now armedAt w event,
       events w !! eventId = Some event →
       timers (event_start_poll sid eventId poll now armedAt w) =
         timers w ++ [{| tm_armedAt := armedAt;
                         tm_delay :=
                           timer_delay (js_or_num (cp_duration poll) 60 * 1000);
                         tm_pollId := poll_id now;
                         tm_notify := Some (sid, eventId) |}]
       ∧ (∃ r o, get_poll (event_start_poll sid eventId poll now armedAt w) (poll_id now)
                   = Some (r, o)
                 ∧ obj_status o = PollActive)
       ∧ (∀ D, cp_duration poll = Some D → D ≠ 0 →
               js_or_num (cp_duration poll) 60 = D)
       ∧ (cp_duration poll = None ∨ cp_duration poll = Some 0 →
          js_or_num (cp_duration poll) 60 = 60))
  ∧ (∀ D, (1 ≤ D ≤ 2147483 → timer_delay (D * 1000) = D * 1000)
          ∧ (D < 0 ∨ 2147483 < D → timer_delay (D * 1000) = 1))
  ∧ (∀ n tm w,
       timers w !! n = Some tm →
       timers (timer_fire n w) = delete n (timers w)
       ∧ (∀ r o,
            get_poll w (tm_pollId tm) = Some (r, o) → obj_status o = PollActive →
            pollHeap (timer_fire n w) = <[r := close_obj o]> (pollHeap w)
            ∧ (obj_status <$> pollHeap (timer_fire n w) !! r) = Some PollClosed
            ∧ emitted w (timer_fire n w) =
                match tm_notify tm with
                | Some (sid, eventId) =>
                    [{| target := SocketTo sid eventId; ev := "event-poll-ended";
                        payload := P_string (tm_pollId tm);
                        rcpts := in_room (sockets w) eventId ∖ {[sid]} |}]
                | None => []
                end)
       ∧ ((get_poll w (tm_pollId tm) = None
           ∨ ∃ r o, get_poll w (tm_pollId tm) = Some (r, o)
                    ∧ obj_status o = PollClosed) →
          timer_fire n w = set_timers (delete n (timers w)) w))
  ∧ (∀ tr w r o,
       pollHeap w !! r = Some o → obj_status o = PollClosed →
       pollHeap (run tr w) !! r = Some o)
  ∧ (∀ w pollId r o sid optionId userId,
       get_poll w pollId = Some (r, o) → obj_status o = PollClosed →
       votePoll pollId optionId userId w = (w, Err 400 "Poll is not active")
       ∧ event_vote_poll sid pollId optionId userId w = w).
Proof.
  split; [|split; [|split; [|split; [|split]]]].
  - intros eventId question options duration now w w' poll.
    unfold createPoll. destruct (events w !! eventId) as [event|]; [|done].
    destruct options as [options|]; [|done].
    intros [= <- <-]. cbn. repeat split.
    + intros D -> HD. by apply js_or_num_nonzero.
    + by intros [->| ->].
  - intros sid eventId poll now armedAt w event Hev.
    unfold event_start_poll. rewrite Hev. cbn. split; [done|]. split; [|split].
    + unfold get_poll. cbn. rewrite lookup_insert_eq.
      rewrite lookup_app_r by lia. rewrite Nat.sub_diag. cbn. eauto.
    + intros D -> HD. by apply js_or_num_nonzero.
    + by intros [->| ->].
  - intros D. split; [apply timer_delay_seconds|apply timer_delay_out_of_range].
  - intros n tm w Hn. unfold timer_fire. rewrite Hn.
    split; [|split].
    + unfold timer_callback, get_poll. cbn.
      repeat case_match; reflexivity.
    + intros r o Hget Hst. unfold timer_callback.
      change (get_poll (set_timers (delete n (timers w)) w) (tm_pollId tm))
        with (get_poll w (tm_pollId tm)).
      rewrite Hget, Hst. cbn.
      assert (Hr : (r < length (pollHeap w))%nat).
      { unfold get_poll in Hget. destruct (eventPolls w !! tm_pollId tm); [|done].
        destruct (pollHeap w !! _) eqn:E; [|done]. injection Hget as -> ->.
        by eapply lookup_lt_Some. }
      destruct (tm_notify tm) as [[sid eventId]|]; cbn.
      * split; [done|]. rewrite list_lookup_insert_eq by done. cbn.
        rewrite close_obj_closed. split; [done|]. by apply emitted_app.
      * split; [done|]. rewrite list_lookup_insert_eq by done. cbn.
        rewrite close_obj_closed. split; [done|].
        unfold emitted. cbn. apply drop_all.
    + unfold timer_callback.
      change (get_poll (set_timers (delete n (timers w)) w) (tm_pollId tm))
        with (get_poll w (tm_pollId tm)).
      intros [Hnone|(r & o & Hget & Hst)].
      * by rewrite Hnone.
      * by rewrite Hget, Hst.
  - apply run_closed_frozen.
  - intros w pollId r o sid optionId userId Hget Hst. split.
    + unfold votePoll. by rewrite Hget, Hst.
    + unfold event_vote_poll. rewrite Hget. destruct o as [p|p]; [done|].
      cbn in Hst. by rewrite Hst.
Qed.

Lemma poll_expiry_witness :
  timers w_poll !! 0%nat =
    Some {| tm_armedAt := 1001; tm_delay := 30000; tm_pollId := "POLL-1000";
            tm_notify := None |}
  ∧ get_poll w_poll "POLL-1000" = Some (0%nat, RestPoll poll1000)
  ∧ pollHeap (timer_fire 0 w_poll) = [RestPoll (pl_with_status PollClosed poll1000)]
  ∧ votePoll "POLL-1000" 0 "u2" (timer_fire 0 w_poll) =
      (timer_fire 0 w_poll, Err 400 "Poll is not active")
  ∧ pollHeap
      (run [HttpVotePoll "POLL-1000" 0 "u2";
            HttpCreatePoll "EVENT-E1" "Again?" (Some ["y"]) None reads1000;
            HttpVotePoll "POLL-1000" 0 "u2"] (timer_fire 0 w_poll)) !! 0%nat
    = Some (RestPoll (pl_with_status PollClosed poll1000)).
Proof.
  destruct poll_expiry as (_ & _ & _ & Hfire & Hfrozen & Hvote).
  split; [reflexivity|]. split; [reflexivity|].
  destruct (Hfire 0%nat _ w_poll eq_refl) as (_ & Hclose & _).
  destruct (Hclose 0%nat (RestPoll poll1000) eq_refl eq_refl) as (Hheap & _).
  split; [exact Hheap|]. split.
  - apply (Hvote (timer_fire 0 w_poll) "POLL-1000" 0%nat
             (RestPoll (pl_with_status PollClosed poll1000)) "" 0 "u2");
      reflexivity.
  - apply Hfrozen; reflexivity.
Defined.

(** C3, the claim as stated fails. A poll created at time 5000 with duration
    0 is not closed at creation time plus 0 seconds: its timer, the only one
    pending, has a delay of 60000 ms, so it is due at 65000. The same holds
    for a poll started over the socket. *)
Lemma zero_duration_poll_runs_a_minute :
  timers
    (createPoll "EVENT-E1" "Now?" (Some ["yes"; "no"]) (Some 0) (at_once 5000) w_event).1 =
    [{| tm_armedAt := 5000; tm_delay := 60000; tm_pollId := "POLL-5000";
        tm_notify := None |}]
  ∧ timers
      (event_start_poll "h" "EVENT-E1"
         {| cp_question := "Now?"; cp_options := ["yes"; "no"]; cp_duration := Some 0 |}
         5000 5000 w_event) =
    [{| tm_armedAt := 5000; tm_delay := 60000; tm_pollId := "POLL-5000";
        tm_notify := Some ("h", "EVENT-E1") |}]
  ∧ 5000 + 60000 ≠ 5000 + 0 * 1000.
Proof. repeat split; vm_compute; congruence. Qed.

(** ** Losing the host connection *)

Lemma received_app m t name l1 l2 :
  received m t name (l1 ++ l2) = (received m t name l1 + received m t name l2)%nat.
Proof. unfold received. by rewrite List.filter_app, length_app. Qed.

Lemma received_other_name m t name l :
  Forall (λ s, ev s ≠ name) l → received m t name l = 0%nat.
Proof.
  unfold received. induction 1 as [|s l Hs Hl IH]; simpl; [done|].
  rewrite (bool_decide_eq_false_2 (ev s = name)) by done.
  by rewrite andb_false_r.
Qed.

Lemma srv_disconnecting_frame sid w :
  teachingSessions (srv_disconnecting sid w) = teachingSessions w
  ∧ gamingRooms (srv_disconnecting sid w) = gamingRooms w
  ∧ rtcRooms (srv_disconnecting sid w) = rtcRooms w
  ∧ sockets (srv_disconnecting sid w) = sockets w
  ∧ ∃ l, outbox (srv_disconnecting sid w) = outbox w ++ l
         ∧ Forall (λ s, ev s = "user-disconnected") l.
Proof.
  unfold srv_disconnecting.
  destruct (sockets w !! sid) as [[|own [|room rest]]|];
    repeat split; try (exists []; by rewrite app_nil_r).
  eexists. split; [apply outbox_emit|]. by constructor.
Qed.

Lemma handleUserDisconnect_frame sid w :
  teachingSessions (handleUserDisconnect sid w) = teachingSessions w
  ∧ gamingRooms (handleUserDisconnect sid w) = gamingRooms w
  ∧ rtcRooms (handleUserDisconnect sid w) =
      omap fst (map (rtc_disconnect_entry sid) (rtcRooms w))
  ∧ sockets (handleUserDisconnect sid w) = sockets w
  ∧ outbox (handleUserDisconnect sid w) =
      outbox w ++
        map (mk_sent (sockets w))
          (flat_map snd (map (rtc_disconnect_entry sid) (rtcRooms w))).
Proof.
  unfold handleUserDisconnect.
  set (rounds := map (rtc_disconnect_entry sid) (rtcRooms w)).
  set (w1 := set_rtcRooms (omap fst rounds) w).
  generalize (flat_map snd rounds). intros l.
  assert (H : ∀ l w1,
    teachingSessions (emit_all l w1) = teachingSessions w1
    ∧ gamingRooms (emit_all l w1) = gamingRooms w1
    ∧ rtcRooms (emit_all l w1) = rtcRooms w1).
  { clear. unfold emit_all. induction l as [|e l IH]; intros w1; simpl; [done|].
    destruct (IH (emit e.1.1 e.1.2 e.2 w1)) as (-> & -> & ->). done. }
  destruct (H l w1) as (-> & -> & ->).
  rewrite sockets_emit_all, outbox_emit_all. done.
Qed.

Lemma srv_disconnect_frame sid w :
  gamingRooms (srv_disconnect sid w) = gamingRooms w
  ∧ rtcRooms (srv_disconnect sid w) = rtcRooms w
  ∧ sockets (srv_disconnect sid w) = sockets w
  ∧ ∃ l, outbox (srv_disconnect sid w) = outbox w ++ l
         ∧ Forall (λ s, ev s = "student-left") l.
Proof.
  unfold srv_disconnect.
  assert (Helse :
    let m := teachingSessions w in
    let w' := emit_all (student_left_emits sid m)
                (set_teachingSessions
                   (map (λ kv, (kv.1, (student_leaves sid kv.2).1)) m) w) in
    gamingRooms w' = gamingRooms w ∧ rtcRooms w' = rtcRooms w
    ∧ sockets w' = sockets w
    ∧ ∃ l, outbox w' = outbox w ++ l ∧ Forall (λ s, ev s = "student-left") l).
  { cbn zeta. generalize (map (λ kv, (kv.1, (student_leaves sid kv.2).1)) (teachingSessions w)).
    intros m'.
    assert (Hnames : Forall (λ e : Target * string * Payload, e.1.2 = "student-left")
                       (student_left_emits sid (teachingSessions w))).
    { unfold student_left_emits. generalize (teachingSessions w). intros m.
      induction m as [|kv m IH]; simpl; [done|].
      destruct ((student_leaves sid kv.2).2); simpl; [constructor|]; done. }
    revert Hnames. generalize (student_left_emits sid (teachingSessions w)). intros l Hl.
    rewrite sockets_emit_all, outbox_emit_all.
    assert (H : ∀ l w1, gamingRooms (emit_all l w1) = gamingRooms w1
                        ∧ rtcRooms (emit_all l w1) = rtcRooms w1).
    { clear. unfold emit_all. induction l as [|e l IH]; intros w1; simpl; [done|].
      destruct (IH (emit e.1.1 e.1.2 e.2 w1)) as (-> & ->). done. }
    destruct (H l (set_teachingSessions m' w)) as (-> & ->).
    repeat split. eexists. split; [reflexivity|].
    induction Hl; simpl; constructor; done. }
  destruct (find_hostRoomId sid (teachingSessions w)) as [[|c r]|]; [exact Helse| |exact Helse].
  destruct (jm_get _ (teachingSessions w)); repeat split;
    exists []; by rewrite app_nil_r.
Qed.

Lemma on_disconnect_gamingRooms sid w : gamingRooms (on_disconnect sid w) = gamingRooms w.
Proof.
  unfold on_disconnect.
  destruct (srv_disconnect_frame sid
    (handleUserDisconnect sid (leave_all sid (srv_disconnecting sid w)))) as (-> & _).
  destruct (handleUserDisconnect_frame sid (leave_all sid (srv_disconnecting sid w)))
    as (_ & -> & _).
  cbn. by destruct (srv_disconnecting_frame sid w) as (_ & -> & _).
Qed.

Lemma on_disconnect_rtcRooms sid w :
  rtcRooms (on_disconnect sid w) = omap fst (map (rtc_disconnect_entry sid) (rtcRooms w)).
Proof.
  unfold on_disconnect.
  destruct (srv_disconnect_frame sid
    (handleUserDisconnect sid (leave_all sid (srv_disconnecting sid w)))) as (_ & -> & _).
  destruct (handleUserDisconnect_frame sid (leave_all sid (srv_disconnecting sid w)))
    as (_ & _ & -> & _).
  cbn. by destruct (srv_disconnecting_frame sid w) as (_ & _ & -> & _).
Qed.

(** Everything a lost connection makes the process emit: [user-disconnected]
    from the [disconnecting] listener, the emits of [handleUserDisconnect]
    to the channels as they are once the socket has left, and [student-left]
    from the [disconnect] listener of [server.js]. *)
Lemma on_disconnect_emitted sid w :
  ∃ l0 l2,
    emitted w (on_disconnect sid w) =
      l0 ++ map (mk_sent (delete sid (sockets w)))
              (flat_map snd (map (rtc_disconnect_entry sid) (rtcRooms w))) ++ l2
    ∧ Forall (λ s, ev s = "user-disconnected") l0
    ∧ Forall (λ s, ev s = "student-left") l2.
Proof.
  unfold on_disconnect.
  destruct (srv_disconnect_frame sid
    (handleUserDisconnect sid (leave_all sid (srv_disconnecting sid w))))
    as (_ & _ & _ & l2 & Hout2 & Hl2).
  destruct (handleUserDisconnect_frame sid (leave_all sid (srv_disconnecting sid w)))
    as (_ & _ & _ & _ & Hout1).
  destruct (srv_disconnecting_frame sid w) as (_ & _ & Hrtc & Hsock & l0 & Hout0 & Hl0).
  exists l0, l2. split; [|done].
  apply emitted_app. rewrite Hout2, Hout1. cbn. rewrite Hout0, Hrtc, Hsock.
  by rewrite <- !app_assoc.
Qed.

Lemma elem_of_in_room socks room m :
  m ∈ in_room socks room ↔ ∃ rs, socks !! m = Some rs ∧ room ∈ rs.
Proof.
  unfold in_room. rewrite elem_of_dom. unfold is_Some.
  split.
  - intros (rs & Hrs). apply map_lookup_filter_Some in Hrs as [H1 H2]. eauto.
  - intros (rs & H1 & H2). exists rs. by apply map_lookup_filter_Some.
Qed.

Lemma in_room_delete socks room sid m :
  m ∈ in_room (delete sid socks) room ↔ m ∈ in_room socks room ∧ m ≠ sid.
Proof.
  rewrite !elem_of_in_room. split.
  - intros (rs & Hrs & Hin). apply lookup_delete_Some in Hrs as [Hne Hrs]. eauto.
  - intros ((rs & Hrs & Hin) & Hne). exists rs. split; [|done].
    by apply lookup_delete_Some.
Qed.

Lemma jm_wf_unique {V : Type} (m : list (string * V)) k v v' :
  jm_wf m → In (k, v) m → In (k, v') m → v = v'.
Proof.
  unfold jm_wf, jm_keys. induction m as [|[k0 v0] m IH]; simpl; [done|].
  intros Hnd H1 H2. apply NoDup_cons in Hnd as [Hnotin Hnd].
  assert (Hk : ∀ x, In (k, x) m → k ≠ k0).
  { intros x Hx ->. apply Hnotin. apply list_elem_of_In, in_map_iff. by exists (k0, x). }
  destruct H1 as [E1|H1], H2 as [E2|H2].
  - congruence.
  - injection E1 as -> ->. by destruct (Hk v' H2).
  - injection E2 as -> ->. by destruct (Hk v H1).
  - eauto.
Qed.

Lemma rtc_rooms_after_disconnect sid rooms k r :
  In (k, r) (omap fst (map (rtc_disconnect_entry sid) rooms)) →
  ∃ r0, In (k, r0) rooms ∧ rr_hostId r0 ≠ sid.
Proof.
  induction rooms as [|[k0 r0] rooms IH]; simpl; [done|].
  destruct (decide (rr_hostId r0 = sid)) as [Hh|Hh]; simpl.
  - intros H. destruct (IH H) as (r1 & ? & ?). eauto.
  - destruct (jm_has sid (rr_students r0)); simpl.
    + intros [[= <- <-]|H]; [eauto|]. destruct (IH H) as (r1 & ? & ?). eauto.
    + intros [[= <- <-]|H]; [eauto|]. destruct (IH H) as (r1 & ? & ?). eauto.
Qed.

(** The [host-disconnected] notifications for room [roomId] that reach socket
    [m] when [sid] is lost: one, if the handler class has a room under that
    id hosted by [sid] and [m] is in the channel; none otherwise. *)
Lemma rtc_host_disconnected_count sid socks rooms roomId m :
  jm_wf rooms →
  received m (IoTo roomId) "host-disconnected"
    (map (mk_sent socks) (flat_map snd (map (rtc_disconnect_entry sid) rooms))) =
  match jm_get roomId rooms with
  | Some room =>
      if decide (rr_hostId room = sid) then
        if decide (m ∈ in_room socks roomId) then 1%nat else 0%nat
      else 0%nat
  | None => 0%nat
  end.
Proof.
  unfold jm_wf, jm_keys.
  induction rooms as [|[k r] rooms IH]; intros Hnd; [done|].
  apply NoDup_cons in Hnd as [Hnotin Hnd].
  cbn [map flat_map]. rewrite map_app, received_app, IH by done.
  cbn [jm_get]. destruct (decide (roomId = k)) as [->|Hne].
  - assert (Hnone : jm_get k rooms = None).
    { apply jm_get_None. by rewrite <- list_elem_of_In. }
    rewrite Hnone. unfold rtc_disconnect_entry.
    destruct (decide (rr_hostId r = sid)) as [Hh|Hh].
    + unfold received. cbn. rewrite !bool_decide_eq_true_2 by done. cbn.
      destruct (decide (m ∈ in_room socks k)) as [Hin|Hin].
      * by rewrite bool_decide_eq_true_2.
      * by rewrite bool_decide_eq_false_2.
    + destruct (jm_has sid (rr_students r)); unfold received; cbn; [|done].
      rewrite (bool_decide_eq_false_2 ("user-left-webrtc" = "host-disconnected")) by done.
      rewrite (bool_decide_eq_false_2 ("student-left" = "host-disconnected")) by done.
      by rewrite !andb_false_r.
  - assert (H0 : received m (IoTo roomId) "host-disconnected"
                   (map (mk_sent socks) (rtc_disconnect_entry sid (k, r)).2) = 0%nat).
    { unfold rtc_disconnect_entry.
      destruct (decide (rr_hostId r = sid)) as [Hh|Hh].
      - unfold received. cbn.
        rewrite (bool_decide_eq_false_2 (IoTo k = IoTo roomId)) by congruence. done.
      - destruct (jm_has sid (rr_students r)); unfold received; cbn; [|done].
        rewrite (bool_decide_eq_false_2 ("user-left-webrtc" = "host-disconnected")) by done.
        rewrite (bool_decide_eq_false_2 ("student-left" = "host-disconnected")) by done.
        by rewrite !andb_false_r. }
    rewrite H0. done.
Qed.

(** C4, as amended. When the connection that hosts a room is lost, the room
    record of the [WebRTCHandler] under that id is deleted and a lookup there
    finds nothing; every socket still in the room's channel receives exactly
    one [host-disconnected] addressed to that channel, and the lost socket
    none. The entries of [gamingRooms] are not touched. *)
Theorem host_disconnect_deletes_signaling_room sid roomId room w :
  jm_wf (rtcRooms w) →
  jm_get roomId (rtcRooms w) = Some room →
  rr_hostId room = sid →
  jm_get roomId (rtcRooms (on_disconnect sid w)) = None
  ∧ (∀ m, m ∈ in_room (sockets w) roomId → m ≠ sid →
          received m (IoTo roomId) "host-disconnected"
            (emitted w (on_disconnect sid w)) = 1%nat)
  ∧ received sid (IoTo roomId) "host-disconnected"
      (emitted w (on_disconnect sid w)) = 0%nat
  ∧ gamingRooms (on_disconnect sid w) = gamingRooms w.
Proof.
  intros Hwf Hget Hhost.
  assert (Hcount : ∀ m,
    received m (IoTo roomId) "host-disconnected" (emitted w (on_disconnect sid w)) =
    if decide (m ∈ in_room (delete sid (sockets w)) roomId) then 1%nat else 0%nat).
  { intros m. destruct (on_disconnect_emitted sid w) as (l0 & l2 & -> & Hl0 & Hl2).
    rewrite !received_app.
    rewrite (received_other_name _ _ _ l0), (received_other_name _ _ _ l2).
    - rewrite rtc_host_disconnected_count by done. rewrite Hget.
      rewrite decide_True by done. lia.
    - eapply Forall_impl; [exact Hl2|]. intros s ->. done.
    - eapply Forall_impl; [exact Hl0|]. intros s ->. done. }
  split; [|split; [|split]].
  - rewrite on_disconnect_rtcRooms. apply jm_get_None. intros Hin.
    apply in_map_iff in Hin as ([k r] & Hk & Hin). simpl in Hk. subst k.
    apply rtc_rooms_after_disconnect in Hin as (r0 & Hin0 & Hne).
    apply jm_get_In in Hget.
    rewrite (jm_wf_unique _ _ _ _ Hwf Hin0 Hget) in Hne. done.
  - intros m Hm Hne. rewrite Hcount. rewrite decide_True; [done|].
    by apply in_room_delete.
  - rewrite Hcount. rewrite decide_False; [done|].
    rewrite in_room_delete. tauto.
  - apply on_disconnect_gamingRooms.
Qed.

Lemma host_disconnect_deletes_signaling_room_witness :
  jm_wf (rtcRooms w_game)
  ∧ jm_get "GAME-1" (rtcRooms w_game) = Some game1_signaling
  ∧ rr_hostId game1_signaling = "h"
  ∧ "b" ∈ in_room (sockets w_game) "GAME-1"
  ∧ jm_get "GAME-1" (rtcRooms (on_disconnect "h" w_game)) = None
  ∧ received "b" (IoTo "GAME-1") "host-disconnected"
      (emitted w_game (on_disconnect "h" w_game)) = 1%nat.
Proof.
  assert (Hwf : jm_wf (rtcRooms w_game)).
  { unfold jm_wf. cbn. apply NoDup_singleton. }
  assert (Hb : "b" ∈ in_room (sockets w_game) "GAME-1").
  { apply elem_of_in_room. exists ["b"; "GAME-1"]. split; [reflexivity|].
    right. left. }
  destruct (host_disconnect_deletes_signaling_room "h" "GAME-1" game1_signaling
              w_game Hwf eq_refl eq_refl) as (Hgone & Hone & _).
  split; [exact Hwf|]. split; [reflexivity|]. split; [reflexivity|].
  split; [exact Hb|]. split; [exact Hgone|].
  apply Hone; [exact Hb|discriminate].
Defined.

(** C4, the claim as stated fails. In [w_game] socket [h] hosts the gaming
    room [GAME-1]. After [h] is lost the room is still in [gamingRooms], as
    it was, and a join to [GAME-1] finds it: the joiner is answered
    [room-joined], not [room-not-found]. *)
Lemma gaming_room_survives_host_disconnect :
  (gr_hostSocketId <$> gamingRooms w_game !! "GAME-1") = Some "h"
  ∧ gamingRooms (on_disconnect "h" w_game) !! "GAME-1" = gamingRooms w_game !! "GAME-1"
  ∧ gamingRooms (on_disconnect "h" w_game) !! "GAME-1" = Some game1
  ∧ map ev
      (emitted (on_disconnect "h" w_game)
         (join_room_old "b" (JoinObject "GAME-1" bob) 9 (on_disconnect "h" w_game)))
    = ["user-connected"; "room-joined"].
Proof. repeat split; vm_compute; reflexivity. Qed.

(** ** Losing the host of a teaching room *)

Lemma find_hostRoomId_only sid roomId m acc :
  (∀ k s, In (k, s) m → ts_hostSocketId s = sid → k = roomId) →
  fold_left
    (λ hostRoomId (kv : string * Session),
       if decide (ts_hostSocketId kv.2 = sid) then Some kv.1 else hostRoomId) m acc =
  if existsb (λ kv : string * Session, bool_decide (ts_hostSocketId kv.2 = sid)) m
  then Some roomId else acc.
Proof.
  revert acc. induction m as [|[k s] m IH]; intros acc Honly; [done|].
  cbn [fold_left existsb]. rewrite IH by (intros k' s' Hin; apply Honly; by right).
  cbn. destruct (decide (ts_hostSocketId s = sid)) as [Hh|Hh].
  - rewrite bool_decide_eq_true_2 by done. cbn.
    rewrite (Honly k s (or_introl eq_refl) Hh). by destruct (existsb _ m).
  - by rewrite bool_decide_eq_false_2.
Qed.

Lemma teachingSessions_before_srv_disconnect sid w :
  teachingSessions (handleUserDisconnect sid (leave_all sid (srv_disconnecting sid w))) =
  teachingSessions w.
Proof.
  destruct (handleUserDisconnect_frame sid (leave_all sid (srv_disconnecting sid w)))
    as (-> & _).
  cbn. by destruct (srv_disconnecting_frame sid w) as (-> & _).
Qed.

Lemma srv_disconnect_host sid roomId session w :
  roomId ≠ "" →
  jm_get roomId (teachingSessions w) = Some session →
  ts_hostSocketId session = sid →
  (∀ k s, In (k, s) (teachingSessions w) → ts_hostSocketId s = sid → k = roomId) →
  srv_disconnect sid w =
  set_teachingSessions
    (jm_set roomId (ts_with_hostActive (Some false) session) (teachingSessions w)) w.
Proof.
  intros Hne Hget Hhost Honly. unfold srv_disconnect, find_hostRoomId.
  rewrite (find_hostRoomId_only sid roomId) by done.
  assert (Hex : existsb (λ kv : string * Session, bool_decide (ts_hostSocketId kv.2 = sid))
                  (teachingSessions w) = true).
  { apply existsb_exists. exists (roomId, session). split; [by apply jm_get_In|].
    by apply bool_decide_eq_true. }
  rewrite Hex. destruct roomId as [|c r]; [done|]. by rewrite Hget.
Qed.

Lemma rtc_disconnect_names sid socks rooms :
  Forall (λ s, ev s ≠ "user-disconnected")
    (map (mk_sent socks) (flat_map snd (map (rtc_disconnect_entry sid) rooms))).
Proof.
  induction rooms as [|[k r] rooms IH]; [constructor|].
  cbn [map flat_map]. rewrite map_app. apply Forall_app. split; [|exact IH].
  unfold rtc_disconnect_entry.
  destruct (decide (rr_hostId r = sid)); [by repeat constructor|].
  destruct (jm_has sid (rr_students r)); by repeat constructor.
Qed.

(** C8, as amended. Take a teaching room with a non-empty id whose host
    connection hosts no other teaching session. When that connection is lost
    the session stays in [teachingSessions] under its id; its students and
    every other field are as before, except that [hostActive] is now [false];
    the other sessions are untouched. The [disconnect] listener of
    [server.js] emits nothing for it. What is emitted on the loss of the
    connection comes from the two other listeners, and the theorem gives
    the list: first [user-disconnected] from the [disconnecting] listener,
    to the other sockets of the first room the host socket had joined, if
    it had joined one; then what [WebRTCHandler] emits for its own rooms.
    So a socket in the channel of the room gets one [user-disconnected] when
    the room is the first the host socket joined; and it gets one
    [host-disconnected] when [WebRTCHandler] holds a room under the id with
    this socket as host, and none when it holds no room under the id or one
    of another host. *)
Theorem teaching_host_disconnect_keeps_session sid roomId session w :
  roomId ≠ "" →
  jm_get roomId (teachingSessions w) = Some session →
  ts_hostSocketId session = sid →
  (∀ k s, In (k, s) (teachingSessions w) → ts_hostSocketId s = sid → k = roomId) →
  teachingSessions (on_disconnect sid w) =
    jm_set roomId (ts_with_hostActive (Some false) session) (teachingSessions w)
  ∧ (∃ session',
       jm_get roomId (teachingSessions (on_disconnect sid w)) = Some session'
       ∧ ts_hostActive session' = Some false
       ∧ ts_students session' = ts_students session
       ∧ ts_with_hostActive (ts_hostActive session) session' = session)
  ∧ (∀ other, other ≠ roomId →
       jm_get other (teachingSessions (on_disconnect sid w)) =
       jm_get other (teachingSessions w))
  ∧ jm_keys (teachingSessions (on_disconnect sid w)) = jm_keys (teachingSessions w)
  ∧ outbox (srv_disconnect sid w) = outbox w
  ∧ outbox (on_disconnect sid w) =
      outbox (handleUserDisconnect sid (leave_all sid (srv_disconnecting sid w)))
  ∧ emitted w (on_disconnect sid w) =
      match sockets w !! sid with
      | Some (_ :: room :: _) =>
          [{| target := SocketTo sid room; ev := "user-disconnected";
              payload := P_string sid;
              rcpts := in_room (sockets w) room ∖ {[sid]} |}]
      | _ => []
      end
      ++ map (mk_sent (delete sid (sockets w)))
           (flat_map snd (map (rtc_disconnect_entry sid) (rtcRooms w)))
  ∧ (∀ own rest m,
       sockets w !! sid = Some (own :: roomId :: rest) →
       m ∈ in_room (sockets w) roomId → m ≠ sid →
       received m (SocketTo sid roomId) "user-disconnected"
         (emitted w (on_disconnect sid w)) = 1%nat)
  ∧ (jm_wf (rtcRooms w) →
     (∀ room m,
        jm_get roomId (rtcRooms w) = Some room → rr_hostId room = sid →
        m ∈ in_room (sockets w) roomId → m ≠ sid →
        received m (IoTo roomId) "host-disconnected"
          (emitted w (on_disconnect sid w)) = 1%nat)
     ∧ (∀ m,
          jm_get roomId (rtcRooms w) = None
          ∨ (∃ room, jm_get roomId (rtcRooms w) = Some room ∧ rr_hostId room ≠ sid) →
          received m (IoTo roomId) "host-disconnected"
            (emitted w (on_disconnect sid w)) = 0%nat)).
Proof.
  intros Hne Hget Hhost Honly.
  pose proof (teachingSessions_before_srv_disconnect sid w) as Hts.
  assert (Hon : on_disconnect sid w =
    set_teachingSessions
      (jm_set roomId (ts_with_hostActive (Some false) session) (teachingSessions w))
      (handleUserDisconnect sid (leave_all sid (srv_disconnecting sid w)))).
  { unfold on_disconnect.
    rewrite (srv_disconnect_host sid roomId session) by (rewrite ?Hts; done).
    by rewrite Hts. }
  set (first_room :=
         match sockets w !! sid with
         | Some (_ :: room :: _) =>
             [{| target := SocketTo sid room; ev := "user-disconnected";
                 payload := P_string sid;
                 rcpts := in_room (sockets w) room ∖ {[sid]} |}]
         | _ => []
         end).
  set (rtc := map (mk_sent (delete sid (sockets w)))
                (flat_map snd (map (rtc_disconnect_entry sid) (rtcRooms w)))).
  assert (Hem : emitted w (on_disconnect sid w) = first_room ++ rtc).
  { apply emitted_app. rewrite Hon. cbn [outbox set_teachingSessions].
    destruct (handleUserDisconnect_frame sid (leave_all sid (srv_disconnecting sid w)))
      as (_ & _ & _ & _ & ->).
    destruct (srv_disconnecting_frame sid w) as (_ & _ & Hrtc & Hsock & _).
    cbn. rewrite Hrtc, Hsock. fold rtc. rewrite app_assoc. f_equal.
    unfold srv_disconnecting, first_room.
    destruct (sockets w !! sid) as [[|own [|room rest]]|]; rewrite ?app_nil_r; done. }
  split; [by rewrite Hon|]. split; [|split; [|split; [|split; [|split; [|split; [|split]]]]]].
  - exists (ts_with_hostActive (Some false) session). rewrite Hon. cbn.
    rewrite jm_get_set_eq. repeat split. by destruct session.
  - intros other Hother. rewrite Hon. cbn. by apply jm_get_set_ne.
  - rewrite Hon. cbn. apply jm_keys_set_present. eauto.
  - by rewrite (srv_disconnect_host sid roomId session).
  - by rewrite Hon.
  - exact Hem.
  - intros own rest m Hrooms Hm Hmne. rewrite Hem, received_app.
    rewrite (received_other_name _ _ _ rtc) by apply rtc_disconnect_names.
    unfold first_room. rewrite Hrooms. unfold received. cbn.
    rewrite !bool_decide_eq_true_2; [done|set_solver|done|done].
  - intros Hwf.
    assert (Hcount : ∀ m,
      received m (IoTo roomId) "host-disconnected" (emitted w (on_disconnect sid w)) =
      match jm_get roomId (rtcRooms w) with
      | Some room =>
          if decide (rr_hostId room = sid) then
            if decide (m ∈ in_room (delete sid (sockets w)) roomId) then 1%nat else 0%nat
          else 0%nat
      | None => 0%nat
      end).
    { intros m. rewrite Hem, received_app.
      rewrite (received_other_name _ _ _ first_room).
      - unfold rtc. by rewrite rtc_host_disconnected_count.
      - unfold first_room.
        destruct (sockets w !! sid) as [[|own [|room rest]]|]; by repeat constructor. }
    split.
    + intros room m Hroom Hh Hm Hmne. rewrite Hcount, Hroom.
      rewrite decide_True by done. rewrite decide_True; [done|].
      by apply in_room_delete.
    + intros m [Hnone|(room & Hroom & Hh)]; rewrite Hcount.
      * by rewrite Hnone.
      * rewrite Hroom. by rewrite decide_False.
Qed.

Lemma teaching_host_disconnect_keeps_session_witness :
  "MATH1" ≠ ""
  ∧ jm_get "MATH1" (teachingSessions w_class) = Some math1
  ∧ ts_hostSocketId math1 = "t"
  ∧ jm_get "MATH1" (teachingSessions (on_disconnect "t" w_class)) =
      Some (ts_with_hostActive (Some false) math1)
  ∧ outbox (srv_disconnect "t" w_class) = outbox w_class
  ∧ received "s" (IoTo "MATH1") "host-disconnected"
      (emitted w_class (on_disconnect "t" w_class)) = 1%nat
  ∧ received "s" (IoTo "MATH1") "host-disconnected"
      (emitted (handleUserLeaveRoom "t" "MATH1" w_class)
         (on_disconnect "t" (handleUserLeaveRoom "t" "MATH1" w_class))) = 0%nat.
Proof.
  assert (Honly : ∀ k s, In (k, s) (teachingSessions w_class) →
                         ts_hostSocketId s = "t" → k = "MATH1").
  { intros k s [[= <- <-]|[]] _. reflexivity. }
  destruct (teaching_host_disconnect_keeps_session "t" "MATH1" math1 w_class
              ltac:(discriminate) eq_refl eq_refl Honly)
    as (Hts & _ & _ & _ & Hsrv & _ & _ & _ & Hrtc).
  split; [discriminate|]. split; [reflexivity|]. split; [reflexivity|].
  split; [rewrite Hts; apply jm_get_set_eq|]. split; [exact Hsrv|]. split.
  - assert (Hwf : jm_wf (rtcRooms w_class)).
    { unfold jm_wf. cbn. apply NoDup_singleton. }
    destruct (Hrtc Hwf) as [Hone _].
    apply (Hone {| rr_hostId := "t"; rr_hostName := "teacher"; rr_students := [] |} "s");
      [reflexivity|reflexivity| |discriminate].
    apply elem_of_in_room. exists ["s"; "MATH1"]. split; [reflexivity|]. right. left.
  - assert (Honly' : ∀ k s, In (k, s) (teachingSessions (handleUserLeaveRoom "t" "MATH1" w_class)) →
                            ts_hostSocketId s = "t" → k = "MATH1").
    { intros k s [[= <- <-]|[]] _. reflexivity. }
    destruct (teaching_host_disconnect_keeps_session "t" "MATH1" math1
                (handleUserLeaveRoom "t" "MATH1" w_class)
                ltac:(discriminate) eq_refl eq_refl Honly')
      as (_ & _ & _ & _ & _ & _ & _ & _ & Hrtc').
    assert (Hwf : jm_wf (rtcRooms (handleUserLeaveRoom "t" "MATH1" w_class))).
    { unfold jm_wf. cbn. apply NoDup_nil_2. }
    destruct (Hrtc' Hwf) as [_ Hnone]. apply Hnone. left. reflexivity.
Defined.

(** C8, the claim as stated fails. In [w_class] socket [t] hosts the teaching
    room [MATH1] and student Ann is in it on socket [s]. When [t] is lost, [s]
    is sent two notifications: [user-disconnected] by the [disconnecting]
    listener and [host-disconnected] by [WebRTCHandler], which holds a room
    for [MATH1] since [create-room]. *)
Lemma teaching_host_disconnect_notifies_students :
  (ts_hostSocketId <$> jm_get "MATH1" (teachingSessions w_class)) = Some "t"
  ∧ map (λ s, (target s, ev s, elements (rcpts s)))
      (emitted w_class (on_disconnect "t" w_class)) =
    [(SocketTo "t" "MATH1", "user-disconnected", ["s"]);
     (IoTo "MATH1", "host-disconnected", ["s"])].
Proof. split; vm_compute; reflexivity. Qed.

(** * Further properties *)

(** ** The poll store along a request *)

Ltac polls_untouched :=
  repeat case_match; apply ps_same; store_frame; reflexivity.

Lemma timer_callback_poll_step n tm w :
  timers w !! n = Some tm →
  poll_step w (timer_callback tm (set_timers (delete n (timers w)) w)).
Proof.
  intros Hn. unfold timer_callback, get_poll. cbn.
  destruct (eventPolls w !! tm_pollId tm) as [r|] eqn:Hid; [|by apply (ps_fire _ _ n)].
  destruct (pollHeap w !! r) as [o|] eqn:Ho; [|by apply (ps_fire _ _ n)].
  destruct (obj_status o) eqn:Hst; [|by apply (ps_fire _ _ n)].
  apply (ps_rewrite _ _ (tm_pollId tm) r o (close_obj o)); try done.
  - constructor.
  - by destruct (tm_notify tm) as [[sid eventId]|].
  - by destruct (tm_notify tm) as [[sid eventId]|].
  - right. exists n. by destruct (tm_notify tm) as [[sid eventId]|].
Qed.

Lemma votePoll_poll_step pollId optionId userId w :
  poll_step w (votePoll pollId optionId userId w).1.
Proof.
  unfold votePoll, get_poll.
  destruct (eventPolls w !! pollId) as [r|] eqn:Hid; [|by apply ps_same].
  destruct (pollHeap w !! r) as [o|] eqn:Ho; [|by apply ps_same].
  destruct (obj_status o) eqn:Hst; [|by apply ps_same].
  destruct o as [poll|poll].
  - destruct (hasVoted userId poll) eqn:Hv; [by apply ps_same|].
    destruct (js_find _ (pl_options poll)) as [opt|] eqn:Hfind; [|by apply ps_same].
    cbn. eapply (ps_rewrite _ _ pollId r); try done; [|by left].
    eapply rw_vote; [done..|]. by rewrite Hfind.
  - destruct (cp_options (sp_client poll)); by apply ps_same.
Qed.

Lemma event_vote_poll_poll_step sid pollId optionId userId w :
  poll_step w (event_vote_poll sid pollId optionId userId w).
Proof.
  unfold event_vote_poll, get_poll.
  destruct (eventPolls w !! pollId) as [r|] eqn:Hid; [|by apply ps_same].
  destruct (pollHeap w !! r) as [o|] eqn:Ho; [|by apply ps_same].
  destruct o as [poll|poll]; [by apply ps_same|].
  destruct (sp_status poll) eqn:Hst; [|by apply ps_same].
  destruct (no_vote_yet userId (sp_votes poll)) eqn:Hno; [|by apply ps_same].
  cbn.
  eapply (ps_rewrite _ _ pollId r (SockPoll poll)); try done.
  - by eapply rw_socket_vote.
  - by destruct (events w !! sp_eventId poll).
  - by destruct (events w !! sp_eventId poll).
  - left. by destruct (events w !! sp_eventId poll).
Qed.

Lemma step_poll_step a w : poll_step w (step a w).
Proof.
  destruct a; cbn [step].
  - by apply ps_same.
  - unfold on_disconnect, srv_disconnect, handleUserDisconnect, srv_disconnecting.
    polls_untouched.
  - unfold on_create_room, srv_create_room, rtc_create_room. polls_untouched.
  - unfold on_join_room, srv_join_room, rtc_join_room_string. polls_untouched.
  - unfold join_room_old, join_event, join_gaming, join_teaching. polls_untouched.
  - unfold approve_join. polls_untouched.
  - by apply ps_same.
  - unfold confirm_join. polls_untouched.
  - unfold handleUserLeaveRoom. polls_untouched.
  - unfold event_toggle_chat. polls_untouched.
  - unfold event_send_message. polls_untouched.
  - unfold event_end. polls_untouched.
  - unfold event_start_poll. destruct (events w !! eventId); [|by apply ps_same].
    eapply (ps_new _ _ (poll_id now)); cbn; try done. by intros p [= <-].
  - apply event_vote_poll_poll_step.
  - by apply ps_same.
  - unfold createPoll. destruct (events w !! eventId); [|by apply ps_same].
    destruct options as [options|]; [|by apply ps_same].
    eapply (ps_new _ _ (poll_id (ck_id now))); cbn; try done.
    intros p [= <-]. cbn. eauto.
  - apply votePoll_poll_step.
  - unfold timer_fire. destruct (timers w !! n) as [tm|] eqn:Hn; [|by apply ps_same].
    by apply timer_callback_poll_step.
Qed.

Lemma handle_poll_step req w : poll_step w (handle req w).
Proof.
  destruct req; cbn [handle].
  - apply step_poll_step.
  - unfold send_message. polls_untouched.
  - unfold upload_note. polls_untouched.
  - unfold submit_feedback. polls_untouched.
  - by apply ps_same.
  - by apply ps_same.
  - unfold event_share_document. polls_untouched.
Qed.

Lemma serve_snoc reqs req w : serve (reqs ++ [req]) w = handle req (serve reqs w).
Proof. unfold serve. by rewrite fold_left_app. Qed.

Lemma serve_app reqs1 reqs2 w : serve (reqs1 ++ reqs2) w = serve reqs2 (serve reqs1 w).
Proof. unfold serve. by rewrite fold_left_app. Qed.

Lemma serve_modelled tr w : serve (map Modelled tr) w = run tr w.
Proof.
  revert w. induction tr as [|a tr IH]; intros w; [done|]. apply IH.
Qed.

(** ** Poll ids, timers and orphaned polls *)

Lemma poll_step_refs_bounded w w' : poll_step w w' → refs_bounded w → refs_bounded w'.
Proof.
  intros [Hh He _|n Hh He _|id o tm Hh He _ _ _ _ _|id r o o' Hid Hr _ _ Hh He _] Hb id' r'.
  - rewrite Hh, He. apply Hb.
  - rewrite Hh, He. apply Hb.
  - rewrite Hh, He, length_app. cbn. intros Hl.
    apply lookup_insert_Some in Hl as [[_ <-]|[_ Hl]]; [lia|].
    specialize (Hb _ _ Hl). lia.
  - rewrite Hh, He, length_insert. apply Hb.
Qed.

Lemma poll_step_timers_known w w' : poll_step w w' → timers_known w → timers_known w'.
Proof.
  intros [Hh He Ht|n Hh He Ht|id o tm Hh He Ht Hid _ _ _|id r o o' _ _ _ _ Hh He Ht] Hk n' tm'.
  - rewrite Ht, He. apply Hk.
  - rewrite Ht, He. intros Hl.
    destruct (decide (n' < n)%nat).
    + rewrite list_lookup_delete_lt in Hl by done. eauto.
    + rewrite list_lookup_delete_ge in Hl by lia. eauto.
  - rewrite Ht, He. intros Hl.
    apply lookup_app_Some in Hl as [Hl|[_ Hl]].
    + destruct (Hk _ _ Hl) as [r Hr].
      destruct (decide (id = tm_pollId tm')) as [->|Hne].
      * rewrite lookup_insert_eq. eauto.
      * rewrite lookup_insert_ne by done. eauto.
    + apply list_lookup_singleton_Some in Hl as [_ <-]. rewrite Hid.
      rewrite lookup_insert_eq. eauto.
  - rewrite He. destruct Ht as [Ht|[n Ht]]; rewrite Ht; [apply Hk|].
    intros Hl. destruct (decide (n' < n)%nat).
    + rewrite list_lookup_delete_lt in Hl by done. eauto.
    + rewrite list_lookup_delete_ge in Hl by lia. eauto.
Qed.

Lemma serve_polls_wf reqs w :
  refs_bounded w → timers_known w →
  refs_bounded (serve reqs w) ∧ timers_known (serve reqs w).
Proof.
  intros Hb Hk. induction reqs as [|req reqs [IHb IHk]] using rev_ind; [done|].
  rewrite serve_snoc. split.
  - eapply poll_step_refs_bounded; [apply handle_poll_step|done].
  - eapply poll_step_timers_known; [apply handle_poll_step|done].
Qed.

Lemma init_polls_wf : refs_bounded init ∧ timers_known init.
Proof. split; intros ? ? H; cbn in H; by rewrite ?lookup_empty in H. Qed.

(** X1. The guard [pollToClose &&] of the timer callback never fails: no handler
    removes a poll id, so in every world the process reaches, a timer that
    fires finds a poll under its id, and once it has fired that poll is
    closed. *)
Theorem fired_timer_leaves_poll_closed reqs n tm :
  timers (serve reqs init) !! n = Some tm →
  ∃ r o,
    get_poll (serve reqs init) (tm_pollId tm) = Some (r, o)
    ∧ ∃ o',
        get_poll (timer_fire n (serve reqs init)) (tm_pollId tm) = Some (r, o')
        ∧ obj_status o' = PollClosed
        ∧ (obj_status o = PollClosed → o' = o)
        ∧ (obj_status o = PollActive → o' = close_obj o).
Proof.
  intros Hn.
  destruct (serve_polls_wf reqs init) as [Hb Hk]; [apply init_polls_wf..|].
  set (w := serve reqs init) in *.
  destruct (Hk _ _ Hn) as [r Hr].
  pose proof (Hb _ _ Hr) as Hlt. apply lookup_lt_is_Some in Hlt as [o Ho].
  assert (Hget : get_poll w (tm_pollId tm) = Some (r, o)).
  { unfold get_poll. by rewrite Hr, Ho. }
  exists r, o. split; [done|].
  unfold timer_fire. rewrite Hn. unfold timer_callback.
  change (get_poll (set_timers (delete n (timers w)) w) (tm_pollId tm))
    with (get_poll w (tm_pollId tm)).
  rewrite Hget. destruct (obj_status o) eqn:Hst.
  - exists (close_obj o).
    assert (Hget' : ∀ w', eventPolls w' = eventPolls w →
                          pollHeap w' = <[r := close_obj o]> (pollHeap w) →
                          get_poll w' (tm_pollId tm) = Some (r, close_obj o)).
    { intros w' He Hh. unfold get_poll. rewrite He, Hr, Hh.
      rewrite list_lookup_insert_eq; [done|]. by eapply lookup_lt_Some. }
    split; [|split; [apply close_obj_closed|split; [done|done]]].
    destruct (tm_notify tm) as [[sid eventId]|]; by apply Hget'.
  - exists o. repeat split; try done.
Qed.

Lemma fired_timer_leaves_poll_closed_witness :
  timers (serve reqs_poll init) !! 0%nat =
    Some {| tm_armedAt := 1001; tm_delay := 30000; tm_pollId := "POLL-1000";
            tm_notify := None |}
  ∧ ∃ r o,
      get_poll (serve reqs_poll init) "POLL-1000" = Some (r, o)
      ∧ ∃ o',
          get_poll (timer_fire 0 (serve reqs_poll init)) "POLL-1000" = Some (r, o')
          ∧ obj_status o' = PollClosed
          ∧ (obj_status o = PollClosed → o' = o)
          ∧ (obj_status o = PollActive → o' = close_obj o).
Proof.
  split; [vm_compute; reflexivity|].
  apply (fired_timer_leaves_poll_closed reqs_poll 0%nat
           {| tm_armedAt := 1001; tm_delay := 30000; tm_pollId := "POLL-1000";
              tm_notify := None |}).
  vm_compute; reflexivity.
Defined.

Lemma poll_step_unreferenced w w' r o :
  poll_step w w' → refs_bounded w →
  pollHeap w !! r = Some o → ¬ referenced w r →
  pollHeap w' !! r = Some o ∧ ¬ referenced w' r.
Proof.
  intros [Hh He _|n Hh He _|id o1 tm Hh He _ _ _ _ _|id r1 o1 o1' Hid Hr1 _ _ Hh He _]
    Hb Hr Hnot.
  - rewrite Hh. split; [done|]. intros [id Hid]. rewrite He in Hid. by apply Hnot; exists id.
  - rewrite Hh. split; [done|]. intros [id Hid]. rewrite He in Hid. by apply Hnot; exists id.
  - rewrite Hh. split.
    + rewrite lookup_app_l; [done|]. by eapply lookup_lt_Some.
    + intros [id' Hid']. rewrite He in Hid'.
      apply lookup_insert_Some in Hid' as [[_ <-]|[_ Hid']].
      * apply lookup_lt_Some in Hr. lia.
      * by apply Hnot; exists id'.
  - rewrite Hh. split.
    + rewrite list_lookup_insert_ne; [done|]. intros ->. by apply Hnot; exists id.
    + intros [id' Hid']. rewrite He in Hid'. by apply Hnot; exists id'.
Qed.

Lemma serve_unreferenced reqs w r o :
  refs_bounded w → pollHeap w !! r = Some o → ¬ referenced w r →
  pollHeap (serve reqs w) !! r = Some o ∧ ¬ referenced (serve reqs w) r.
Proof.
  intros Hb Hr Hnot. induction reqs as [|req reqs [IH1 IH2]] using rev_ind; [done|].
  rewrite serve_snoc.
  assert (Hb' : refs_bounded (serve reqs w)).
  { clear -Hb. induction reqs as [|req reqs IH] using rev_ind; [done|].
    rewrite serve_snoc. eapply poll_step_refs_bounded; [apply handle_poll_step|done]. }
  eapply poll_step_unreferenced; [apply handle_poll_step|done..].
Qed.

(** X2. Poll ids are [POLL-] followed by the millisecond of creation, so two
    polls made in the same millisecond share one id. The second takes the id
    over; the first stays in the heap, and in [event.polls], but no id refers
    to it any more: no vote, no timer and no other request ever changes it
    again, and since it was active it stays active for good. *)
Theorem poll_id_reuse_orphans_first_poll
    eventId1 question1 options1 duration1 eventId2 question2 options2 duration2
    now1 now2 w w1 w2 poll1 poll2 reqs :
  refs_bounded w →
  ck_id now1 = ck_id now2 →
  createPoll eventId1 question1 options1 duration1 now1 w = (w1, Ok_poll poll1) →
  createPoll eventId2 question2 options2 duration2 now2 w1 = (w2, Ok_poll poll2) →
  pl_id poll1 = pl_id poll2
  ∧ get_poll w1 (pl_id poll1) = Some (length (pollHeap w), RestPoll poll1)
  ∧ get_poll w2 (pl_id poll1) = Some (S (length (pollHeap w)), RestPoll poll2)
  ∧ pollHeap (serve reqs w2) !! length (pollHeap w) = Some (RestPoll poll1)
  ∧ pl_status poll1 = PollActive
  ∧ ¬ referenced (serve reqs w2) (length (pollHeap w)).
Proof.
  intros Hb Hnow H1 H2.
  destruct (createPoll_stores _ _ _ _ _ _ _ _ H1) as (Hid1 & Hget1 & Hh1 & Hst1 & _).
  destruct (createPoll_stores _ _ _ _ _ _ _ _ H2) as (Hid2 & Hget2 & Hh2 & _).
  rewrite <- Hnow in Hid2, Hget2.
  assert (Hlen : length (pollHeap w1) = S (length (pollHeap w))).
  { rewrite Hh1, length_app. cbn. lia. }
  rewrite Hlen in Hget2.
  assert (Hb1 : refs_bounded w1).
  { change w1 with (w1, Ok_poll poll1).1. rewrite <- H1.
    eapply poll_step_refs_bounded; [|exact Hb].
    apply (step_poll_step (HttpCreatePoll eventId1 question1 options1 duration1 now1)). }
  assert (Hb2 : refs_bounded w2).
  { change w2 with (w2, Ok_poll poll2).1. rewrite <- H2.
    eapply poll_step_refs_bounded; [|exact Hb1].
    apply (step_poll_step (HttpCreatePoll eventId2 question2 options2 duration2 now2)). }
  assert (Hr : pollHeap w2 !! length (pollHeap w) = Some (RestPoll poll1)).
  { rewrite Hh2, Hh1. rewrite lookup_app_l by (rewrite length_app; cbn; lia).
    rewrite lookup_app_r by lia. by rewrite Nat.sub_diag. }
  assert (Hnot : ¬ referenced w2 (length (pollHeap w))).
  { intros [id Hid].
    assert (He2 : eventPolls w2 =
                  <[poll_id (ck_id now1) := S (length (pollHeap w))]> (eventPolls w1)).
    { revert H2. unfold createPoll. destruct (events w1 !! eventId2); [|done].
      destruct options2; [|done]. intros [= <- _]. cbn. by rewrite Hlen, Hnow. }
    assert (He1 : eventPolls w1 =
                  <[poll_id (ck_id now1) := length (pollHeap w)]> (eventPolls w)).
    { revert H1. unfold createPoll. destruct (events w !! eventId1); [|done].
      destruct options1; [|done]. by intros [= <- _]. }
    rewrite He2 in Hid. apply lookup_insert_Some in Hid as [[_ Hid]|[Hne Hid]]; [lia|].
    rewrite He1 in Hid. apply lookup_insert_Some in Hid as [[Heq _]|[_ Hid]]; [done|].
    specialize (Hb _ _ Hid). lia. }
  destruct (serve_unreferenced reqs w2 _ _ Hb2 Hr Hnot) as [Hkeep Hnot'].
  rewrite Hid1. repeat split; done.
Qed.

Lemma poll_id_reuse_orphans_first_poll_witness :
  refs_bounded w_event
  ∧ createPoll "EVENT-E1" "First?" (Some ["a"; "b"]) (Some 10) (at_once 7000) w_event
      = (w_twin1, Ok_poll twin1)
  ∧ createPoll "EVENT-E1" "Second?" (Some ["c"]) (Some 20) (at_once 7000) w_twin1
      = (w_twins, Ok_poll twin2)
  ∧ get_poll w_twins "POLL-7000" = Some (1%nat, RestPoll twin2)
  ∧ pollHeap
      (serve [Modelled (HttpVotePoll "POLL-7000" 0 "u");
              Modelled (TimerFire 0); Modelled (TimerFire 0)] w_twins) !! 0%nat
    = Some (RestPoll twin1).
Proof.
  assert (Hb : refs_bounded w_event).
  { intros id r H. vm_compute in H. discriminate. }
  assert (H1 : createPoll "EVENT-E1" "First?" (Some ["a"; "b"]) (Some 10) (at_once 7000) w_event
               = (w_twin1, Ok_poll twin1)) by (vm_compute; reflexivity).
  assert (H2 : createPoll "EVENT-E1" "Second?" (Some ["c"]) (Some 20) (at_once 7000) w_twin1
               = (w_twins, Ok_poll twin2)) by (vm_compute; reflexivity).
  split; [exact Hb|]. split; [exact H1|]. split; [exact H2|].
  destruct (poll_id_reuse_orphans_first_poll _ _ _ _ _ _ _ _ _ _ _ _ _ _ _
              [Modelled (HttpVotePoll "POLL-7000" 0 "u");
               Modelled (TimerFire 0); Modelled (TimerFire 0)] Hb eq_refl H1 H2)
    as (_ & _ & Hget & Hkeep & _).
  assert (Hlen : length (pollHeap w_event) = 0%nat) by (vm_compute; reflexivity).
  rewrite Hlen in Hget, Hkeep.
  split; [exact Hget|exact Hkeep].
Defined.

(** ** Votes over the socket *)

Lemma poll_step_socket_vote_kept w w' r p u o :
  poll_step w w' →
  pollHeap w !! r = Some (SockPoll p) → sp_votes p !! u = Some o → o ≠ 0 →
  ∃ p', pollHeap w' !! r = Some (SockPoll p') ∧ sp_votes p' !! u = Some o
        ∧ sp_id p' = sp_id p ∧ sp_client p' = sp_client p.
Proof.
  intros [Hh _ _|n Hh _ _|id o1 tm Hh _ _ _ _ _ _|id r1 o1 o1' _ Hr1 _ Hrw Hh _ _]
    Hr Hu Ho.
  - rewrite Hh. eauto.
  - rewrite Hh. eauto.
  - rewrite Hh. exists p. rewrite lookup_app_l; [done|]. by eapply lookup_lt_Some.
  - rewrite Hh. destruct (decide (r1 = r)) as [->|Hne].
    + rewrite Hr in Hr1. injection Hr1 as <-.
      rewrite list_lookup_insert_eq by by eapply lookup_lt_Some.
      destruct Hrw as [|p0 optionId userId [=]|p0 optionId userId [= <-] Hno].
      * cbn. eauto.
      * eexists. split; [done|]. cbn. split; [|done].
        destruct (decide (userId = u)) as [->|Hneu].
        -- unfold no_vote_yet in Hno. rewrite Hu in Hno.
           apply Z.eqb_eq in Hno. done.
        -- by rewrite lookup_insert_ne.
    + rewrite list_lookup_insert_ne by done. eauto.
Qed.

(** X3. In a poll started over the socket the handler tests [!poll.votes[userId]],
    which is true also for a recorded option [0]. So a recorded choice
    other than option 0 is final: through any later requests the poll keeps
    it. A recorded choice of option 0 is not: while the poll is active the
    same user's next vote overwrites it. *)
Theorem socket_vote_is_final_unless_zero :
  (∀ reqs w r p u o,
     pollHeap w !! r = Some (SockPoll p) → sp_votes p !! u = Some o → o ≠ 0 →
     ∃ p', pollHeap (serve reqs w) !! r = Some (SockPoll p')
           ∧ sp_votes p' !! u = Some o)
  ∧ (∀ w sid pollId r p u optionId,
       get_poll w pollId = Some (r, SockPoll p) → sp_status p = PollActive →
       sp_votes p !! u = Some 0 →
       pollHeap (event_vote_poll sid pollId optionId u w) !! r =
         Some (SockPoll (sp_with_votes (<[u := optionId]> (sp_votes p)) p)))
  ∧ (∀ w sid pollId r p u o optionId,
       get_poll w pollId = Some (r, SockPoll p) →
       sp_votes p !! u = Some o → o ≠ 0 →
       event_vote_poll sid pollId optionId u w = w).
Proof.
  split; [|split].
  - intros reqs w r p u o Hr Hu Ho.
    assert (H : ∃ p', pollHeap (serve reqs w) !! r = Some (SockPoll p')
                      ∧ sp_votes p' !! u = Some o); [|done].
    induction reqs as [|req reqs (p1 & Hr1 & Hu1)] using rev_ind; [eauto|].
    rewrite serve_snoc.
    destruct (poll_step_socket_vote_kept _ _ r p1 u o
                (handle_poll_step req (serve reqs w)) Hr1 Hu1 Ho) as (p' & ? & ? & _).
    eauto.
  - intros w sid pollId r p u optionId Hget Hst Hu.
    unfold event_vote_poll. rewrite Hget, Hst. unfold no_vote_yet. rewrite Hu. cbn.
    assert (Hlt : (r < length (pollHeap w))%nat).
    { unfold get_poll in Hget. destruct (eventPolls w !! pollId); [|done].
      destruct (pollHeap w !! _) eqn:E; [|done]. injection Hget as -> ->.
      by eapply lookup_lt_Some. }
    destruct (events w !! sp_eventId p); cbn; by rewrite list_lookup_insert_eq.
  - intros w sid pollId r p u o optionId Hget Hu Ho.
    unfold event_vote_poll. rewrite Hget. destruct (sp_status p); [|done].
    unfold no_vote_yet. rewrite Hu. by rewrite (proj2 (Z.eqb_neq o 0) Ho).
Qed.

Lemma socket_vote_is_final_unless_zero_witness :
  get_poll (serve reqs_socket_poll init) "POLL-3000" = Some (0%nat, SockPoll socket_poll3000)
  ∧ event_vote_poll "a" "POLL-3000" 1 "u1" (serve reqs_socket_poll init)
    = serve reqs_socket_poll init
  ∧ pollHeap (event_vote_poll "a" "POLL-3000" 1 "u2" (serve reqs_socket_poll init)) !! 0%nat
    = Some (SockPoll (sp_with_votes (<["u2" := 1]> (sp_votes socket_poll3000))
                        socket_poll3000)).
Proof.
  assert (Hget : get_poll (serve reqs_socket_poll init) "POLL-3000"
                 = Some (0%nat, SockPoll socket_poll3000)) by (vm_compute; reflexivity).
  destruct socket_vote_is_final_unless_zero as (_ & Hzero & Hfinal).
  split; [exact Hget|]. split.
  - apply (Hfinal _ "a" "POLL-3000" 0%nat socket_poll3000 "u1" 2 1 Hget);
      [vm_compute; reflexivity|discriminate].
  - apply (Hzero _ "a" "POLL-3000" 0%nat socket_poll3000 "u2" 1 Hget);
      vm_compute; reflexivity.
Defined.

(** ** Options and their ids *)

Lemma mk_options_ids options index :
  map po_id (mk_options index options) = map Z.of_nat (seq index (length options)).
Proof.
  revert index. induction options as [|o options IH]; intros index; simpl; [done|].
  by rewrite IH.
Qed.

Lemma mk_options_texts options index : map po_text (mk_options index options) = options.
Proof.
  revert index. induction options as [|o options IH]; intros index; simpl; [done|].
  by rewrite IH.
Qed.

Lemma mk_options_length options index : length (mk_options index options) = length options.
Proof.
  revert index. induction options as [|o options IH]; intros index; simpl; [done|].
  by rewrite IH.
Qed.

Lemma mk_options_lookup options index i text :
  options !! i = Some text →
  mk_options index options !! i =
    Some {| po_id := Z.of_nat (index + i); po_text := text; po_votes := 0;
            po_voters := [] |}.
Proof.
  revert index i. induction options as [|o options IH]; intros index i; [done|].
  destruct i as [|i]; simpl.
  - intros [= ->]. by rewrite Nat.add_0_r.
  - intros H. rewrite (IH (S index) i H). do 3 f_equal. lia.
Qed.

Lemma vote_option_ids optionId userId opts :
  map po_id (vote_option optionId userId opts) = map po_id opts
  ∧ map po_text (vote_option optionId userId opts) = map po_text opts
  ∧ length (vote_option optionId userId opts) = length opts.
Proof.
  induction opts as [|o opts (IH1 & IH2 & IH3)]; simpl; [done|].
  destruct (po_id o =? optionId); simpl; [done|]. by rewrite IH1, IH2, IH3.
Qed.

Lemma indexed_find opts index optionId (userId : string) :
  map po_id opts = map Z.of_nat (seq index (length opts)) →
  (Z.of_nat index ≤ optionId < Z.of_nat index + Z.of_nat (length opts) →
     js_find (λ opt, po_id opt =? optionId) opts = opts !! (Z.to_nat optionId - index)%nat
     ∧ vote_option optionId userId opts =
         alter (bump_option userId) (Z.to_nat optionId - index)%nat opts)
  ∧ (¬ (Z.of_nat index ≤ optionId < Z.of_nat index + Z.of_nat (length opts)) →
     js_find (λ opt, po_id opt =? optionId) opts = None).
Proof.
  revert index. induction opts as [|o opts IH]; intros index Hids.
  - split; [cbn; lia|done].
  - cbn in Hids. injection Hids as Ho Hids. specialize (IH (S index) Hids).
    destruct IH as [IHin IHout]. cbn [js_find vote_option length].
    destruct (po_id o =? optionId) eqn:Heq.
    + apply Z.eqb_eq in Heq. split.
      * intros _. replace (Z.to_nat optionId - index)%nat with 0%nat by lia. done.
      * intros Hout. lia.
    + apply Z.eqb_neq in Heq. split.
      * intros Hin. destruct IHin as [IH1 IH2]; [lia|].
        replace (Z.to_nat optionId - index)%nat
          with (S (Z.to_nat optionId - S index))%nat by lia.
        cbn. by rewrite IH1, IH2.
      * intros Hout. apply IHout. lia.
Qed.

Lemma poll_step_indexed w w' :
  poll_step w w' → Forall obj_indexed (pollHeap w) → Forall obj_indexed (pollHeap w').
Proof.
  intros [Hh _ _|n Hh _ _|id o tm Hh _ _ _ _ Hfresh _|id r o o' _ Hr _ Hrw Hh _ _] Hall;
    rewrite Hh; try done.
  - apply Forall_app. split; [done|]. constructor; [|done].
    destruct o as [p|p]; [|done]. destruct (Hfresh p eq_refl) as (_ & options & Hopts).
    unfold obj_indexed, options_indexed. rewrite Hopts, mk_options_length.
    apply mk_options_ids.
  - apply Forall_insert; [done|].
    pose proof (Forall_lookup_1 _ _ _ _ Hall Hr) as Ho.
    destruct Hrw as [|p optionId userId -> _ _|p optionId userId ->]; [by destruct o| |done].
    unfold obj_indexed, options_indexed in *. cbn.
    destruct (vote_option_ids optionId userId (pl_options p)) as (-> & _ & ->). done.
Qed.

Lemma serve_indexed reqs w :
  Forall obj_indexed (pollHeap w) → Forall obj_indexed (pollHeap (serve reqs w)).
Proof.
  intros H. induction reqs as [|req reqs IH] using rev_ind; [done|].
  rewrite serve_snoc. eapply poll_step_indexed; [apply handle_poll_step|done].
Qed.

(** X4. [createPoll] numbers the options by their position: option [i] of the
    request becomes the option with id [i], with its text, no votes and no
    voters. The id, [createdAt] and [expiresAt] come from three reads of the
    clock: the id is [POLL-] and the first, [createdAt] is the second, and
    [expiresAt] is the third plus the duration, after defaulting, in
    milliseconds, an invalid date when that is beyond the range of dates.
    The reference of the poll is pushed on the event's poll list. *)
Theorem createPoll_numbers_options eventId question texts duration now w w' poll :
  createPoll eventId question (Some texts) duration now w = (w', Ok_poll poll) →
  length (pl_options poll) = length texts
  ∧ map po_text (pl_options poll) = texts
  ∧ map po_id (pl_options poll) = map Z.of_nat (seq 0 (length texts))
  ∧ (∀ i text, texts !! i = Some text →
       pl_options poll !! i =
         Some {| po_id := Z.of_nat i; po_text := text; po_votes := 0; po_voters := [] |})
  ∧ pl_question poll = question ∧ pl_eventId poll = eventId
  ∧ pl_id poll = poll_id (ck_id now)
  ∧ pl_createdAt poll = ck_createdAt now
  ∧ pl_duration poll = js_or_num duration 60
  ∧ pl_expiresAt poll = new_Date (ck_expiresAt now + pl_duration poll * 1000)
  ∧ (Z.abs (ck_expiresAt now + pl_duration poll * 1000) ≤ 8640000000000000 →
     pl_expiresAt poll = Some (ck_expiresAt now + pl_duration poll * 1000))
  ∧ (8640000000000000 < Z.abs (ck_expiresAt now + pl_duration poll * 1000) →
     pl_expiresAt poll = None)
  ∧ ev_polls <$> events w' !! eventId =
      (λ e, ev_polls e ++ [length (pollHeap w)]) <$> events w !! eventId.
Proof.
  unfold createPoll. destruct (events w !! eventId) as [event|] eqn:Hev; [|done].
  intros [= <- <-]. cbn.
  split; [apply mk_options_length|]. split; [apply mk_options_texts|].
  split; [apply mk_options_ids|]. split; [intros i text H; by apply mk_options_lookup|].
  do 6 (split; [reflexivity|]). unfold new_Date. split; [|split].
  - intros Hin. by rewrite (proj2 (Z.leb_le _ _) Hin).
  - intros Hout. by rewrite (proj2 (Z.leb_gt _ _) Hout).
  - by rewrite lookup_insert_eq.
Qed.

Lemma createPoll_numbers_options_witness :
  createPoll "EVENT-E1" "First?" (Some ["a"; "b"]) (Some 10) (at_once 7000) w_event
    = (w_twin1, Ok_poll twin1)
  ∧ map po_text (pl_options twin1) = ["a"; "b"]
  ∧ map po_id (pl_options twin1) = [0; 1].
Proof.
  assert (H1 : createPoll "EVENT-E1" "First?" (Some ["a"; "b"]) (Some 10) (at_once 7000) w_event
               = (w_twin1, Ok_poll twin1)) by (vm_compute; reflexivity).
  split; [exact H1|].
  destruct (createPoll_numbers_options _ _ _ _ _ _ _ _ H1) as (_ & Ht & Hi & _).
  split; [exact Ht|exact Hi].
Defined.

(** X5. In every world the process reaches, the options of a poll of [createPoll]
    still carry the ids [0 .. n-1] in order. Hence, for an active poll and a
    subject that has not voted: a vote for an id inside that range is
    accepted and changes exactly the option at that position, adding one to
    its count and the subject to its voters, while every other option, the
    number of options and all ids and texts stay as they are; a vote for any
    other id is answered [Invalid option]. *)
Theorem vote_changes_the_option_at_its_index reqs pollId optionId userId r p :
  get_poll (serve reqs init) pollId = Some (r, RestPoll p) →
  pl_status p = PollActive →
  hasVoted userId p = false →
  options_indexed p
  ∧ (0 ≤ optionId < Z.of_nat (length (pl_options p)) →
     ∃ opt p',
       pl_options p !! Z.to_nat optionId = Some opt ∧ po_id opt = optionId
       ∧ votePoll pollId optionId userId (serve reqs init) =
           (set_pollHeap (<[r := RestPoll p']> (pollHeap (serve reqs init)))
              (serve reqs init), Ok_poll p')
       ∧ pl_options p' = <[Z.to_nat optionId := bump_option userId opt]> (pl_options p)
       ∧ pl_totalVotes p' = pl_totalVotes p + 1
       ∧ map po_id (pl_options p') = map po_id (pl_options p)
       ∧ map po_text (pl_options p') = map po_text (pl_options p))
  ∧ (¬ (0 ≤ optionId < Z.of_nat (length (pl_options p))) →
     votePoll pollId optionId userId (serve reqs init) =
       (serve reqs init, Err 400 "Invalid option")).
Proof.
  intros Hget Hst Hnv.
  assert (Hidx : options_indexed p).
  { pose proof (serve_indexed reqs init (Forall_nil_2 _)) as Hall.
    unfold get_poll in Hget.
    destruct (eventPolls (serve reqs init) !! pollId) as [r0|]; [|done].
    destruct (pollHeap (serve reqs init) !! r0) as [o|] eqn:Hr; [|done].
    injection Hget as -> ->. apply (Forall_lookup_1 _ _ _ _ Hall Hr). }
  split; [exact Hidx|].
  destruct (indexed_find (pl_options p) 0 optionId userId Hidx) as [Hin Hout].
  split.
  - intros Hrange. destruct Hin as [Hfind Hvote]; [cbn; lia|].
    rewrite Nat.sub_0_r in Hfind, Hvote.
    destruct (pl_options p !! Z.to_nat optionId) as [opt|] eqn:Hopt.
    2:{ apply lookup_ge_None in Hopt. lia. }
    exists opt, (add_vote optionId userId p). split; [done|].
    assert (Hid : po_id opt = optionId).
    { unfold options_indexed in Hidx.
      apply (f_equal (λ l, l !! Z.to_nat optionId)) in Hidx.
      change (map po_id (pl_options p)) with (po_id <$> pl_options p) in Hidx.
      change (map Z.of_nat (seq 0 (length (pl_options p))))
        with (Z.of_nat <$> seq 0 (length (pl_options p))) in Hidx.
      rewrite !list_lookup_fmap, Hopt in Hidx.
      rewrite lookup_seq_lt in Hidx by lia. cbn in Hidx. injection Hidx as ->. lia. }
    split; [done|]. split.
    { unfold votePoll. rewrite Hget. cbn. rewrite Hst, Hnv, Hfind. done. }
    split.
    { cbn. rewrite Hvote. apply list_eq. intros i.
      destruct (decide (i = Z.to_nat optionId)) as [->|Hne].
      - rewrite list_lookup_alter_eq, Hopt. cbn.
        rewrite list_lookup_insert_eq; [done|]. by eapply lookup_lt_Some.
      - rewrite list_lookup_alter_ne by done. by rewrite list_lookup_insert_ne. }
    split; [done|].
    cbn. destruct (vote_option_ids optionId userId (pl_options p)) as (-> & -> & _). done.
  - intros Hrange. unfold votePoll. rewrite Hget. cbn. rewrite Hst, Hnv.
    rewrite Hout; [done|]. cbn. lia.
Qed.

Lemma vote_changes_the_option_at_its_index_witness :
  get_poll (serve reqs_poll init) "POLL-1000" = Some (0%nat, RestPoll poll1000)
  ∧ pl_status poll1000 = PollActive
  ∧ hasVoted "u2" poll1000 = false
  ∧ votePoll "POLL-1000" 2 "u2" (serve reqs_poll init)
    = (serve reqs_poll init, Err 400 "Invalid option")
  ∧ ∃ opt p',
      pl_options poll1000 !! 0%nat = Some opt
      ∧ fst (votePoll "POLL-1000" 0 "u2" (serve reqs_poll init)) =
          set_pollHeap (<[0%nat := RestPoll p']> (pollHeap (serve reqs_poll init)))
            (serve reqs_poll init)
      ∧ pl_options p' = <[0%nat := bump_option "u2" opt]> (pl_options poll1000).
Proof.
  assert (Hget : get_poll (serve reqs_poll init) "POLL-1000"
                 = Some (0%nat, RestPoll poll1000)) by (vm_compute; reflexivity).
  destruct (vote_changes_the_option_at_its_index reqs_poll "POLL-1000" 2 "u2" 0%nat
              poll1000 Hget eq_refl eq_refl) as (_ & _ & Hout).
  destruct (vote_changes_the_option_at_its_index reqs_poll "POLL-1000" 0 "u2" 0%nat
              poll1000 Hget eq_refl eq_refl) as (_ & Hin & _).
  split; [exact Hget|]. split; [reflexivity|]. split; [reflexivity|].
  split; [apply Hout; cbn; lia|].
  destruct Hin as (opt & p' & Hopt & _ & Hvote & Hopts & _); [cbn; lia|].
  exists opt, p'. split; [exact Hopt|]. split; [by rewrite Hvote|exact Hopts].
Defined.

(** ** Statistics *)

Lemma attendee_sum_insert (m : gmap string Event) k e e' :
  m !! k = Some e →
  (map_fold (λ _ e sum, (sum + length (ev_attendees e))%nat) 0%nat (<[k := e']> m)
   + length (ev_attendees e))%nat =
  (map_fold (λ _ e sum, (sum + length (ev_attendees e))%nat) 0%nat m
   + length (ev_attendees e'))%nat.
Proof.
  intros Hk.
  rewrite (map_fold_delete_L _ _ k e m); [|intros; lia|done].
  rewrite <- insert_delete_eq.
  rewrite map_fold_insert_L; [lia|intros; lia|apply lookup_delete_eq].
Qed.

Lemma attendee_sum_insert_new (m : gmap string Event) k e' :
  m !! k = None →
  map_fold (λ _ e sum, (sum + length (ev_attendees e))%nat) 0%nat (<[k := e']> m) =
  (map_fold (λ _ e sum, (sum + length (ev_attendees e))%nat) 0%nat m
   + length (ev_attendees e'))%nat.
Proof. intros Hk. rewrite map_fold_insert_L; [done|intros; lia|done]. Qed.

Lemma active_count_insert_same (m : gmap string Event) k e e' :
  m !! k = Some e → ev_status e' = ev_status e →
  size (filter (λ kv : string * Event, ev_status kv.2 = EvActive) (<[k := e']> m)) =
  size (filter (λ kv : string * Event, ev_status kv.2 = EvActive) m).
Proof.
  intros Hk Hst. rewrite map_filter_insert. cbn. case_decide as Hact.
  - apply map_size_insert_Some. exists e.
    apply map_lookup_filter_Some. split; [done|]. cbn. congruence.
  - f_equal. apply map_filter_delete_not. intros y Hy. cbn. congruence.
Qed.

(** X6. What [getEventStats] reports, and how the operations move it. Active
    events are never more than all events. A successful join to an event adds
    one to [totalAttendees] and nothing else. A successful [createPoll] adds
    one to [totalPolls] when the poll id is new and leaves it alone when the
    id, the millisecond of creation, is taken already. [createEvent] with
    an id not in use adds one event with no attendees, not active. *)
Theorem event_stats_follow_the_operations :
  (∀ w, (activeEvents (getEventStats w) ≤ totalEvents (getEventStats w))%nat)
  ∧ (∀ sid data now w event,
       startsWith "EVENT-" (jd_roomId data) = true →
       events w !! jd_roomId data = Some event → ev_status event = EvActive →
       getEventStats (join_room_old sid data now w) =
         {| totalEvents := totalEvents (getEventStats w);
            activeEvents := activeEvents (getEventStats w);
            totalAttendees := S (totalAttendees (getEventStats w));
            totalPolls := totalPolls (getEventStats w) |})
  ∧ (∀ eventId question options duration now w w' poll,
       createPoll eventId question options duration now w = (w', Ok_poll poll) →
       getEventStats w' =
         {| totalEvents := totalEvents (getEventStats w);
            activeEvents := activeEvents (getEventStats w);
            totalAttendees := totalAttendees (getEventStats w);
            totalPolls :=
              match eventPolls w !! poll_id (ck_id now) with
              | Some _ => totalPolls (getEventStats w)
              | None => S (totalPolls (getEventStats w))
              end |})
  ∧ (∀ title description hostName hostEmail rnd now w,
       events w !! ("EVENT-" +:+ rnd) = None →
       getEventStats (createEvent title description hostName hostEmail rnd now w).1 =
         {| totalEvents := S (totalEvents (getEventStats w));
            activeEvents := activeEvents (getEventStats w);
            totalAttendees := totalAttendees (getEventStats w);
            totalPolls := totalPolls (getEventStats w) |}).
Proof.
  split; [|split; [|split]].
  - intros w. cbn. apply map_subseteq_size, map_filter_subseteq.
  - intros sid data now w event Hpre Hev Hact.
    unfold join_room_old. rewrite Hpre. unfold join_event. rewrite Hev, Hact.
    unfold getEventStats. cbn. store_frame.
    f_equal.
    + apply map_size_insert_Some. eauto.
    + by apply (active_count_insert_same _ _ event).
    + pose proof (attendee_sum_insert (events w) (jd_roomId data) event
        (ev_with_attendees
           (ev_attendees event ++ [new_attendee sid (jd_student data) now]) event) Hev) as H.
      cbn in H. rewrite length_app in H. cbn in H. lia.
  - intros eventId question options duration now w w' poll.
    unfold createPoll. destruct (events w !! eventId) as [event|] eqn:Hev; [|done].
    destruct options as [options|]; [|done]. intros [= <- _].
    unfold getEventStats. cbn. f_equal.
    + apply map_size_insert_Some. eauto.
    + by apply (active_count_insert_same _ _ event).
    + pose proof (attendee_sum_insert (events w) eventId event
        (ev_with_polls (ev_polls event ++ [length (pollHeap w)]) event) Hev) as H.
      cbn in H. lia.
    + rewrite map_size_insert. by destruct (eventPolls w !! poll_id (ck_id now)).
  - intros title description hostName hostEmail rnd now w Hnone.
    unfold getEventStats. cbn. f_equal.
    + by apply map_size_insert_None.
    + rewrite map_filter_insert_False by (cbn; discriminate).
      f_equal. apply map_filter_delete_not. intros y Hy. congruence.
    + rewrite attendee_sum_insert_new by done. cbn. lia.
Qed.

Lemma event_stats_follow_the_operations_witness :
  getEventStats w_event =
    {| totalEvents := 1; activeEvents := 1; totalAttendees := 0; totalPolls := 0 |}
  ∧ getEventStats (join_room_old "a" (JoinObject "EVENT-E1" ann) 7 w_event) =
      {| totalEvents := 1; activeEvents := 1; totalAttendees := 1; totalPolls := 0 |}
  ∧ getEventStats w_twins =
      {| totalEvents := 1; activeEvents := 1; totalAttendees := 0; totalPolls := 1 |}.
Proof.
  destruct event_stats_follow_the_operations as (_ & Hjoin & Hpoll & _).
  assert (H0 : getEventStats w_event =
    {| totalEvents := 1; activeEvents := 1; totalAttendees := 0; totalPolls := 0 |})
    by (vm_compute; reflexivity).
  assert (H1 : getEventStats w_twin1 =
    {| totalEvents := 1; activeEvents := 1; totalAttendees := 0; totalPolls := 1 |}).
  { rewrite (Hpoll "EVENT-E1" "First?" (Some ["a"; "b"]) (Some 10) (at_once 7000) w_event
               w_twin1 twin1) by (vm_compute; reflexivity).
    rewrite H0. vm_compute. reflexivity. }
  split; [exact H0|]. split.
  - assert (Hev : ∃ event, events w_event !! "EVENT-E1" = Some event
                           ∧ ev_status event = EvActive).
    { eexists. split; vm_compute; reflexivity. }
    destruct Hev as (event & Hev & Hact).
    rewrite (Hjoin "a" (JoinObject "EVENT-E1" ann) 7 w_event event eq_refl Hev Hact).
    by rewrite H0.
  - rewrite (Hpoll "EVENT-E1" "Second?" (Some ["c"]) (Some 20) (at_once 7000) w_twin1
               w_twins twin2) by (vm_compute; reflexivity).
    rewrite H1. vm_compute. reflexivity.
Defined.

(** ** Nothing is ever removed from the room and poll stores *)

Lemma jm_keys_set_prefix {V : Type} k (v : V) m : jm_keys m `prefix_of` jm_keys (jm_set k v m).
Proof. rewrite jm_keys_set. destruct (jm_has k m); [done|]. by apply prefix_app_r. Qed.

Lemma jm_keys_student_leaves sid (m : list (string * Session)) :
  jm_keys (map (λ kv : string * Session, (kv.1, (student_leaves sid kv.2).1)) m) = jm_keys m.
Proof. unfold jm_keys. rewrite map_map. done. Qed.

Lemma handle_sessions_keys req w :
  jm_keys (teachingSessions w) `prefix_of` jm_keys (teachingSessions (handle req w)).
Proof.
  destruct req as [a| | | | | |]; [destruct a|..]; cbn [handle step]; unfold_handlers;
    repeat case_match; store_frame;
    rewrite ?jm_keys_student_leaves; store_frame;
    first [ done | apply jm_keys_set_prefix | by rewrite map_map ].
Qed.

Lemma handle_gaming_dom req w :
  dom (gamingRooms w) ⊆ dom (gamingRooms (handle req w)).
Proof.
  destruct req as [a| | | | | |]; [destruct a|..]; cbn [handle step]; unfold_handlers;
    repeat case_match; store_frame;
    first [ done | apply dom_insert_subseteq ].
Qed.

Lemma handle_events_dom req w : dom (events w) ⊆ dom (events (handle req w)).
Proof.
  destruct req as [a| | | | | |]; [destruct a|..]; cbn [handle step]; unfold_handlers;
    repeat case_match; store_frame;
    first [ done | apply dom_insert_subseteq ].
Qed.

Lemma handle_polls_dom req w : dom (eventPolls w) ⊆ dom (eventPolls (handle req w)).
Proof.
  destruct (handle_poll_step req w)
    as [_ He _|n _ He _|id o tm _ He _ _ _ _ _|id r o o' _ _ _ _ _ He _]; rewrite He;
    first [ done | apply dom_insert_subseteq ].
Qed.

(** X7. No socket event, HTTP request, lost connection or timer removes a
    teaching session, a gaming room, an event or a poll id: a key that is in
    one of these stores is there in every later world, the teaching sessions
    even in their order of creation. In particular [end-session],
    [end-meeting], [event-end] and a host's disconnect leave the room
    record in place. *)
Theorem rooms_events_and_polls_are_never_removed reqs w :
  jm_keys (teachingSessions w) `prefix_of` jm_keys (teachingSessions (serve reqs w))
  ∧ (∀ k, is_Some (jm_get k (teachingSessions w)) →
          is_Some (jm_get k (teachingSessions (serve reqs w))))
  ∧ (∀ k, is_Some (gamingRooms w !! k) → is_Some (gamingRooms (serve reqs w) !! k))
  ∧ (∀ k, is_Some (events w !! k) → is_Some (events (serve reqs w) !! k))
  ∧ (∀ k, is_Some (eventPolls w !! k) → is_Some (eventPolls (serve reqs w) !! k)).
Proof.
  assert (H : jm_keys (teachingSessions w) `prefix_of` jm_keys (teachingSessions (serve reqs w))
              ∧ dom (gamingRooms w) ⊆ dom (gamingRooms (serve reqs w))
              ∧ dom (events w) ⊆ dom (events (serve reqs w))
              ∧ dom (eventPolls w) ⊆ dom (eventPolls (serve reqs w))).
  { induction reqs as [|req reqs (IH1 & IH2 & IH3 & IH4)] using rev_ind; [done|].
    rewrite serve_snoc. split; [|split; [|split]].
    - etrans; [exact IH1|apply handle_sessions_keys].
    - etrans; [exact IH2|apply handle_gaming_dom].
    - etrans; [exact IH3|apply handle_events_dom].
    - etrans; [exact IH4|apply handle_polls_dom]. }
  destruct H as (H1 & H2 & H3 & H4).
  split; [done|]. split; [|split; [|split]].
  - intros k [s Hs]. destruct (jm_get k (teachingSessions (serve reqs w))) eqn:Hget; [eauto|].
    apply jm_get_None in Hget. exfalso. apply Hget.
    apply jm_get_In in Hs. destruct H1 as [rest ->].
    apply in_or_app. left. apply in_map_iff. by exists (k, s).
  - intros k Hk. apply elem_of_dom, H2, elem_of_dom, Hk.
  - intros k Hk. apply elem_of_dom, H3, elem_of_dom, Hk.
  - intros k Hk. apply elem_of_dom, H4, elem_of_dom, Hk.
Qed.

Lemma rooms_events_and_polls_are_never_removed_witness :
  is_Some (jm_get "MATH1" (teachingSessions w_class))
  ∧ is_Some
      (jm_get "MATH1"
         (teachingSessions
            (serve [EndSession "t" "MATH1"; EndMeeting "t" "MATH1";
                    Modelled (Disconnect "t"); Modelled (Disconnect "s")] w_class))).
Proof.
  assert (H : is_Some (jm_get "MATH1" (teachingSessions w_class))).
  { exists math1. vm_compute. reflexivity. }
  split; [exact H|].
  by apply (rooms_events_and_polls_are_never_removed
              [EndSession "t" "MATH1"; EndMeeting "t" "MATH1";
               Modelled (Disconnect "t"); Modelled (Disconnect "s")] w_class).
Defined.

(** ** A teaching session between two [create-room]s *)

Lemma session_kept_refl s : session_kept s s.
Proof. repeat split; auto. Qed.

Lemma session_kept_trans s1 s2 s3 : session_kept s1 s2 → session_kept s2 s3 → session_kept s1 s3.
Proof.
  intros (A1 & A2 & A3 & A4 & A6 & A7 & A8 & A9)
         (B1 & B2 & B3 & B4 & B6 & B7 & B8 & B9).
  repeat split; try congruence; try (etrans; eassumption).
  destruct B9 as [B9|B9]; [rewrite B9; exact A9|by right].
Qed.

Lemma session_set_kept (m : list (string * Session)) k k' s s0 v :
  jm_get k m = Some s → jm_get k' m = Some s0 → session_kept s0 v →
  ∃ s', jm_get k (jm_set k' v m) = Some s' ∧ session_kept s s'.
Proof.
  intros Hk Hk' Hkept. destruct (decide (k' = k)) as [->|Hne].
  - rewrite jm_get_set_eq. exists v. split; [done|]. congruence.
  - rewrite jm_get_set_ne by done. exists s. split; [done|apply session_kept_refl].
Qed.

Lemma student_leaves_kept sid s : session_kept s (student_leaves sid s).1.
Proof.
  unfold student_leaves. repeat case_match; cbn; apply session_kept_refl || (repeat split; auto).
Qed.

Ltac kept_solver :=
  first
    [ apply session_kept_refl
    | repeat split; cbn; auto; by apply prefix_app_r ].

Lemma handle_session req w k s :
  jm_get k (teachingSessions w) = Some s →
  ∃ s', jm_get k (teachingSessions (handle req w)) = Some s'
        ∧ (session_kept s s'
           ∨ creates_room k req ∧ ∃ sid host now, s' = new_session host sid now).
Proof.
  intros Hk.
  destruct req as [a| | | | | |]; [destruct a|..]; cbn [handle step]; unfold_handlers;
    repeat case_match; store_frame;
    repeat match goal with
    | H : context [teachingSessions (emit_all _ _)] |- _ =>
        rewrite teachingSessions_emit_all in H; cbn in H
    end;
    try (exists s; split; [assumption|left; apply session_kept_refl]).
  all: try (erewrite (jm_get_map_values (λ x, (student_leaves _ x).1)), Hk;
            eexists; split; [reflexivity|left; apply student_leaves_kept]).
  all: try match goal with
    | H : jm_get ?k' (teachingSessions ?w0) = Some ?s0
      |- context [jm_set ?k' ?v (teachingSessions ?w0)] =>
        destruct (session_set_kept _ k k' s s0 v Hk H) as (s' & ? & ?);
          [kept_solver|]; exists s'; split; [assumption|left; assumption]
    end.
  all: try match goal with
    | |- context [jm_set ?roomId (new_session ?host ?sid ?now) _] =>
        destruct (decide (roomId = k)) as [->|Hne];
          [ rewrite jm_get_set_eq; eexists; split;
              [done|right; split; [by eexists _, _, _|by eexists _, _, _]]
          | rewrite jm_get_set_ne by done; exists s; split;
              [done|left; apply session_kept_refl] ]
    end.
Qed.

Lemma serve_session_kept reqs w k s :
  jm_get k (teachingSessions w) = Some s →
  Forall (λ req, ¬ creates_room k req) reqs →
  ∃ s', jm_get k (teachingSessions (serve reqs w)) = Some s' ∧ session_kept s s'.
Proof.
  intros Hk Hreqs. induction reqs as [|req reqs IH] using rev_ind.
  - exists s. split; [done|apply session_kept_refl].
  - apply Forall_app in Hreqs as [Hreqs Hreq]. rewrite Forall_singleton in Hreq.
    destruct (IH Hreqs) as (s1 & Hs1 & Hkept1).
    rewrite serve_snoc.
    destruct (handle_session req _ k s1 Hs1) as (s2 & Hs2 & [Hkept2|[Hc _]]);
      [|exfalso; exact (Hreq Hc)].
    exists s2. split; [done|]. by apply session_kept_trans with s1.
Qed.

Lemma handle_sessions_wf req w :
  jm_wf (teachingSessions w) → jm_wf (teachingSessions (handle req w)).
Proof.
  intros Hwf.
  destruct req as [a| | | | | |]; [destruct a|..]; cbn [handle step]; unfold_handlers;
    repeat case_match; store_frame;
    first [ assumption
          | by apply jm_wf_set
          | unfold jm_wf; by rewrite jm_keys_student_leaves
          | unfold jm_wf, jm_keys; by rewrite map_map ].
Qed.

Lemma serve_sessions_wf reqs w :
  jm_wf (teachingSessions w) → jm_wf (teachingSessions (serve reqs w)).
Proof.
  intros Hwf. induction reqs as [|req reqs IH] using rev_ind; [done|].
  rewrite serve_snoc. by apply handle_sessions_wf.
Qed.

(** X8. Between two [create-room]s for its id a teaching session keeps its
    host: whatever the requests served in between ([join-room-old], the
    join handshake, [send-message], [upload-note], [submit-feedback],
    [end-session], [end-meeting], disconnects, the event and poll
    handlers), the record stays under its id with the same host name, host
    socket, type and creation time; its message, note and feedback logs
    only grow, so that [GET /api/session/:roomId/feedback] keeps answering
    with an extension of its earlier answer; and [hostActive], once
    [false], stays [false]: no handler hands the session to a new socket
    of the host. *)
Theorem teaching_session_keeps_its_host reqs w k s :
  jm_get k (teachingSessions w) = Some s →
  Forall (λ req, ¬ creates_room k req) reqs →
  ∃ s', jm_get k (teachingSessions (serve reqs w)) = Some s'
        ∧ session_kept s s'
        ∧ (ts_hostActive s = Some false → ts_hostActive s' = Some false)
        ∧ get_feedback k w `prefix_of` get_feedback k (serve reqs w).
Proof.
  intros Hk Hreqs.
  destruct (serve_session_kept reqs w k s Hk Hreqs) as (s' & Hs' & Hkept).
  exists s'. split; [done|]. split; [done|].
  destruct Hkept as (_ & _ & _ & _ & _ & _ & Hfb & Hact).
  split.
  - intros Hfalse. destruct Hact as [Hact|Hact]; congruence.
  - unfold get_feedback. by rewrite Hk, Hs'.
Qed.

Lemma teaching_session_keeps_its_host_witness :
  ∃ s', jm_get "MATH1"
          (teachingSessions
             (serve [Modelled (Disconnect "t"); Modelled (Connect "t2");
                     SubmitFeedback "MATH1" "clear"; SendMessage "MATH1" "hello"]
                w_class)) = Some s'
        ∧ session_kept math1 s'
        ∧ (ts_hostActive math1 = Some false → ts_hostActive s' = Some false)
        ∧ get_feedback "MATH1" w_class
            `prefix_of` get_feedback "MATH1"
              (serve [Modelled (Disconnect "t"); Modelled (Connect "t2");
                      SubmitFeedback "MATH1" "clear"; SendMessage "MATH1" "hello"]
                 w_class).
Proof.
  apply (teaching_session_keeps_its_host
           [Modelled (Disconnect "t"); Modelled (Connect "t2");
            SubmitFeedback "MATH1" "clear"; SendMessage "MATH1" "hello"]
           w_class "MATH1" math1).
  - vm_compute. reflexivity.
  - repeat constructor; intros (? & ? & ? & [=]).
Defined.

(** ** The room id decides the store *)

Lemma event_id_prefix rnd : startsWith "EVENT-" ("EVENT-" +:+ rnd) = true.
Proof. by destruct rnd. Qed.

Lemma handle_gaming_ids req w k :
  is_Some (gamingRooms (handle req w) !! k) →
  is_Some (gamingRooms w !! k) ∨ startsWith "GAME-" k = true.
Proof.
  destruct req as [a| | | | | |]; [destruct a|..]; cbn [handle step]; unfold_handlers;
    repeat case_match; store_frame; frame_hyps; try (by left);
    rewrite lookup_insert_is_Some; (intros [<-|[_ ?]]; [|by left]);
    first [ by right | left; eauto ].
Qed.

Lemma handle_events_ids req w k :
  is_Some (events (handle req w) !! k) →
  is_Some (events w !! k) ∨ startsWith "EVENT-" k = true.
Proof.
  destruct req as [a| | | | | |]; [destruct a|..]; cbn [handle step]; unfold_handlers;
    repeat case_match; store_frame; frame_hyps; try (by left);
    rewrite lookup_insert_is_Some; (intros [<-|[_ ?]]; [|by left]);
    first [ by right | right; apply event_id_prefix | left; eauto ].
Qed.

Lemma handle_sessions_ids req w k :
  is_Some (jm_get k (teachingSessions (handle req w))) →
  is_Some (jm_get k (teachingSessions w))
  ∨ startsWith "GAME-" k = false ∧ startsWith "EVENT-" k = false.
Proof.
  destruct req as [a| | | | | |]; [destruct a|..]; cbn [handle step]; unfold_handlers;
    repeat case_match; store_frame; frame_hyps; try (by left);
    try (erewrite (jm_get_map_values (λ x, (student_leaves _ x).1));
         rewrite fmap_is_Some; by left);
    match goal with
    | |- context [jm_get k (jm_set ?k' _ _)] =>
        destruct (decide (k' = k)) as [<-|Hne];
          [|rewrite jm_get_set_ne by done; by left];
          intros _; first [ by right | left; eauto ]
    end.
Qed.

Lemma handle_ids_sorted req w : ids_sorted w → ids_sorted (handle req w).
Proof.
  intros (Hg & He & Ht). split; [|split]; intros k Hk.
  - destruct (handle_gaming_ids req w k Hk); auto.
  - destruct (handle_events_ids req w k Hk); auto.
  - destruct (handle_sessions_ids req w k Hk); auto.
Qed.

Lemma serve_ids_sorted reqs w : ids_sorted w → ids_sorted (serve reqs w).
Proof.
  intros Hw. induction reqs as [|req reqs IH] using rev_ind; [done|].
  rewrite serve_snoc. by apply handle_ids_sorted.
Qed.

Lemma init_ids_sorted : ids_sorted init.
Proof.
  split; [|split]; intros k [x Hx]; cbn in Hx; by rewrite ?lookup_empty in Hx.
Qed.

(** X9. The room id decides the store. From the empty stores on, whatever
    is served, [gamingRooms] holds only ids that start with [GAME-],
    [events] only ids that start with [EVENT-], and [teachingSessions] only
    ids that start with neither; so a room id is a key of at most one of
    the three maps. The [else] of [send-message] therefore never passes
    over a teaching session in favour of a gaming room of the same id, and
    the prefix test of [join-room-old] and [create-room] leads to the only
    map that can hold the id. *)
Theorem room_id_decides_the_store reqs roomId :
  let w := serve reqs init in
  (is_Some (gamingRooms w !! roomId) →
     startsWith "GAME-" roomId = true
     ∧ events w !! roomId = None ∧ jm_get roomId (teachingSessions w) = None)
  ∧ (is_Some (events w !! roomId) →
       startsWith "EVENT-" roomId = true
       ∧ gamingRooms w !! roomId = None ∧ jm_get roomId (teachingSessions w) = None)
  ∧ (is_Some (jm_get roomId (teachingSessions w)) →
       startsWith "GAME-" roomId = false ∧ startsWith "EVENT-" roomId = false
       ∧ gamingRooms w !! roomId = None ∧ events w !! roomId = None).
Proof.
  intros w. destruct (serve_ids_sorted reqs init init_ids_sorted) as (Hg & He & Ht).
  fold w in Hg, He, Ht.
  assert (Hno_g : startsWith "GAME-" roomId = false → gamingRooms w !! roomId = None).
  { intros Hpre. destruct (gamingRooms w !! roomId) eqn:Hget; [|done].
    rewrite (Hg roomId) in Hpre by eauto. done. }
  assert (Hno_e : startsWith "EVENT-" roomId = false → events w !! roomId = None).
  { intros Hpre. destruct (events w !! roomId) eqn:Hget; [|done].
    rewrite (He roomId) in Hpre by eauto. done. }
  assert (Hno_t : startsWith "GAME-" roomId = true ∨ startsWith "EVENT-" roomId = true →
                  jm_get roomId (teachingSessions w) = None).
  { intros Hpre. destruct (jm_get roomId (teachingSessions w)) eqn:Hget; [|done].
    destruct (Ht roomId) as [H1 H2]; [eauto|]. destruct Hpre; congruence. }
  split; [|split]; intros Hk.
  - pose proof (Hg _ Hk) as Hpre. split; [done|]. split; [|auto].
    apply Hno_e. by apply game_prefix_not_event.
  - pose proof (He _ Hk) as Hpre. split; [done|]. split; [|auto].
    apply Hno_g. destruct (startsWith "GAME-" roomId) eqn:Hgp; [|done].
    apply game_prefix_not_event in Hgp. congruence.
  - destruct (Ht _ Hk) as [H1 H2]. auto.
Qed.

Lemma room_id_decides_the_store_witness :
  is_Some (gamingRooms
             (serve [Modelled (Connect "h"); Modelled (CreateRoom "h" "GAME-1" "host" 1);
                     SendMessage "GAME-1" "hello"] init) !! "GAME-1")
  ∧ jm_get "GAME-1"
      (teachingSessions
         (serve [Modelled (Connect "h"); Modelled (CreateRoom "h" "GAME-1" "host" 1);
                 SendMessage "GAME-1" "hello"] init)) = None.
Proof.
  assert (Hk : is_Some (gamingRooms
             (serve [Modelled (Connect "h"); Modelled (CreateRoom "h" "GAME-1" "host" 1);
                     SendMessage "GAME-1" "hello"] init) !! "GAME-1")).
  { vm_compute. eauto. }
  split; [exact Hk|].
  destruct (room_id_decides_the_store
              [Modelled (Connect "h"); Modelled (CreateRoom "h" "GAME-1" "host" 1);
               SendMessage "GAME-1" "hello"] "GAME-1") as (Hg & _ & _).
  by destruct (Hg Hk) as (_ & _ & ?).
Defined.

(** ** A student's connection is lost *)






(** ** An event between two [createEvent]s of its id *)

Lemma event_kept_refl e : event_kept e e.
Proof. repeat split; auto. Qed.

Lemma event_kept_trans e1 e2 e3 : event_kept e1 e2 → event_kept e2 e3 → event_kept e1 e3.
Proof.
  intros (A1 & A2 & A3 & A4 & A5 & A6 & A7 & A8 & A9 & A10 & A11 & A12 & A13)
         (B1 & B2 & B3 & B4 & B5 & B6 & B7 & B8 & B9 & B10 & B11 & B12 & B13).
  repeat split; try congruence; try (etrans; eassumption); auto.
Qed.

Ltac event_kept_solver :=
  first
    [ apply event_kept_refl
    | repeat split; cbn; auto; try done;
      rewrite ?map_app; by apply prefix_app_r ].

Lemma handle_event req w k e :
  events w !! k = Some e →
  ∃ e', events (handle req w) !! k = Some e'
        ∧ (event_kept e e' ∨ creates_event k req).
Proof.
  intros Hk.
  destruct req as [a| | | | | |]; [destruct a|..]; cbn [handle step]; unfold_handlers;
    repeat case_match; store_frame; frame_hyps;
    try (exists e; split; [assumption|left; apply event_kept_refl]);
    try match goal with
    | H : events ?w0 !! ?k' = Some ?e0 |- context [<[?k' := ?v]> (events ?w0) !! k] =>
        destruct (decide (k = k')) as [->|Hne];
          [ rewrite lookup_insert_eq; rewrite Hk in H; injection H as <-;
            eexists; split; [reflexivity|left; event_kept_solver]
          | rewrite lookup_insert_ne by done; exists e; split;
              [assumption|left; apply event_kept_refl] ]
    end.
  destruct (decide ("EVENT-" +:+ rnd = k)) as [<-|Hne].
  - rewrite lookup_insert_eq. eexists. split; [reflexivity|].
    right. by eexists _, _, _, _, _, _.
  - rewrite lookup_insert_ne by done. exists e. split; [done|left; apply event_kept_refl].
Qed.

(** X11. Between two [createEvent]s that draw its id an event record only
    grows. Whatever is served in between ([create-room], [join-room-old],
    [event-toggle-chat], [event-send-message], [event-start-poll],
    [createPoll], [event-share-document], [event-end], disconnects, ...),
    the event stays under its id with the same title, description, host
    name, host address and creation time; the attendees, messages,
    documents and polls it has are kept, in their order, new ones coming
    after them, so neither [event-end] nor the loss of an attendee's
    connection takes an attendee off the list; its status never returns to
    [created]; and a host socket and a start time, once set, stay set. *)
Theorem event_record_only_grows reqs w k e :
  events w !! k = Some e →
  Forall (λ req, ¬ creates_event k req) reqs →
  ∃ e', events (serve reqs w) !! k = Some e' ∧ event_kept e e'.
Proof.
  intros Hk Hreqs. induction reqs as [|req reqs IH] using rev_ind.
  - exists e. split; [done|apply event_kept_refl].
  - apply Forall_app in Hreqs as [Hreqs Hreq]. rewrite Forall_singleton in Hreq.
    destruct (IH Hreqs) as (e1 & He1 & Hkept1).
    rewrite serve_snoc.
    destruct (handle_event req _ k e1 He1) as (e2 & He2 & [Hkept2|Hc]);
      [|exfalso; exact (Hreq Hc)].
    exists e2. split; [done|]. by apply event_kept_trans with e1.
Qed.

Lemma event_record_only_grows_witness :
  ∃ e e',
    events w_event !! "EVENT-E1" = Some e
    ∧ events (serve [Modelled (JoinRoomOld "a" (JoinObject "EVENT-E1" ann) 3);
                     Modelled (EventEnd "h" "EVENT-E1" 4);
                     Modelled (Disconnect "a");
                     Modelled (CreateRoom "x" "EVENT-E1" "Xia" 5)] w_event)
        !! "EVENT-E1" = Some e'
    ∧ event_kept e e'.
Proof.
  destruct (events w_event !! "EVENT-E1") as [e|] eqn:Hk; [|by vm_compute in Hk].
  destruct (event_record_only_grows
              [Modelled (JoinRoomOld "a" (JoinObject "EVENT-E1" ann) 3);
               Modelled (EventEnd "h" "EVENT-E1" 4);
               Modelled (Disconnect "a");
               Modelled (CreateRoom "x" "EVENT-E1" "Xia" 5)] w_event "EVENT-E1" e Hk)
    as (e' & He' & Hkept).
  - repeat constructor; intros (? & ? & ? & ? & ? & ? & [=] & _).
  - exists e, e'. split; [reflexivity|]. split; [exact He'|exact Hkept].
Defined.

(** ** Signaling rooms and connections *)





Lemma dom_sockets_socket_join sid room w :
  dom (sockets (socket_join sid room w)) = dom (sockets w).
Proof.
  unfold socket_join. destruct (sockets w !! sid) as [rs|] eqn:Hs; [|done].
  destruct (decide _); [done|]. cbn. apply dom_insert_lookup_L. eauto.
Qed.

Lemma connected_socket_join sid room w s :
  is_Some (sockets (socket_join sid room w) !! s) ↔ is_Some (sockets w !! s).
Proof. by rewrite <- !elem_of_dom, dom_sockets_socket_join. Qed.






(** ** [GET /api/rooms] *)

(** X13. What [GET /api/rooms] says of a teaching room whose host is gone.
    Once [hostActive] of the session is [false], every later listing, up
    to the next [create-room] for that id, has exactly one entry for the
    room, and it reads [hostActive: false] with the host name and creation
    time the session was created with; only [studentCount] follows the
    session. *)
Theorem rooms_listing_reports_lost_host reqs w k s :
  jm_wf (teachingSessions w) →
  jm_get k (teachingSessions w) = Some s →
  ts_hostActive s = Some false →
  Forall (λ req, ¬ creates_room k req) reqs →
  ∃ s',
    jm_get k (teachingSessions (serve reqs w)) = Some s'
    ∧ ∀ info,
        (In info (teachingRooms_view (serve reqs w)) ∧ ri_roomId info = k)
        ↔ info = {| ri_roomId := k; ri_host := ts_host s;
                    ri_studentCount := length (ts_students s');
                    ri_createdAt := ts_createdAt s; ri_hostActive := false;
                    ri_type := "teaching" |}.
Proof.
  intros Hwf Hk Hfalse Hreqs.
  destruct (serve_session_kept reqs w k s Hk Hreqs) as (s' & Hs' & Hkept).
  pose proof (serve_sessions_wf reqs w Hwf) as Hwf'.
  destruct Hkept as (Hhost & _ & Hcreated & _ & _ & _ & _ & Hact).
  assert (Hact' : ts_hostActive s' = Some false) by (destruct Hact; congruence).
  exists s'. split; [done|]. intros info. unfold teachingRooms_view. split.
  - intros [Hin Hid]. apply in_map_iff in Hin as ([k0 s0] & <- & Hin). cbn in *. subst k0.
    assert (s0 = s') as ->.
    { apply (jm_wf_unique _ k _ _ Hwf' Hin). by apply jm_get_In. }
    by rewrite Hhost, Hcreated, Hact'.
  - intros ->. split; [|done]. apply in_map_iff. exists (k, s'). split.
    + cbn. by rewrite Hhost, Hcreated, Hact'.
    + by apply jm_get_In.
Qed.

Lemma rooms_listing_reports_lost_host_witness :
  ∃ s',
    jm_get "MATH1"
      (teachingSessions
         (serve [Modelled (Disconnect "s"); Modelled (Connect "t2");
                 SendMessage "MATH1" "anyone there?"]
            (serve [Modelled (Disconnect "t")] w_class))) = Some s'
    ∧ ∀ info,
        (In info
           (teachingRooms_view
              (serve [Modelled (Disconnect "s"); Modelled (Connect "t2");
                      SendMessage "MATH1" "anyone there?"]
                 (serve [Modelled (Disconnect "t")] w_class)))
         ∧ ri_roomId info = "MATH1")
        ↔ info = {| ri_roomId := "MATH1";
                    ri_host := ts_host (ts_with_hostActive (Some false) math1);
                    ri_studentCount := length (ts_students s');
                    ri_createdAt := ts_createdAt (ts_with_hostActive (Some false) math1);
                    ri_hostActive := false; ri_type := "teaching" |}.
Proof.
  apply (rooms_listing_reports_lost_host
           [Modelled (Disconnect "s"); Modelled (Connect "t2");
            SendMessage "MATH1" "anyone there?"]
           (serve [Modelled (Disconnect "t")] w_class) "MATH1"
           (ts_with_hostActive (Some false) math1)).
  - assert (Hkeys : jm_keys (teachingSessions (serve [Modelled (Disconnect "t")] w_class))
                    = ["MATH1"]) by (vm_compute; reflexivity).
    unfold jm_wf. rewrite Hkeys. apply NoDup_singleton.
  - vm_compute. reflexivity.
  - reflexivity.
  - repeat constructor; intros (? & ? & ? & [=]).
Defined.

(** * The accounts *)

Lemma created_snoc `{AuthEnv} l r st :
  created (l ++ [r]) st = (User_create r.1.1 r.1.2 r.2 (created l st)).1.
Proof. unfold created. by rewrite fold_left_app. Qed.

Lemma created_users `{AuthEnv} l st :
  ∃ new, users (created l st) = users st ++ new
         ∧ length new = length l
         ∧ userIdCounter (created l st) = userIdCounter st + Z.of_nat (length l).
Proof.
  induction l as [|r l IH] using rev_ind.
  - exists []. cbn. rewrite app_nil_r. repeat split. lia.
  - destruct IH as (new & Hu & Hlen & Hc). rewrite created_snoc. cbn.
    eexists (new ++ [_]). rewrite Hu, Hc, <- app_assoc, !length_app, Hlen. cbn.
    repeat split. lia.
Qed.

Lemma created_ids `{AuthEnv} l st :
  map us_id (users (created l st)) =
  map us_id (users st) ++ map (λ i, userIdCounter st + Z.of_nat i) (seq 0 (length l)).
Proof.
  induction l as [|r l IH] using rev_ind.
  - cbn. by rewrite app_nil_r.
  - rewrite created_snoc. cbn. rewrite map_app, IH, length_app, seq_app, map_app.
    cbn. destruct (created_users l st) as (_ & _ & _ & ->). by rewrite <- app_assoc.
Qed.

Lemma js_find_app_l {A : Type} (p : A → bool) l1 l2 x :
  js_find p l1 = Some x → js_find p (l1 ++ l2) = Some x.
Proof.
  induction l1 as [|a l1 IH]; simpl; [done|]. destruct (p a); [done|apply IH].
Qed.

Lemma js_find_app_r {A : Type} (p : A → bool) l1 l2 :
  js_find p l1 = None → js_find p (l1 ++ l2) = js_find p l2.
Proof.
  induction l1 as [|a l1 IH]; simpl; [done|]. destruct (p a); [done|apply IH].
Qed.

Lemma findById_counted (us : list User) (start : nat) i user :
  map us_id us = map Z.of_nat (seq start (length us)) →
  us !! i = Some user →
  js_find (λ u, us_id u =? Z.of_nat (start + i)) us = Some user.
Proof.
  revert start i. induction us as [|u us IH]; intros start i Hids Hi; [done|].
  cbn in Hids. injection Hids as Hu Hids. destruct i as [|i]; cbn in *.
  - injection Hi as ->. rewrite Nat.add_0_r, Hu. by rewrite Z.eqb_refl.
  - rewrite Hu. destruct (Z.eqb_spec (Z.of_nat start) (Z.of_nat (start + S i))); [lia|].
    replace (start + S i)%nat with (S start + i)%nat by lia. by apply IH.
Qed.

Lemma findById_out_of_range (us : list User) (start : nat) id :
  map us_id us = map Z.of_nat (seq start (length us)) →
  id < Z.of_nat start ∨ Z.of_nat (start + length us) <= id →
  js_find (λ u, us_id u =? id) us = None.
Proof.
  revert start. induction us as [|u us IH]; intros start Hids Hid; [done|].
  cbn in Hids. injection Hids as Hu Hids. cbn in *. rewrite Hu.
  destruct (Z.eqb_spec (Z.of_nat start) id); [lia|].
  apply (IH (S start)); [done|lia].
Qed.

(** X14. User ids count from one. However many users have been created,
    and in whatever order their registrations were served, the [n] users
    of the store carry the ids [1 .. n] in the order of the array and the
    counter stands at [n + 1]; no two users share an id. [findById(id)]
    compares with [parseInt(id)]: it answers with the user at position
    [parseInt(id) - 1] when that number is from 1 to [n], and with nothing
    otherwise. So an id whose [parseInt] is not the id itself, such as
    [10^21] with [parseInt] 1, finds the user of another id. *)
Theorem user_ids_count_from_one `{AuthEnv} (l : list (UserData * string * Z)) :
  let st := created l no_users in
  map us_id (users st) = map Z.of_nat (seq 1 (length l))
  ∧ length (users st) = length l
  ∧ userIdCounter st = Z.of_nat (length l) + 1
  ∧ NoDup (map us_id (users st))
  ∧ (∀ id i user,
       parseInt id = Z.of_nat i + 1 → users st !! i = Some user →
       User_findById id st = Some user ∧ us_id user = parseInt id)
  ∧ (∀ id, parseInt id < 1 ∨ Z.of_nat (length l) < parseInt id →
           User_findById id st = None).
Proof.
  intros st.
  assert (Hids : map us_id (users st) = map Z.of_nat (seq 1 (length l))).
  { unfold st. rewrite created_ids. cbn. rewrite <- seq_shift, map_map.
    apply map_ext. intros i. lia. }
  assert (Hlen : length (users st) = length l).
  { apply (f_equal length) in Hids. by rewrite !length_map, length_seq in Hids. }
  split; [done|]. split; [done|]. split; [|split; [|split]].
  - destruct (created_users l no_users) as (_ & _ & _ & Hc). fold st in Hc.
    rewrite Hc. cbn. lia.
  - rewrite Hids. apply NoDup_fmap_2; [intros ? ? ?; lia|apply NoDup_seq].
  - intros id i user Hid Hi. unfold User_findById. rewrite Hid.
    replace (Z.of_nat i + 1) with (Z.of_nat (1 + i)) by lia. split.
    + apply findById_counted; [by rewrite Hlen|done].
    + assert (Hu : map us_id (users st) !! i = Some (us_id user)).
      { change (map us_id (users st)) with (us_id <$> users st).
        by rewrite list_lookup_fmap, Hi. }
      rewrite Hids in Hu.
      change (map Z.of_nat (seq 1 (length l))) with (Z.of_nat <$> seq 1 (length l)) in Hu.
      rewrite list_lookup_fmap in Hu.
      destruct (seq 1 (length l) !! i) as [k|] eqn:Hk; [|done].
      apply lookup_seq in Hk as [-> _]. cbn in Hu. by injection Hu as <-.
  - intros id Hid. unfold User_findById.
    apply (findById_out_of_range _ 1); [by rewrite Hlen|]. rewrite Hlen. lia.
Qed.

Lemma user_ids_count_from_one_witness :
  ∃ ann_user,
    users (created (H := plain_env)
             [({| ud_name := "Ann"; ud_email := "Ann@Example.org"; ud_password := "secret1" |},
               "salt1", 10);
              ({| ud_name := "Bob"; ud_email := "bob@example.org"; ud_password := "secret2" |},
               "salt2", 20)] no_users) !! 0%nat = Some ann_user
    ∧ us_id ann_user = 1
    ∧ User_findById (H := plain_env) (10 ^ 21)
        (created (H := plain_env)
           [({| ud_name := "Ann"; ud_email := "Ann@Example.org";
                ud_password := "secret1" |}, "salt1", 10);
            ({| ud_name := "Bob"; ud_email := "bob@example.org";
                ud_password := "secret2" |}, "salt2", 20)] no_users)
      = Some ann_user.
Proof.
  destruct (user_ids_count_from_one (H := plain_env)
              [({| ud_name := "Ann"; ud_email := "Ann@Example.org";
                   ud_password := "secret1" |}, "salt1", 10);
               ({| ud_name := "Bob"; ud_email := "bob@example.org";
                   ud_password := "secret2" |}, "salt2", 20)])
    as (_ & _ & _ & _ & Hfind & _).
  eexists. split; [reflexivity|].
  destruct (Hfind (10 ^ 21) 0%nat _ eq_refl eq_refl) as [Hf Hid].
  split; [exact Hid|exact Hf].
Defined.

Lemma User_findOne_new `{AuthEnv} email st user rest :
  email ≠ "" →
  User_findOne email st = None →
  us_email user = toLowerCase email →
  User_findOne email {| users := users st ++ user :: rest;
                        userIdCounter := userIdCounter st + 1 + Z.of_nat (length rest) |}
  = Some user.
Proof.
  intros Hne Hnone Hemail. unfold User_findOne in *.
  destruct email as [|c email]; [done|]. cbn [users].
  rewrite js_find_app_r by done. cbn. by rewrite bool_decide_eq_true_2.
Qed.

Lemma created_after_create `{AuthEnv} l body salt now st :
  ∃ rest,
    created l (User_create body salt now st).1 =
    {| users := users st ++ (User_create body salt now st).2 :: rest;
       userIdCounter := userIdCounter st + 1 + Z.of_nat (length rest) |}.
Proof.
  destruct (created_users l (User_create body salt now st).1) as (new & Hu & Hlen & Hc).
  exists new. destruct (created l _) as [us c]. cbn in *. subst us c.
  by rewrite <- app_assoc, Hlen.
Qed.

(** X15. Who registers can log in. Let a registration pass its test on the
    store on which the user is then created (nobody took the address while
    the password was hashed), and let [bcrypt.compare] accept the password
    against its own hash. Then, however many users are created afterwards,
    [login] with the same address and password finds this user: the answer
    carries the id the registration was given, the name as sent and the
    address in lower case, or [500] when the token cannot be signed; never
    [401]. *)
Theorem register_then_login `{AuthEnv} body salt now iat iat' st st' response l :
  ud_email body ≠ "" →
  register [] body salt now iat st = (st', response) →
  response ≠ Message 400 "User already exists" →
  bcrypt_compare (ud_password body) (bcrypt_hash salt (ud_password body)) = true →
  login [] (ud_email body) (ud_password body) iat' (created l st') =
    match jwt_sign (userIdCounter st) iat' with
    | inl token =>
        Account 200 (userIdCounter st) (ud_name body) (toLowerCase (ud_email body)) token
    | inr message => Message 500 ("Server error: " +:+ message)
    end.
Proof.
  intros Hne Hreg Hresp Hcmp. unfold register, register_check in Hreg.
  destruct (User_findOne (ud_email body) st) eqn:Hfind.
  { injection Hreg as <- <-. done. }
  unfold register_create in Hreg.
  destruct (User_create body salt now st) as [st1 user] eqn:Hcreate.
  injection Hreg as <- _.
  destruct (created_after_create l body salt now st) as (rest & Hst).
  rewrite Hcreate in Hst. cbn [fst snd] in Hst. rewrite Hst.
  assert (Huser : user = (User_create body salt now st).2) by by rewrite Hcreate.
  unfold login. rewrite (User_findOne_new _ st user rest Hne Hfind) by by rewrite Huser.
  rewrite Huser. cbn. by rewrite Hcmp.
Qed.

Lemma register_then_login_witness :
  login (H := plain_env) [] "Ann@Example.org" "secret1" 99
    (created (H := plain_env)
       [({| ud_name := "Bob"; ud_email := "bob@example.org"; ud_password := "secret2" |},
         "salt2", 20)]
       (register (H := plain_env) []
          {| ud_name := "Ann"; ud_email := "Ann@Example.org"; ud_password := "secret1" |}
          "salt1" 10 11 no_users).1)
  = Account 200 1 "Ann" "ann@example.org" "jwt-1".
Proof.
  apply (register_then_login (H := plain_env)
           {| ud_name := "Ann"; ud_email := "Ann@Example.org"; ud_password := "secret1" |}
           "salt1" 10 11 99 no_users _
           (Account 201 1 "Ann" "ann@example.org" "jwt-1")
           [({| ud_name := "Bob"; ud_email := "bob@example.org"; ud_password := "secret2" |},
             "salt2", 20)]).
  - discriminate.
  - vm_compute. reflexivity.
  - discriminate.
  - vm_compute. reflexivity.
Defined.

(** X16. Two registrations of one address can both succeed. [register]
    tests for an existing user before it awaits the hash and creates the
    user after it, on the store as it is by then. When two registrations
    whose addresses agree in lower case are both tested before either user
    is created, both users are created, with consecutive ids and the same
    stored address. From then on [findOne] answers with the first of the
    two for that address: [login] with the second password is refused with
    [401] whenever [bcrypt.compare] does not accept it against the first
    hash, however many users are created later. *)
Theorem concurrent_registrations_share_an_address `{AuthEnv}
    body1 body2 salt1 salt2 now1 now2 iat1 iat2 iat' st l :
  ud_email body1 ≠ "" → ud_email body2 ≠ "" →
  toLowerCase (ud_email body1) = toLowerCase (ud_email body2) →
  register_check [] body1 st = None →
  register_check [] body2 st = None →
  bcrypt_compare (ud_password body2) (bcrypt_hash salt1 (ud_password body1)) = false →
  let r1 := register_create body1 salt1 now1 iat1 st in
  let r2 := register_create body2 salt2 now2 iat2 r1.1 in
  ∃ user1 user2,
    users r2.1 = users st ++ [user1; user2]
    ∧ us_id user1 = userIdCounter st ∧ us_id user2 = userIdCounter st + 1
    ∧ us_email user1 = us_email user2
    ∧ r1.2 = answer_account 201 user1 iat1
    ∧ r2.2 = answer_account 201 user2 iat2
    ∧ User_findOne (ud_email body2) (created l r2.1) = Some user1
    ∧ login [] (ud_email body2) (ud_password body2) iat' (created l r2.1)
      = Message 401 "Invalid credentials".
Proof.
  intros Hne1 Hne2 Hsame Hc1 Hc2 Hcmp r1 r2.
  unfold register_check in Hc1, Hc2.
  destruct (User_findOne (ud_email body1) st) eqn:Hf1; [done|].
  destruct (User_findOne (ud_email body2) st) eqn:Hf2; [done|].
  eexists _, _. split; [|split; [|split; [|split; [|split; [|split; [|split]]]]]];
    try (cbn; rewrite <- ?app_assoc; reflexivity).
  - cbn. by rewrite Hsame.
  - destruct (created_users l r2.1) as (new & Hu & Hlen & Hc).
    unfold User_findOne in *. destruct (ud_email body2) as [|c e] eqn:He2; [done|].
    rewrite Hu. cbn [r2 r1 register_create User_create fst snd users].
    rewrite <- !app_assoc. rewrite js_find_app_r by done. cbn.
    rewrite bool_decide_eq_true_2; [reflexivity|exact Hsame].
  - destruct (created_users l r2.1) as (new & Hu & Hlen & Hc).
    unfold login, User_findOne in *. destruct (ud_email body2) as [|c e] eqn:He2; [done|].
    rewrite Hu. cbn [r2 r1 register_create User_create fst snd users].
    rewrite <- !app_assoc. rewrite js_find_app_r by done. cbn.
    rewrite bool_decide_eq_true_2 by exact Hsame. cbn. by rewrite Hcmp.
Qed.

Lemma concurrent_registrations_share_an_address_witness :
  login (H := plain_env) [] "ann@example.org" "secret2" 99
    (register_create (H := plain_env)
       {| ud_name := "Ann B"; ud_email := "ann@example.org"; ud_password := "secret2" |}
       "salt2" 12 13
       (register_create (H := plain_env)
          {| ud_name := "Ann A"; ud_email := "Ann@Example.org"; ud_password := "secret1" |}
          "salt1" 10 11 no_users).1).1
  = Message 401 "Invalid credentials".
Proof.
  destruct (concurrent_registrations_share_an_address (H := plain_env)
              {| ud_name := "Ann A"; ud_email := "Ann@Example.org"; ud_password := "secret1" |}
              {| ud_name := "Ann B"; ud_email := "ann@example.org"; ud_password := "secret2" |}
              "salt1" "salt2" 10 12 11 13 99 no_users [])
    as (user1 & user2 & _ & _ & _ & _ & _ & _ & _ & Hlogin);
    [discriminate|discriminate|vm_compute; reflexivity|reflexivity|reflexivity
    |vm_compute; reflexivity|exact Hlogin].
Defined.

(** ** [send-message] and the event rooms *)

(** X17. [send-message] reaches an event room whatever its chat setting.
    In every world reached from the empty stores, [send-message] with the
    id of an event finds neither a gaming room nor a teaching session
    under that id: it stores the message nowhere and sends [message] to
    every socket in the channel of the event, also when [chatEnabled] is
    off, in which case [event-send-message] for the same event sends and
    stores nothing. *)
Theorem send_message_reaches_event_rooms reqs eventId event message :
  events (serve reqs init) !! eventId = Some event →
  send_message eventId message (serve reqs init) =
    emit (IoTo eventId) "message" (P_message message) (serve reqs init)
  ∧ outbox (send_message eventId message (serve reqs init)) =
      outbox (serve reqs init) ++
        [{| target := IoTo eventId; ev := "message"; payload := P_message message;
            rcpts := in_room (sockets (serve reqs init)) eventId |}]
  ∧ events (send_message eventId message (serve reqs init)) = events (serve reqs init)
  ∧ (chatEnabled (ev_settings event) = false →
     event_send_message eventId message (serve reqs init) = serve reqs init).
Proof.
  intros Hev. destruct (serve_ids_sorted reqs init init_ids_sorted) as (Hg & He & Ht).
  set (w := serve reqs init) in *.
  assert (Hpre : startsWith "EVENT-" eventId = true) by (apply He; eauto).
  assert (Hgame : gamingRooms w !! eventId = None).
  { destruct (gamingRooms w !! eventId) eqn:Hget; [|done].
    assert (Hgp : startsWith "GAME-" eventId = true) by (apply Hg; eauto).
    apply game_prefix_not_event in Hgp. congruence. }
  assert (Hteach : jm_get eventId (teachingSessions w) = None).
  { destruct (jm_get eventId (teachingSessions w)) eqn:Hget; [|done].
    destruct (Ht eventId) as [_ Hne]; [eauto|]. congruence. }
  assert (Hsend : send_message eventId message w =
                  emit (IoTo eventId) "message" (P_message message) w).
  { unfold send_message. by rewrite Hgame, Hteach. }
  split; [exact Hsend|]. rewrite Hsend. split; [done|]. split; [done|].
  intros Hoff. unfold event_send_message. by rewrite Hev, Hoff.
Qed.

Lemma send_message_reaches_event_rooms_witness :
  outbox (send_message "EVENT-E1" "psst" (serve reqs_muted_event init)) =
    outbox (serve reqs_muted_event init) ++
      [{| target := IoTo "EVENT-E1"; ev := "message"; payload := P_message "psst";
          rcpts := in_room (sockets (serve reqs_muted_event init)) "EVENT-E1" |}]
  ∧ event_send_message "EVENT-E1" "psst" (serve reqs_muted_event init)
    = serve reqs_muted_event init
  ∧ in_room (sockets (serve reqs_muted_event init)) "EVENT-E1" = {["h"; "a"]}.
Proof.
  destruct (events (serve reqs_muted_event init) !! "EVENT-E1") as [event|] eqn:Hev;
    [|by vm_compute in Hev].
  destruct (send_message_reaches_event_rooms reqs_muted_event "EVENT-E1" event "psst" Hev)
    as (_ & Hout & _ & Hgate).
  split; [exact Hout|]. split.
  - apply Hgate. vm_compute in Hev. injection Hev as <-. reflexivity.
  - vm_compute. reflexivity.
Defined.

(** ** The rooms of a socket *)

Lemma rooms_own_first_socket_join sid room w :
  rooms_own_first (sockets w) → rooms_own_first (sockets (socket_join sid room w)).
Proof.
  intros Hw. unfold socket_join.
  destruct (sockets w !! sid) as [rs|] eqn:Hs; [|done].
  destruct (decide (room ∈ rs)) as [|Hnotin]; [done|]. cbn.
  intros sid' rooms Hget. apply lookup_insert_Some in Hget as [[<- <-]|[_ Hget]].
  - destruct (Hw sid rs Hs) as (joined & -> & Hnd).
    exists (joined ++ [room]). split; [done|].
    apply NoDup_app. split; [done|]. split; [|apply NoDup_singleton].
    intros x Hx Hx'. apply list_elem_of_singleton in Hx'. by subst x.
  - by apply Hw.
Qed.

Lemma rooms_own_first_connect sid socks :
  rooms_own_first socks → rooms_own_first (<[sid := [sid]]> socks).
Proof.
  intros Hw sid' rooms Hget. apply lookup_insert_Some in Hget as [[<- <-]|[_ Hget]].
  - exists []. split; [done|apply NoDup_singleton].
  - by apply Hw.
Qed.

Lemma rooms_own_first_delete sid socks :
  rooms_own_first socks → rooms_own_first (delete sid socks).
Proof.
  intros Hw sid' rooms Hget. apply lookup_delete_Some in Hget as [_ Hget]. by apply Hw.
Qed.

Lemma handle_own_room_first req w : own_room_first w → own_room_first (handle req w).
Proof.
  unfold own_room_first. intros Hw.
  destruct req as [a| | | | | |]; [destruct a|..]; cbn [handle step];
    try (unfold on_disconnect;
         destruct (srv_disconnect_frame sid
                     (handleUserDisconnect sid (leave_all sid (srv_disconnecting sid w))))
           as (_ & _ & -> & _);
         destruct (handleUserDisconnect_frame sid (leave_all sid (srv_disconnecting sid w)))
           as (_ & _ & _ & -> & _);
         destruct (srv_disconnecting_frame sid w) as (_ & _ & _ & Hs & _);
         cbn; rewrite Hs; by apply rooms_own_first_delete);
    unfold_handlers; repeat case_match;
    repeat (first [ rewrite sockets_emit_all
                  | apply rooms_own_first_socket_join
                  | apply rooms_own_first_connect
                  | progress cbn ]);
    assumption.
Qed.

Lemma serve_own_room_first reqs w : own_room_first w → own_room_first (serve reqs w).
Proof.
  intros Hw. induction reqs as [|req reqs IH] using rev_ind; [done|].
  rewrite serve_snoc. by apply handle_own_room_first.
Qed.

(** X18. [rooms[1]] in the [disconnecting] handler. In every world reached
    from the empty stores, [socket.rooms] of a connected socket starts
    with the socket's own id, as the comment in the handler says, and
    holds no room twice. So [rooms[1]] is the first room the socket joined:
    when the connection is lost, [user-disconnected] goes to the other
    members of that one room, and to no one if the socket never joined a
    room; the rooms it joined later get no [user-disconnected]. *)
Theorem disconnecting_notifies_first_joined_room reqs sid rooms :
  sockets (serve reqs init) !! sid = Some rooms →
  ∃ joined,
    rooms = sid :: joined ∧ NoDup rooms
    ∧ outbox (srv_disconnecting sid (serve reqs init)) =
        outbox (serve reqs init) ++
          match joined with
          | room :: _ =>
              [{| target := SocketTo sid room; ev := "user-disconnected";
                  payload := P_string sid;
                  rcpts := in_room (sockets (serve reqs init)) room ∖ {[sid]} |}]
          | [] => []
          end.
Proof.
  intros Hs.
  assert (Hinit : own_room_first init).
  { intros s rs H. cbn in H. by rewrite lookup_empty in H. }
  destruct (serve_own_room_first reqs init Hinit sid rooms Hs) as (joined & -> & Hnd).
  exists joined. split; [done|]. split; [done|].
  unfold srv_disconnecting. rewrite Hs.
  destruct joined as [|room joined]; cbn; [by rewrite app_nil_r|done].
Qed.

Lemma disconnecting_notifies_first_joined_room_witness :
  ∃ joined,
    ["a"; "EVENT-E1"; "MATH1"] = "a" :: joined ∧ NoDup ["a"; "EVENT-E1"; "MATH1"]
    ∧ outbox (srv_disconnecting "a"
                (serve (reqs_muted_event ++ [Modelled (JoinRoom "a" "MATH1")]) init)) =
        outbox (serve (reqs_muted_event ++ [Modelled (JoinRoom "a" "MATH1")]) init) ++
          match joined with
          | room :: _ =>
              [{| target := SocketTo "a" room; ev := "user-disconnected";
                  payload := P_string "a";
                  rcpts :=
                    in_room
                      (sockets
                         (serve (reqs_muted_event ++ [Modelled (JoinRoom "a" "MATH1")])
                            init)) room ∖ {["a"]} |}]
          | [] => []
          end.
Proof.
  apply (disconnecting_notifies_first_joined_room
           (reqs_muted_event ++ [Modelled (JoinRoom "a" "MATH1")]) "a"
           ["a"; "EVENT-E1"; "MATH1"]).
  vm_compute. reflexivity.
Defined.
